(** * go_logger: a shallow embedding of [logger.go]

    The package keeps four level sinks, a day key, three one-shot
    configuration cells and a [started] flag in package-level variables.
    Here that state is one record threaded through every call; the
    operating system (clock, directory creation, file opening, the
    time-zone database) is an explicit environment handed to each call,
    and everything the package does to the outside world is appended to
    an event trace.  Package fmt is modelled on strings and integers for
    [Sprintln] and for the directives [%%], [%v], [%s] and [%d] of
    [Sprintf]; the text of any other directive is part of the
    environment.

    [logger.go] holds two revisions of the package one after the other;
    the embedding follows the later one, which has the configuration
    freeze, the one-shot setters and the serialized rotation.

    The three mutexes ([rotateMu], [configMu], [l.mu]) delimit critical
    sections.  The embedding is sequential: every call runs to
    completion, so a critical section is the code between Lock and
    Unlock executed in one piece. *)

From Stdlib Require Import String Ascii List Bool Arith NArith ZArith Lia.
From Stdlib Require Import Permutation.
Import ListNotations.
Open Scope string_scope.

(* ================================================================= *)
(** ** Strings *)

Module Str.

Definition newline : ascii := Ascii.ascii_of_nat 10.
Definition slash : ascii := "/"%char.
Definition percent : ascii := "%"%char.

Definition nl : string := String newline "".

(** [strings.Join(parts, sep)]. *)
Fixpoint join (sep : string) (parts : list string) : string :=
  match parts with
  | [] => ""
  | [p] => p
  | p :: rest => p ++ sep ++ join sep rest
  end.

(** The last byte of a string, if any. *)
Fixpoint last (s : string) : option ascii :=
  match s with
  | "" => None
  | String c "" => Some c
  | String _ rest => last rest
  end.

Definition endsWithNewline (s : string) : bool :=
  match last s with
  | Some c => Ascii.eqb c newline
  | None => false
  end.

(** No byte of [s] is [c]. *)
Fixpoint free (c : ascii) (s : string) : bool :=
  match s with
  | "" => true
  | String d rest => negb (Ascii.eqb d c) && free c rest
  end.

Definition isDigit (c : ascii) : bool :=
  let n := Ascii.N_of_ascii c in ((48 <=? n) && (n <=? 57))%N.

Fixpoint allDigits (s : string) : bool :=
  match s with
  | "" => true
  | String c rest => isDigit c && allDigits rest
  end.

Fixpoint zeros (n : nat) : string :=
  match n with
  | 0 => ""
  | S k => String "0"%char (zeros k)
  end.

Definition digit (d : N) : ascii := Ascii.ascii_of_N (48 + d).

(** Decimal digits, least significant first, pushed in front of [acc];
    a number has no more decimal digits than bits, which bounds the
    recursion. *)
Fixpoint itoaFuel (fuel : nat) (n : N) (acc : string) : string :=
  match fuel with
  | 0 => acc
  | S f =>
      let acc' := String (digit (n mod 10)) acc in
      if (n <? 10)%N then acc' else itoaFuel f (n / 10) acc'
  end.

(** [strconv.Itoa] on a non-negative integer. *)
Definition itoa (n : N) : string := itoaFuel (S (N.size_nat n)) n "".

Definition itoaZ (z : Z) : string :=
  if (z <? 0)%Z then "-" ++ itoa (Z.to_N (- z)) else itoa (Z.to_N z).

(** [appendInt(b, x, width)] of package time, for [x >= 0]: decimal,
    left-padded with zeros to at least [width] digits. *)
Definition appendInt (x : N) (width : nat) : string :=
  let s := itoa x in zeros (width - String.length s) ++ s.

End Str.

(* ================================================================= *)
(** ** package time: civil readings and the two layouts used *)

(** [time.Location].  Only fixed-offset zones are built by the package
    itself; zones loaded from the database are whatever the environment
    returns. *)
Record Location := mkLocation { locName : string; locOffset : Z }.

Definition FixedZone (name : string) (offset : Z) : Location :=
  mkLocation name offset.

(** A [time.Time] already converted with [In(loc)]: the civil fields that
    [Format] prints. *)
Record GoTime := mkTime {
  Year : N; Month : N; Day : N;
  Hour : N; Minute : N; Second : N;
  Nanosecond : N
}.

(** [t.Format("2006-01-02")]. *)
Definition Format_date_dash (t : GoTime) : string :=
  Str.appendInt (Year t) 4 ++ "-" ++ Str.appendInt (Month t) 2 ++ "-"
    ++ Str.appendInt (Day t) 2.

(** The clock part [15:04:05.000000]: microseconds, truncated. *)
Definition Format_clock_micro (t : GoTime) : string :=
  Str.appendInt (Hour t) 2 ++ ":" ++ Str.appendInt (Minute t) 2 ++ ":"
    ++ Str.appendInt (Second t) 2 ++ "."
    ++ Str.appendInt (Nanosecond t / 1000) 6.

(** [t.Format("2006/01/02 15:04:05.000000")]. *)
Definition Format_slash_micro (t : GoTime) : string :=
  Str.appendInt (Year t) 4 ++ "/" ++ Str.appendInt (Month t) 2 ++ "/"
    ++ Str.appendInt (Day t) 2 ++ " " ++ Format_clock_micro t.

(** [t.Format("2006-01-02 15:04:05.000000")]: the layout the doc comment
    of [timePrefix] and the package test name. *)
Definition Format_dash_micro (t : GoTime) : string :=
  Format_date_dash t ++ " " ++ Format_clock_micro t.

(** A reading that [time.Now()] can return: four-digit year and fields in
    their calendar ranges. *)
Definition wfTime (t : GoTime) : bool :=
  ((Year t <? 10000) && (1 <=? Month t) && (Month t <=? 12)
   && (1 <=? Day t) && (Day t <=? 31) && (Hour t <? 24)
   && (Minute t <? 60) && (Second t <? 60)
   && (Nanosecond t <? 1000000000))%N.

(* ================================================================= *)
(** ** package fmt: operands, Sprintln, Sprintf *)

(** The operands handed to the print functions: strings and values of
    type [int]. *)
Inductive value :=
| VString (s : string)
| VInt (n : Z).

Module Fmt.

(** The [%v] rendering of an operand. *)
Definition show (v : value) : string :=
  match v with
  | VString s => s
  | VInt n => Str.itoaZ n
  end.

Definition typeName (v : value) : string :=
  match v with
  | VString _ => "string"
  | VInt _ => "int"
  end.

(** [fmt.Sprintln]: operands in default format, a space between every
    two of them, a newline at the end. *)
Definition Sprintln (vs : list value) : string :=
  Str.join " " (map show vs) ++ Str.nl.

Definition badVerb (verb : ascii) (v : value) : string :=
  "%!" ++ String verb ("(" ++ typeName v ++ "=" ++ show v ++ ")").

(** The verbs modelled: [v], [s] and [d], without flag, width,
    precision or argument index. *)
Definition simpleVerb (verb : ascii) : bool :=
  Ascii.eqb verb "v"%char || Ascii.eqb verb "s"%char || Ascii.eqb verb "d"%char.

(** One of these verbs applied to one operand: [%v] prints either kind,
    [%s] a string and [%d] an integer; [%d] on a string and [%s] on an
    integer print the bad-verb form. *)
Definition verbOn (verb : ascii) (v : value) : string :=
  match v with
  | VString s => if Ascii.eqb verb "d"%char then badVerb verb v else s
  | VInt n => if Ascii.eqb verb "s"%char then badVerb verb v else Str.itoaZ n
  end.

Definition extra (vs : list value) : string :=
  match vs with
  | [] => ""
  | _ => "%!(EXTRA "
           ++ Str.join ", " (map (fun v => typeName v ++ "=" ++ show v) vs)
           ++ ")"
  end.

(** What [fmt] prints from a directive to the end of the format: a
    function of the format from that directive's percent sign on, of all
    the operands and of the number of operands used so far.  The
    directives outside the fragment modelled here (a flag, a width, a
    precision, an argument index, any verb other than [v], [s], [d]) are
    not rendered by this model: their text is taken as given. *)
Definition Rest : Type := string -> list value -> nat -> string.

(** [doPrintf]: bytes up to a percent sign are copied; [%%] is a percent
    sign; [%v], [%s], [%d] print the next operand, or [%!verb(MISSING)]
    when none is left; a lone trailing percent prints [%!(NOVERB)];
    operands left over at the end are reported in an [EXTRA] group.  At
    the first directive outside the fragment the remaining text is
    [rest]'s. *)
Fixpoint doPrintf (rest : Rest) (a : list value) (argNum : nat) (format : string)
  : string :=
  match format with
  | "" => extra (skipn argNum a)
  | String c tail =>
      if Ascii.eqb c Str.percent then
        match tail with
        | "" => "%!(NOVERB)" ++ extra (skipn argNum a)
        | String verb tail' =>
            if Ascii.eqb verb Str.percent then
              String Str.percent (doPrintf rest a argNum tail')
            else if simpleVerb verb then
              match nth_error a argNum with
              | None =>
                  "%!" ++ String verb ("(MISSING)" ++ doPrintf rest a argNum tail')
              | Some v => verbOn verb v ++ doPrintf rest a (S argNum) tail'
              end
            else rest format a argNum
        end
      else String c (doPrintf rest a argNum tail)
  end.

(** [fmt.Sprintf]. *)
Definition Sprintf (rest : Rest) (format : string) (a : list value) : string :=
  doPrintf rest a 0 format.

(** The formats all of whose directives are in the fragment: every
    percent sign is the last byte or is followed by [%], [v], [s] or
    [d]. *)
Fixpoint simple (format : string) : bool :=
  match format with
  | "" => true
  | String c tail =>
      if Ascii.eqb c Str.percent then
        match tail with
        | "" => true
        | String verb tail' =>
            (Ascii.eqb verb Str.percent || simpleVerb verb) && simple tail'
        end
      else simple tail
  end.

End Fmt.

(* ================================================================= *)
(** ** package path/filepath (Unix): Clean and Join *)

Module Filepath.

(** The path cut at every separator; never empty. *)
Fixpoint split (p : string) : list string :=
  match p with
  | "" => [""]
  | String c rest =>
      if Ascii.eqb c Str.slash then "" :: split rest
      else
        match split rest with
        | h :: t => String c h :: t
        | [] => [String c ""]
        end
  end.

Definition rooted (p : string) : bool :=
  match p with
  | String c _ => Ascii.eqb c Str.slash
  | "" => false
  end.

(** The element-wise rules of [Clean]: empty and [.] elements vanish,
    [..] removes the element before it, a [..] at the start of a rooted
    path vanishes and at the start of a relative one stays.  [acc] is
    the output so far, last element first. *)
Fixpoint cleanElems (isRooted : bool) (acc : list string) (elems : list string)
  : list string :=
  match elems with
  | [] => rev acc
  | e :: rest =>
      if (e =? "") || (e =? ".") then cleanElems isRooted acc rest
      else if e =? ".." then
        match acc with
        | top :: below =>
            if top =? ".." then cleanElems isRooted (e :: acc) rest
            else cleanElems isRooted below rest
        | [] =>
            if isRooted then cleanElems isRooted [] rest
            else cleanElems isRooted [e] rest
        end
      else cleanElems isRooted (e :: acc) rest
  end.

Definition render (isRooted : bool) (elems : list string) : string :=
  let body := Str.join "/" elems in
  if isRooted then "/" ++ body
  else if body =? "" then "." else body.

(** [filepath.Clean]. *)
Definition Clean (p : string) : string :=
  if p =? "" then "."
  else render (rooted p) (cleanElems (rooted p) [] (split p)).

(** [filepath.Join(dir, name)]: leading empty elements are dropped, the
    rest is joined with the separator and cleaned; all empty gives the
    empty string. *)
Definition Join (dir name : string) : string :=
  if dir =? "" then
    if name =? "" then "" else Clean name
  else Clean (dir ++ "/" ++ name).

End Filepath.

(* ================================================================= *)
(** ** The package state *)

Inductive logLevel := levelDebug | levelInfo | levelWarning | levelError.

(** An [io.Writer] handed to [AppendWriter] is known by an identifier. *)
Definition WriterId := nat.

(** A destination of the fan-out writer: an extra writer or the file
    handle, named by the path it was opened under. *)
Inductive Writer :=
| ExtraWriter (id : WriterId)
| FileWriter (path : string).

(** An [error] returned by the operating system or the time-zone
    database, known by the call that returned it; its text is theirs. *)
Inductive GoError :=
| ErrOpenFile (name : string)
| ErrMkdirAll (path : string)
| ErrLoadLocation (name : string).

(** An operand handed to the standard logger: a string or an error. *)
Inductive Operand :=
| Text (s : string)
| Err (e : GoError).

(** What the package does to the outside world; [EvStdLog] is a call of
    [log.Println] or [log.Fatalln] with its operands in order. *)
Inductive Event :=
| EvMkdirAll (path : string)
| EvOpen (path : string)
| EvClose (path : string)
| EvWrite (w : Writer) (bytes : string)
| EvStdLog (operands : list Operand).

(** The world outside the package as one call sees it:
    [time.Now().In(loc)], whether [os.MkdirAll] and [os.OpenFile] succeed
    on a path, [time.LoadLocation], and the text of the [fmt] directives
    that [Fmt.doPrintf] does not render. *)
Record Env := mkEnv {
  Now : Location -> GoTime;
  MkdirAll : string -> bool;
  OpenFile : string -> bool;
  LoadLocation : string -> option Location;
  FmtRest : Fmt.Rest
}.

(** [type logger struct]: the [*log.Logger] is the list of destinations of
    its [io.MultiWriter] (flags 0, empty prefix); [nil] is [None]. *)
Record logger := mkLogger {
  l_logger : option (list Writer);
  l_file : option string;
  l_fileName : string;
  l_level : logLevel
}.

(** [type errorLogger struct { logger }]. *)
Record errorLogger := mkErrorLogger { el_logger : logger }.

(** The package-level variables.  [DebugL] .. [ErrorL] are the variables
    [Debug], [Info], [Warning] and [Error]; the three [sync.Once] cells
    are their done flags; [events] is the trace of effects so far. *)
Record State := mkState {
  DebugL : option logger;
  InfoL : option logger;
  WarningL : option logger;
  ErrorL : option errorLogger;
  dateStr : string;
  dateFast : string;
  started : bool;
  setTimezoneOnce : bool;
  appendWriterOnce : bool;
  setDirOnce : bool;
  dirPathValue : string;
  locationValue : Location;
  writersValue : list WriterId;
  events : list Event
}.

(** How a call ends: it returns, the process exits with a status, or a
    method was called through a nil sink. *)
Inductive Outcome :=
| Ret (s : State)
| Exit (code : nat) (s : State)
| NilDeref (s : State).

Definition stateOf (o : Outcome) : State :=
  match o with Ret s | Exit _ s | NilDeref s => s end.

Definition emit (evs : list Event) (s : State) : State :=
  mkState (DebugL s) (InfoL s) (WarningL s) (ErrorL s) (dateStr s) (dateFast s)
    (started s) (setTimezoneOnce s) (appendWriterOnce s) (setDirOnce s)
    (dirPathValue s) (locationValue s) (writersValue s) (events s ++ evs).

Definition store_started (b : bool) (s : State) : State :=
  mkState (DebugL s) (InfoL s) (WarningL s) (ErrorL s) (dateStr s) (dateFast s)
    b (setTimezoneOnce s) (appendWriterOnce s) (setDirOnce s)
    (dirPathValue s) (locationValue s) (writersValue s) (events s).

Definition done_setTimezoneOnce (s : State) : State :=
  mkState (DebugL s) (InfoL s) (WarningL s) (ErrorL s) (dateStr s) (dateFast s)
    (started s) true (appendWriterOnce s) (setDirOnce s)
    (dirPathValue s) (locationValue s) (writersValue s) (events s).

Definition done_appendWriterOnce (s : State) : State :=
  mkState (DebugL s) (InfoL s) (WarningL s) (ErrorL s) (dateStr s) (dateFast s)
    (started s) (setTimezoneOnce s) true (setDirOnce s)
    (dirPathValue s) (locationValue s) (writersValue s) (events s).

Definition done_setDirOnce (s : State) : State :=
  mkState (DebugL s) (InfoL s) (WarningL s) (ErrorL s) (dateStr s) (dateFast s)
    (started s) (setTimezoneOnce s) (appendWriterOnce s) true
    (dirPathValue s) (locationValue s) (writersValue s) (events s).

Definition store_dirPathValue (d : string) (s : State) : State :=
  mkState (DebugL s) (InfoL s) (WarningL s) (ErrorL s) (dateStr s) (dateFast s)
    (started s) (setTimezoneOnce s) (appendWriterOnce s) (setDirOnce s)
    d (locationValue s) (writersValue s) (events s).

Definition store_locationValue (loc : Location) (s : State) : State :=
  mkState (DebugL s) (InfoL s) (WarningL s) (ErrorL s) (dateStr s) (dateFast s)
    (started s) (setTimezoneOnce s) (appendWriterOnce s) (setDirOnce s)
    (dirPathValue s) loc (writersValue s) (events s).

Definition store_writersValue (ws : list WriterId) (s : State) : State :=
  mkState (DebugL s) (InfoL s) (WarningL s) (ErrorL s) (dateStr s) (dateFast s)
    (started s) (setTimezoneOnce s) (appendWriterOnce s) (setDirOnce s)
    (dirPathValue s) (locationValue s) ws (events s).

(** The sink a package variable points to, and the write back through
    that pointer. *)
Definition sink (v : logLevel) (s : State) : option logger :=
  match v with
  | levelDebug => DebugL s
  | levelInfo => InfoL s
  | levelWarning => WarningL s
  | levelError => option_map el_logger (ErrorL s)
  end.

Definition setSink (v : logLevel) (l : logger) (s : State) : State :=
  let d := match v with levelDebug => Some l | _ => DebugL s end in
  let i := match v with levelInfo => Some l | _ => InfoL s end in
  let w := match v with levelWarning => Some l | _ => WarningL s end in
  let e := match v with levelError => Some (mkErrorLogger l) | _ => ErrorL s end in
  mkState d i w e (dateStr s) (dateFast s)
    (started s) (setTimezoneOnce s) (appendWriterOnce s) (setDirOnce s)
    (dirPathValue s) (locationValue s) (writersValue s) (events s).

(* ================================================================= *)
(** ** The operations of logger.go *)

Definition defaultLocation : Location := FixedZone "Asia/Shanghai" (8 * 3600).

Definition newLogger (level : logLevel) (fileName : string) : logger :=
  mkLogger None None fileName level.

Definition newErrorLogger (level : logLevel) (fileName : string) : errorLogger :=
  mkErrorLogger (mkLogger None None fileName level).

Definition nowInLocation (env : Env) (s : State) : GoTime :=
  Now env (locationValue s).

(** [setFileName], a method of the sink: the new logger value and the events. *)
Definition setFileName (fileName : string) (l : logger) : logger * list Event :=
  if l_fileName l =? fileName then (l, [])
  else
    match l_file l with
    | Some f => (mkLogger None None fileName (l_level l), [EvClose f])
    | None => (mkLogger (l_logger l) None fileName (l_level l), [])
    end.

Definition rotateLocked (date : string) (s : State) : State :=
  let dirPath := dirPathValue s in
  let debugFile := Filepath.Join dirPath (date ++ ".debug.log") in
  let infoFile := Filepath.Join dirPath (date ++ ".info.log") in
  let warningFile := Filepath.Join dirPath (date ++ ".warning.log") in
  let errorFile := Filepath.Join dirPath (date ++ ".error.log") in
  let d := match DebugL s with
           | None => (newLogger levelDebug debugFile, [])
           | Some l => setFileName debugFile l
           end in
  let i := match InfoL s with
           | None => (newLogger levelInfo infoFile, [])
           | Some l => setFileName infoFile l
           end in
  let w := match WarningL s with
           | None => (newLogger levelWarning warningFile, [])
           | Some l => setFileName warningFile l
           end in
  let e := match ErrorL s with
           | None => (newErrorLogger levelError errorFile, [])
           | Some el =>
               let r := setFileName errorFile (el_logger el) in
               (mkErrorLogger (fst r), snd r)
           end in
  mkState (Some (fst d)) (Some (fst i)) (Some (fst w)) (Some (fst e)) date date
    (started s) (setTimezoneOnce s) (appendWriterOnce s) (setDirOnce s)
    (dirPathValue s) (locationValue s) (writersValue s)
    (events s ++ snd d ++ snd i ++ snd w ++ snd e).

Definition rotate (date : string) (s : State) : State := rotateLocked date s.

Definition rotateIfDateChanged (date : string) (s : State) : State :=
  if negb (dateStr s =? date) then rotateLocked date s else s.

Definition rotateIfNeeded (now : GoTime) (s : State) : State :=
  let date := Format_date_dash now in
  if dateFast s =? date then s else rotateIfDateChanged date s.

Definition createLogger (env : Env) (s : State) : State :=
  rotate (Format_date_dash (nowInLocation env s)) s.

(** The package variables after the four Stores of [init], and [init]. *)
Definition preInit : State :=
  mkState None None None None "" "" false false false false
    "" defaultLocation [] [].

Definition init (env : Env) : State :=
  rotate (Format_date_dash (nowInLocation env preInit)) preInit.

Definition freezeConfig (s : State) : State :=
  if started s then s else store_started true s.

Definition timePrefix (now : GoTime) : string := Format_slash_micro now.

Definition levelString (level : logLevel) : string :=
  match level with
  | levelDebug => "DEBUG"
  | levelInfo => "INFO"
  | levelWarning => "WARNING"
  | levelError => "ERROR"
  end.

Definition withFileWriter (s : State) (file : string) : list Writer :=
  map ExtraWriter (writersValue s) ++ [FileWriter file].

(** [Output] of the inner logger, with flags 0 and no prefix: the text, with a
    newline appended unless it already ends in one, goes to every
    destination in turn. *)
Definition Output (ws : list Writer) (text : string) : list Event :=
  let bytes := if Str.endsWithNewline text then text else text ++ Str.nl in
  map (fun w => EvWrite w bytes) ws.

Definition Logger_Println (ws : list Writer) (vs : list value) : list Event :=
  Output ws (Fmt.Sprintln vs).

Definition Logger_Printf (rest : Fmt.Rest) (ws : list Writer) (format : string)
    (vs : list value) : list Event :=
  Output ws (Fmt.Sprintf rest format vs).

Definition msgOpenFailed : string := "打开日志文件失败：".
Definition msgLoadTimezoneFailed : string := "加载时区失败：".
Definition msgMkdirFailed : string := "创建日志目录失败，降级为当前目录写日志：".

(** [ensureLoggerLocked]: the sink with its logger in place, the
    destinations of that logger and the events; or, when the file cannot
    be opened, the diagnostic of [log.Fatalln]. *)
Definition ensureLoggerLocked (env : Env) (s : State) (l : logger)
  : (logger * list Writer * list Event) + list Event :=
  match l_logger l with
  | Some ws => inl (l, ws, [])
  | None =>
      if OpenFile env (l_fileName l) then
        let w := withFileWriter s (l_fileName l) in
        inl (mkLogger (Some w) (Some (l_fileName l)) (l_fileName l) (l_level l),
             w, [EvOpen (l_fileName l)])
      else
        inr [EvStdLog [Text msgOpenFailed; Err (ErrOpenFile (l_fileName l))]]
  end.

(** The common body of [Println] and [Printf]; [print] is the call on the
    inner [*log.Logger], given the timestamp and the level label.  The
    receiver is the pointer held in the package variable [v] when the call
    starts; a nil receiver is dereferenced only at [l.level], after the
    freeze and the rotation check. *)
Definition write (v : logLevel) (env : Env)
    (print : list Writer -> string -> string -> list Event) (s : State)
  : Outcome :=
  let s1 := freezeConfig s in
  let now := nowInLocation env s1 in
  let s2 := rotateIfNeeded now s1 in
  let ts := timePrefix now in
  match sink v s, sink v s2 with
  | Some _, Some l =>
      let level := levelString (l_level l) in
      match ensureLoggerLocked env s2 l with
      | inr evs => Exit 1 (emit evs s2)
      | inl (l', ws, evs) =>
          Ret (emit (evs ++ print ws ts level) (setSink v l' s2))
      end
  | _, _ => NilDeref s2
  end.

Definition Println (v : logLevel) (args : list value) (env : Env) (s : State)
  : Outcome :=
  write v env
    (fun ws ts level => Logger_Println ws (VString ts :: VString level :: args)) s.

Definition Printf (v : logLevel) (format : string) (args : list value)
    (env : Env) (s : State) : Outcome :=
  write v env
    (fun ws ts level =>
       Logger_Printf (FmtRest env) ws (ts ++ " " ++ level ++ " " ++ format) args) s.

Definition Close (v : logLevel) (s : State) : Outcome :=
  match sink v s with
  | None => NilDeref s
  | Some l =>
      match l_file l with
      | None => Ret s
      | Some f =>
          Ret (emit [EvClose f]
                 (setSink v (mkLogger None None (l_fileName l) (l_level l)) s))
      end
  end.

(** The methods of [*errorLogger] go through the embedded sink; with a
    nil [Error] variable the field access fails before anything runs. *)
Definition Error_Println (args : list value) (env : Env) (s : State) : Outcome :=
  match ErrorL s with
  | None => NilDeref s
  | Some _ => Println levelError args env s
  end.

Definition Error_Printf (format : string) (args : list value) (env : Env)
    (s : State) : Outcome :=
  match ErrorL s with
  | None => NilDeref s
  | Some _ => Printf levelError format args env s
  end.

(** [os.Exit(1)] after a call that returned. *)
Definition thenExit1 (o : Outcome) : Outcome :=
  match o with
  | Ret s' => Exit 1 s'
  | Exit code s' => Exit code s'
  | NilDeref s' => NilDeref s'
  end.

Definition Fatalln (args : list value) (env : Env) (s : State) : Outcome :=
  thenExit1 (Error_Println args env s).

Definition Fatalf (format : string) (args : list value) (env : Env) (s : State)
  : Outcome :=
  thenExit1 (Error_Printf format args env s).

(** The zone the closure of [SetTimezone] stores: the built-in fixed
    offset for the default name, the database entry otherwise; [None] is
    the error of [time.LoadLocation]. *)
Definition resolveZone (env : Env) (name : string) : option Location :=
  if name =? "Asia/Shanghai" then Some (FixedZone "Asia/Shanghai" (8 * 3600))
  else LoadLocation env name.

Definition SetTimezone (name : string) (env : Env) (s : State) : Outcome :=
  if name =? "" then Ret s
  else if started s then Ret s
  else if started s then Ret s
  else if setTimezoneOnce s then Ret s
  else
    match resolveZone env name with
    | None =>
        Exit 1 (emit [EvStdLog [Text msgLoadTimezoneFailed; Text name;
                                Err (ErrLoadLocation name)]] s)
    | Some loc =>
        let s1 := store_locationValue loc s in
        let s2 := rotate (Format_date_dash (nowInLocation env s1)) s1 in
        Ret (done_setTimezoneOnce s2)
    end.

Definition AppendWriter (writer : list WriterId) (s : State) : Outcome :=
  if (List.length writer =? 0)%nat then Ret s
  else if started s then Ret s
  else if started s then Ret s
  else if appendWriterOnce s then Ret s
  else Ret (done_appendWriterOnce (store_writersValue writer s)).

Definition SetDir (path : string) (env : Env) (s : State) : Outcome :=
  if path =? "" then Ret s
  else if started s then Ret s
  else if started s then Ret s
  else if setDirOnce s then Ret s
  else
    let cleaned := Filepath.Clean path in
    if negb (MkdirAll env cleaned) then
      Ret (done_setDirOnce
             (emit [EvStdLog [Text msgMkdirFailed; Text cleaned;
                              Err (ErrMkdirAll cleaned)]] s))
    else
      let s1 := store_dirPathValue cleaned (emit [EvMkdirAll cleaned] s) in
      Ret (done_setDirOnce (createLogger env s1)).

(** ** Calls and runs *)

Inductive Op :=
| OpSetDir (path : string)
| OpSetTimezone (name : string)
| OpAppendWriter (writer : list WriterId)
| OpPrintln (v : logLevel) (args : list value)
| OpPrintf (v : logLevel) (format : string) (args : list value)
| OpFatalln (args : list value)
| OpFatalf (format : string) (args : list value)
| OpClose (v : logLevel).

(** A call is an operation together with the operating system as it is
    when the call is made. *)
Definition Call : Type := Env * Op.

Definition step (c : Call) (s : State) : Outcome :=
  let env := fst c in
  match snd c with
  | OpSetDir path => SetDir path env s
  | OpSetTimezone name => SetTimezone name env s
  | OpAppendWriter writer => AppendWriter writer s
  | OpPrintln levelError args => Error_Println args env s
  | OpPrintln v args => Println v args env s
  | OpPrintf levelError format args => Error_Printf format args env s
  | OpPrintf v format args => Printf v format args env s
  | OpFatalln args => Fatalln args env s
  | OpFatalf format args => Fatalf format args env s
  | OpClose v => Close v s
  end.

(** A sequence of calls; nothing runs after the process has ended. *)
Fixpoint run (cs : list Call) (s : State) : Outcome :=
  match cs with
  | [] => Ret s
  | c :: rest =>
      match step c s with
      | Ret s' => run rest s'
      | o => o
      end
  end.

Definition isWrite (op : Op) : bool :=
  match op with
  | OpPrintln _ _ | OpPrintf _ _ _ | OpFatalln _ | OpFatalf _ _ => true
  | _ => false
  end.

(** The three configuration functions, the function an operation calls
    and whether its argument is the empty one. *)
Inductive ConfigFn := FnSetDir | FnSetTimezone | FnAppendWriter.

Definition configFn (op : Op) : option ConfigFn :=
  match op with
  | OpSetDir _ => Some FnSetDir
  | OpSetTimezone _ => Some FnSetTimezone
  | OpAppendWriter _ => Some FnAppendWriter
  | _ => None
  end.

Definition emptyArg (op : Op) : bool :=
  match op with
  | OpSetDir path => path =? ""
  | OpSetTimezone name => name =? ""
  | OpAppendWriter writer => (List.length writer =? 0)%nat
  | _ => false
  end.

(** The done flag of the [sync.Once] of a configuration function. *)
Definition onceDone (f : ConfigFn) (s : State) : bool :=
  match f with
  | FnSetDir => setDirOnce s
  | FnSetTimezone => setTimezoneOnce s
  | FnAppendWriter => appendWriterOnce s
  end.

(** The cell a configuration function writes, as a tagged value. *)
Inductive CellVal :=
| CDir (dir : string)
| CLoc (loc : Location)
| CWriters (ws : list WriterId).

Definition cell (f : ConfigFn) (s : State) : CellVal :=
  match f with
  | FnSetDir => CDir (dirPathValue s)
  | FnSetTimezone => CLoc (locationValue s)
  | FnAppendWriter => CWriters (writersValue s)
  end.

(** The value a configuration call stores when it reaches its closure and
    the closure gets to the Store: the cleaned path if it can be created,
    the resolved zone, the writers. *)
Definition requested (env : Env) (op : Op) : option CellVal :=
  match op with
  | OpSetDir path =>
      if MkdirAll env (Filepath.Clean path) then Some (CDir (Filepath.Clean path))
      else None
  | OpSetTimezone name => option_map CLoc (resolveZone env name)
  | OpAppendWriter writer => Some (CWriters writer)
  | _ => None
  end.

(** The states the package can be in: [init], then calls that return. *)
Definition reachable (s : State) : Prop :=
  exists env cs, run cs (init env) = Ret s.

(** The three configuration cells. *)
Definition config (s : State) : string * Location * list WriterId :=
  (dirPathValue s, locationValue s, writersValue s).

(** The lowercase level name of the file suffixes in [rotateLocked]. *)
Definition levelFileName (level : logLevel) : string :=
  match level with
  | levelDebug => "debug"
  | levelInfo => "info"
  | levelWarning => "warning"
  | levelError => "error"
  end.

(** The file name [rotateLocked] gives level [v] on day [date], before
    the directory is joined in front. *)
Definition logName (date : string) (v : logLevel) : string :=
  date ++ "." ++ levelFileName v ++ ".log".

(** A sink's handle is either absent, logger and file both nil, or it was
    opened after the freeze under the sink's current file name and fans
    out to the extra writers and that file. *)
Definition handleOK (st : bool) (ws : list WriterId) (l : logger) : Prop :=
  (l_logger l = None /\ l_file l = None)
  \/ (st = true
      /\ l_logger l
         = Some (map ExtraWriter ws ++ [FileWriter (l_fileName l)])%list
      /\ l_file l = Some (l_fileName l)).

(** The sink of level [v] exists, carries that level, is named after the
    directory and the day key, and its handle is consistent. *)
Definition sinkOKf (dir date : string) (st : bool) (ws : list WriterId)
    (v : logLevel) (ol : option logger) : Prop :=
  exists l, ol = Some l /\ l_level l = v
            /\ l_fileName l = Filepath.Join dir (logName date v)
            /\ handleOK st ws l.

Definition sinkOK (s : State) (v : logLevel) : Prop :=
  sinkOKf (dirPathValue s) (dateStr s) (started s) (writersValue s) v (sink v s).

(** The invariant of the package state. *)
Record Inv (s : State) : Prop := mkInv {
  inv_sinks : forall v, sinkOK s v;
  inv_fast : dateFast s = dateStr s;
  inv_day : exists env, dateStr s = Format_date_dash (Now env (locationValue s));
  inv_dir : dirPathValue s = "" \/ exists p, dirPathValue s = Filepath.Clean p;
  inv_dir_once : setDirOnce s = false -> dirPathValue s = "";
  inv_tz_once : setTimezoneOnce s = false -> locationValue s = defaultLocation;
  inv_w_once : appendWriterOnce s = false -> writersValue s = []
}.

Definition isWriteEvent (e : Event) : bool :=
  match e with EvWrite _ _ => true | _ => false end.

(** The path the specification gives level [v]: directory, separator,
    day key, dot, level name, [.log]; the bare file name when the
    directory is unset. *)
Definition specPath (dir date : string) (v : logLevel) : string :=
  if dir =? "" then logName date v else dir ++ "/" ++ logName date v.

(** The path [filepath.Join] gives, by the stored directory. *)
Definition joinedPath (dir date : string) (v : logLevel) : string :=
  if dir =? "" then logName date v
  else if dir =? "." then logName date v
  else if dir =? "/" then "/" ++ logName date v
  else dir ++ "/" ++ logName date v.

(** Anchored patterns of digits and literal bytes, enough for the regular
    expression of the package test. *)
Inductive Pat :=
| PDigit
| PChar (c : ascii).

Fixpoint matches (p : list Pat) (s : string) : bool :=
  match p, s with
  | [], "" => true
  | PDigit :: p', String c s' => Str.isDigit c && matches p' s'
  | PChar d :: p', String c s' => Ascii.eqb c d && matches p' s'
  | _, _ => false
  end.

Fixpoint literal (s : string) : list Pat :=
  match s with
  | "" => []
  | String c s' => PChar c :: literal s'
  end.

Definition digits (n : nat) : list Pat := repeat PDigit n.

(** [^\d{4}-\d{2}-\d{2} \d{2}:\d{2}:\d{2}\.\d{6} INFO hello\n$]. *)
Definition testPattern : list Pat :=
  (digits 4 ++ literal "-" ++ digits 2 ++ literal "-" ++ digits 2
   ++ literal " " ++ digits 2 ++ literal ":" ++ digits 2 ++ literal ":"
   ++ digits 2 ++ literal "." ++ digits 6
   ++ literal (" INFO hello" ++ Str.nl))%list.

(** The destinations of a sink opened in state [s] on file [path]. *)
Definition fanout (s : State) (path : string) : list Writer :=
  (map ExtraWriter (writersValue s) ++ [FileWriter path])%list.

(** The events of handing [bytes] to each destination in turn. *)
Definition deliver (ws : list Writer) (bytes : string) : list Event :=
  map (fun w => EvWrite w bytes) ws.

Definition noWrite (evs : list Event) : bool :=
  forallb (fun e => negb (isWriteEvent e)) evs.

(** The configuration cells and the three latches are the same in both
    states. *)
Definition sameSetup (s s' : State) : Prop :=
  config s' = config s
  /\ setTimezoneOnce s' = setTimezoneOnce s
  /\ appendWriterOnce s' = appendWriterOnce s
  /\ setDirOnce s' = setDirOnce s.

(** A path element that [Clean] keeps as it is. *)
Definition plain (e : string) : Prop :=
  Str.free Str.slash e = true /\ e <> "" /\ e <> "." /\ e <> "..".

(** No separator in the element. *)
Definition sfree (e : string) : Prop := Str.free Str.slash e = true.

(** The output stack of [cleanElems], last element first: elements
    without separator, none empty or [.], and [..] only on top of
    further [..] in a relative path. *)
Fixpoint okStack (r : bool) (acc : list string) : Prop :=
  match acc with
  | [] => True
  | top :: below =>
      sfree top /\ top <> "" /\ top <> "."
      /\ (top = ".." ->
          r = false /\ (below = [] \/ exists b, below = ".." :: b))
      /\ okStack r below
  end.

(** The elements [Clean] keeps of a path. *)
Definition kept (p : string) : list string :=
  Filepath.cleanElems (Filepath.rooted p) [] (Filepath.split p).

(** What [rotateLocked] needs of a sink it finds: its level and a
    consistent handle. *)
Definition sinkPre (st : bool) (ws : list WriterId) (v : logLevel)
    (ol : option logger) : Prop :=
  match ol with
  | None => True
  | Some l => l_level l = v /\ handleOK st ws l
  end.

(** Reduce projections of updated states, and nothing else. *)
Ltac fields :=
  cbn [DebugL InfoL WarningL ErrorL dateStr dateFast started setTimezoneOnce
       appendWriterOnce setDirOnce dirPathValue locationValue writersValue
       events emit store_started done_setTimezoneOnce done_appendWriterOnce
       done_setDirOnce store_dirPathValue store_locationValue
       store_writersValue rotateLocked rotate createLogger nowInLocation
       config] in *.

(* ================================================================= *)
(** ** Handles, traces and lines *)

Definition levels : list logLevel :=
  [levelDebug; levelInfo; levelWarning; levelError].

(** The file handle a sink holds, if any. *)
Definition fileOfSink (ol : option logger) : option string :=
  match ol with
  | Some l => l_file l
  | None => None
  end.

Definition fileOf (v : logLevel) (s : State) : option string :=
  fileOfSink (sink v s).

Definition ofl (o : option string) : list string :=
  match o with
  | Some f => [f]
  | None => []
  end.

(** The handles held by the four sinks, Debug first. *)
Definition held (s : State) : list string :=
  flat_map (fun v => ofl (fileOf v s)) levels.

(** The same list from the four handles. *)
Definition held4 (d i w e : option string) : list string :=
  (ofl d ++ ofl i ++ ofl w ++ ofl e)%list.

Fixpoint removeOne (p : string) (l : list string) : list string :=
  match l with
  | [] => []
  | q :: rest => if q =? p then rest else q :: removeOne p rest
  end.

Definition isOpen (p : string) (opened : list string) : bool :=
  existsb (String.eqb p) opened.

(** A trace replayed against the handles that are open: opening adds a
    handle, closing needs one and removes it, writing to a file needs
    one.  [None] when the trace closes or writes a handle that is not
    open. *)
Fixpoint replay (opened : list string) (evs : list Event)
  : option (list string) :=
  match evs with
  | [] => Some opened
  | EvOpen p :: rest => replay (p :: opened) rest
  | EvClose p :: rest =>
      if isOpen p opened then replay (removeOne p opened) rest else None
  | EvWrite (FileWriter p) _ :: rest =>
      if isOpen p opened then replay opened rest else None
  | _ :: rest => replay opened rest
  end.

(** The trace [evs] is sound and leaves exactly the handles [h] open:
    it never closes or writes a handle that is not open, and what it has
    opened and not closed is [h], up to order. *)
Definition accounted (evs : list Event) (h : list string) : Prop :=
  exists opened, replay [] evs = Some opened /\ Permutation opened h.

(** What one sink can do to its handle: keep it, close it, open one. *)
Inductive handleStep : option string -> option string -> list Event -> Prop :=
| hs_keep o : handleStep o o []
| hs_close f : handleStep (Some f) None [EvClose f]
| hs_open p : handleStep None (Some p) [EvOpen p].

(** The line of [Println]: timestamp, space, label, then every argument
    behind one space, then the newline. *)
Definition printlnLine (ts level : string) (args : list value) : string :=
  ts ++ " " ++ level
  ++ fold_right (fun a rest => " " ++ Fmt.show a ++ rest) Str.nl args.

Definition isFatal (op : Op) : bool :=
  match op with
  | OpFatalln _ | OpFatalf _ _ => true
  | _ => false
  end.

(** The events of a trace that touch files or destinations. *)
Definition isIO (e : Event) : bool :=
  match e with
  | EvOpen _ | EvClose _ | EvWrite _ _ => true
  | _ => false
  end.

(* ================================================================= *)
(** ** A sample clock reading and two operating systems *)

Definition t0 : GoTime := mkTime 2024 1 2 3 4 5 6789.

(** The samples use directives of the modelled fragment only, so what
    stands for the others is never looked at. *)
Definition noRest : Fmt.Rest := fun _ _ _ => "".

Definition env0 : Env :=
  mkEnv (fun _ => t0) (fun _ => true) (fun _ => true) (fun _ => None) noRest.

(** An operating system whose clock reads 2024-01-01 19:04:05 in a zone
    without offset and 2024-01-02 03:04:05 elsewhere, and whose time-zone
    database knows [UTC] alone. *)
Definition envUTC : Env :=
  mkEnv (fun loc => if (locOffset loc =? 0)%Z then mkTime 2024 1 1 19 4 5 6789
                    else t0)
    (fun _ => true) (fun _ => true)
    (fun name => if name =? "UTC" then Some (mkLocation "UTC" 0) else None)
    noRest.

(** An operating system in which no directory can be created. *)
Definition envNoMkdir : Env :=
  mkEnv (fun _ => t0) (fun _ => false) (fun _ => true) (fun _ => None) noRest.

(* ================================================================= *)
(** * Properties *)

Example itoa_0 : Str.itoa 0 = "0". Proof. reflexivity. Qed.
Example itoa_2024 : Str.itoa 2024 = "2024". Proof. reflexivity. Qed.
Example appendInt_7 : Str.appendInt 7 2 = "07". Proof. reflexivity. Qed.
Example appendInt_big : Str.appendInt 123456 4 = "123456". Proof. reflexivity. Qed.
Example sprintf_x1 rest : Fmt.Sprintf rest "x=%d" [VInt 1] = "x=1".
Proof. reflexivity. Qed.
Example sprintf_pct rest : Fmt.Sprintf rest "100%% %s" [VString "ok"] = "100% ok".
Proof. reflexivity. Qed.
Example sprintf_two rest :
  Fmt.Sprintf rest "g=%d j=%v" [VInt 3; VInt (-7)] = "g=3 j=-7".
Proof. reflexivity. Qed.
Example sprintf_missing rest : Fmt.Sprintf rest "%d" [] = "%!d(MISSING)".
Proof. reflexivity. Qed.
Example sprintf_extra rest : Fmt.Sprintf rest "a" [VInt 2] = "a%!(EXTRA int=2)".
Proof. reflexivity. Qed.
Example sprintf_wrong_type rest :
  Fmt.Sprintf rest "%d %s" [VString "hi"; VInt 5] = "%!d(string=hi) %!s(int=5)".
Proof. reflexivity. Qed.
Example sprintf_noverb rest : Fmt.Sprintf rest "50%" [] = "50%!(NOVERB)".
Proof. reflexivity. Qed.
(** Outside the fragment the text is not the model's: a hexadecimal verb
    after a literal prefix hands the rest of the format over. *)
Example sprintf_outside rest :
  Fmt.Sprintf rest "n=%x!" [VInt 255] = "n=" ++ rest "%x!" [VInt 255] 0.
Proof. reflexivity. Qed.
Example clean_1 : Filepath.Clean "abc//def/./.." = "abc". Proof. reflexivity. Qed.
Example clean_2 : Filepath.Clean "abc/../../././../def" = "../../def". Proof. reflexivity. Qed.
Example clean_3 : Filepath.Clean "/../abc/" = "/abc". Proof. reflexivity. Qed.
Example clean_4 : Filepath.Clean "abc/def/../.." = ".". Proof. reflexivity. Qed.
Example join_1 : Filepath.Join "" "2024-01-02.info.log" = "2024-01-02.info.log".
Proof. reflexivity. Qed.
Example join_2 : Filepath.Join "/tmp/logs" "2024-01-02.info.log" = "/tmp/logs/2024-01-02.info.log".
Proof. reflexivity. Qed.

(* ================================================================= *)
(** ** Frame lemmas: what each operation leaves alone *)

Lemma sameSetup_trans s1 s2 s3 :
  sameSetup s1 s2 -> sameSetup s2 s3 -> sameSetup s1 s3.
Proof.
  unfold sameSetup. intros (a & b & c & d) (a' & b' & c' & d').
  repeat split; congruence.
Qed.

Lemma rotateLocked_setup date s :
  sameSetup s (rotateLocked date s) /\ started (rotateLocked date s) = started s.
Proof. repeat split. Qed.

Lemma rotateIfNeeded_setup now s :
  sameSetup s (rotateIfNeeded now s) /\ started (rotateIfNeeded now s) = started s.
Proof.
  unfold rotateIfNeeded, rotateIfDateChanged.
  destruct (dateFast s =? Format_date_dash now); [repeat split|].
  destruct (negb (dateStr s =? Format_date_dash now)); repeat split.
Qed.

Lemma freezeConfig_setup s :
  sameSetup s (freezeConfig s) /\ started (freezeConfig s) = true.
Proof.
  unfold freezeConfig. destruct (started s) eqn:E; repeat split; assumption.
Qed.

Lemma write_setup v env print s :
  sameSetup s (stateOf (write v env print s))
  /\ started (stateOf (write v env print s)) = true.
Proof.
  unfold write.
  destruct (freezeConfig_setup s) as [F1 F2].
  destruct (rotateIfNeeded_setup (nowInLocation env (freezeConfig s)) (freezeConfig s))
    as [R1 R2].
  set (s2 := rotateIfNeeded _ _) in *.
  assert (S2 : sameSetup s s2) by (eapply sameSetup_trans; eassumption).
  assert (T2 : started s2 = true) by congruence.
  destruct (sink v s) as [l0|]; [|split; assumption].
  destruct (sink v s2) as [l|]; [|split; assumption].
  destruct (ensureLoggerLocked env s2 l) as [[[l' ws] evs]|evs]; simpl.
  - split; [|destruct v; exact T2].
    destruct S2 as (a & b & c & d). unfold sameSetup, config in *.
    destruct v; simpl; repeat split; assumption.
  - split; assumption.
Qed.

Lemma Close_setup v s :
  sameSetup s (stateOf (Close v s))
  /\ started (stateOf (Close v s)) = started s.
Proof.
  unfold Close. destruct (sink v s) as [l|]; [|repeat split].
  destruct (l_file l); [|repeat split].
  destruct v; repeat split.
Qed.

Lemma stateOf_Fatal (o : Outcome) : stateOf (thenExit1 o) = stateOf o.
Proof. destruct o; reflexivity. Qed.

(** A write, whatever its outcome, leaves the cells and latches alone; it
    sets [started] unless it was made through a nil [Error] variable. *)
Lemma step_write_setup env op s :
  isWrite op = true ->
  sameSetup s (stateOf (step (env, op) s))
  /\ (started s = true -> started (stateOf (step (env, op) s)) = true)
  /\ (forall s', step (env, op) s = Ret s' -> started s' = true).
Proof.
  intros W.
  assert (G : forall o, (o = NilDeref s \/ exists v print, o = write v env print s) ->
     sameSetup s (stateOf o) /\ (started s = true -> started (stateOf o) = true)
     /\ (forall s', o = Ret s' -> started s' = true)).
  { intros o [->|(v & print & ->)].
    - repeat split; try discriminate. intros H; exact H.
    - destruct (write_setup v env print s) as [A B]. repeat split; try apply A.
      + intros _; exact B.
      + intros s' E. rewrite E in B. exact B. }
  destruct op; try discriminate W; unfold step; cbn [fst snd].
  - destruct v; try (apply G; right; eexists _, _; reflexivity).
    unfold Error_Println. destruct (ErrorL s); apply G; [right|left; reflexivity].
    eexists _, _; reflexivity.
  - destruct v; try (apply G; right; eexists _, _; reflexivity).
    unfold Error_Printf. destruct (ErrorL s); apply G; [right|left; reflexivity].
    eexists _, _; reflexivity.
  - unfold Fatalln. rewrite stateOf_Fatal.
    assert (H : sameSetup s (stateOf (Error_Println args env s))
       /\ (started s = true -> started (stateOf (Error_Println args env s)) = true)).
    { unfold Error_Println. destruct (ErrorL s).
      - destruct (G (Println levelError args env s)) as (A & B & _);
          [right; eexists _, _; reflexivity|]. split; assumption.
      - repeat split. intros H; exact H. }
    destruct H as [A B]. repeat split; try apply A; try exact B.
    intros s' E. destruct (Error_Println args env s); discriminate E.
  - unfold Fatalf. rewrite stateOf_Fatal.
    assert (H : sameSetup s (stateOf (Error_Printf format args env s))
       /\ (started s = true -> started (stateOf (Error_Printf format args env s)) = true)).
    { unfold Error_Printf. destruct (ErrorL s).
      - destruct (G (Printf levelError format args env s)) as (A & B & _);
          [right; eexists _, _; reflexivity|]. split; assumption.
      - repeat split. intros H; exact H. }
    destruct H as [A B]. repeat split; try apply A; try exact B.
    intros s' E. destruct (Error_Printf format args env s); discriminate E.
Qed.

(* ================================================================= *)
(** ** The one-shot cells and the freeze *)

(** A configuration call with an empty argument, after the freeze, or
    after its latch has fired returns with the state untouched. *)
Lemma config_noop f op env s :
  configFn op = Some f ->
  emptyArg op = true \/ started s = true \/ onceDone f s = true ->
  step (env, op) s = Ret s.
Proof.
  intros F H. destruct op; try discriminate F; injection F as <-;
    unfold step; cbn [fst snd] in *; simpl in H.
  - unfold SetDir. destruct (path =? ""); [reflexivity|].
    destruct (started s); [reflexivity|].
    destruct (setDirOnce s); [reflexivity|].
    destruct H as [H|[H|H]]; discriminate H.
  - unfold SetTimezone. destruct (name =? ""); [reflexivity|].
    destruct (started s); [reflexivity|].
    destruct (setTimezoneOnce s); [reflexivity|].
    destruct H as [H|[H|H]]; discriminate H.
  - unfold AppendWriter. destruct (List.length writer =? 0)%nat; [reflexivity|].
    destruct (started s); [reflexivity|].
    destruct (appendWriterOnce s); [reflexivity|].
    destruct H as [H|[H|H]]; discriminate H.
Qed.

(** What a configuration call does when it reaches its closure. *)
Lemma config_fires f op env s :
  configFn op = Some f -> emptyArg op = false ->
  started s = false -> onceDone f s = false ->
  match requested env op with
  | Some c =>
      exists s', step (env, op) s = Ret s' /\ cell f s' = c
                 /\ onceDone f s' = true /\ started s' = false
  | None =>
      match f with
      | FnSetDir =>
          exists s', step (env, op) s = Ret s' /\ cell f s' = cell f s
                     /\ onceDone f s' = true /\ started s' = false
      | _ => exists s', step (env, op) s = Exit 1 s'
      end
  end.
Proof.
  intros F E S O. destruct op; try discriminate F; injection F as <-;
    unfold step; cbn [fst snd requested emptyArg onceDone] in *.
  - unfold SetDir. rewrite E, S, O.
    destruct (MkdirAll env (Filepath.Clean path)); cbn [negb];
      eexists; repeat split; exact S.
  - unfold SetTimezone. rewrite E, S, O.
    destruct (resolveZone env name); cbn [option_map].
    + eexists; repeat split. exact S.
    + eexists; reflexivity.
  - unfold AppendWriter. rewrite E, S, O.
    eexists; repeat split. exact S.
Qed.

(** Along any call, [started] and every latch stay set once set, and a
    cell does not change once its latch is set or the freeze is in. *)
Lemma step_monotone c s :
  (started s = true -> started (stateOf (step c s)) = true)
  /\ (forall f, onceDone f s = true -> onceDone f (stateOf (step c s)) = true)
  /\ (forall f, started s = true \/ onceDone f s = true ->
        cell f (stateOf (step c s)) = cell f s).
Proof.
  destruct c as [env op].
  destruct (isWrite op) eqn:W.
  { destruct (step_write_setup env op s W) as ((C & T & A & D) & St & _).
    unfold config in C. injection C as C1 C2 C3.
    split; [exact St|]. split; intros f; destruct f; simpl; intros; congruence. }
  destruct op; try discriminate W.
  - destruct (path =? "") eqn:E.
    { rewrite (config_noop FnSetDir (OpSetDir path) env s eq_refl) by (left; exact E).
      repeat split; intros; try discriminate; auto. }
    destruct (started s) eqn:S.
    { rewrite (config_noop FnSetDir (OpSetDir path) env s eq_refl) by (right; left; exact S).
      repeat split; intros; try discriminate; auto. }
    destruct (setDirOnce s) eqn:O.
    { rewrite (config_noop FnSetDir (OpSetDir path) env s eq_refl) by (right; right; exact O).
      repeat split; intros; try discriminate; auto. }
    unfold step; cbn [fst snd]. unfold SetDir. rewrite E, S, O.
    split; [discriminate|].
    destruct (MkdirAll env (Filepath.Clean path)); cbn [negb stateOf];
      (split; intros f; destruct f; simpl; intros H;
       try reflexivity; try exact H; destruct H; congruence).
  - destruct (name =? "") eqn:E.
    { rewrite (config_noop FnSetTimezone (OpSetTimezone name) env s eq_refl) by (left; exact E).
      repeat split; intros; try discriminate; auto. }
    destruct (started s) eqn:S.
    { rewrite (config_noop FnSetTimezone (OpSetTimezone name) env s eq_refl)
        by (right; left; exact S).
      repeat split; intros; try discriminate; auto. }
    destruct (setTimezoneOnce s) eqn:O.
    { rewrite (config_noop FnSetTimezone (OpSetTimezone name) env s eq_refl)
        by (right; right; exact O).
      repeat split; intros; try discriminate; auto. }
    unfold step; cbn [fst snd]. unfold SetTimezone. rewrite E, S, O.
    split; [discriminate|].
    destruct (resolveZone env name); cbn [stateOf];
      (split; intros f; destruct f; simpl; intros H;
       try reflexivity; try exact H; destruct H; congruence).
  - destruct (List.length writer =? 0)%nat eqn:E.
    { rewrite (config_noop FnAppendWriter (OpAppendWriter writer) env s eq_refl)
        by (left; exact E).
      repeat split; intros; try discriminate; auto. }
    destruct (started s) eqn:S.
    { rewrite (config_noop FnAppendWriter (OpAppendWriter writer) env s eq_refl)
        by (right; left; exact S).
      repeat split; intros; try discriminate; auto. }
    destruct (appendWriterOnce s) eqn:O.
    { rewrite (config_noop FnAppendWriter (OpAppendWriter writer) env s eq_refl)
        by (right; right; exact O).
      repeat split; intros; try discriminate; auto. }
    unfold step; cbn [fst snd]. unfold AppendWriter. rewrite E, S, O.
    split; [discriminate|].
    cbn [stateOf];
      (split; intros f; destruct f; simpl; intros H;
       try reflexivity; try exact H; destruct H; congruence).
  - unfold step; cbn [fst snd].
    destruct (Close_setup v s) as ((C & T & A & D) & St).
    unfold config in C. injection C as C1 C2 C3.
    split; [congruence|]. split; intros f; destruct f; simpl; intros; congruence.
Qed.

Lemma run_monotone cs : forall s,
  (started s = true -> started (stateOf (run cs s)) = true)
  /\ (forall f, onceDone f s = true -> onceDone f (stateOf (run cs s)) = true)
  /\ (forall f, started s = true \/ onceDone f s = true ->
        cell f (stateOf (run cs s)) = cell f s).
Proof.
  induction cs as [|c cs IH]; intros s; [repeat split; auto|].
  destruct (step_monotone c s) as (A & B & C).
  cbn [run]. destruct (step c s) as [s'| |] eqn:E; cbn [stateOf] in *;
    [|repeat split; auto..].
  destruct (IH s') as (A' & B' & C').
  split; [auto|]. split; [auto|].
  intros f H. rewrite C' by (destruct H; [left|right]; auto). auto.
Qed.

Lemma cells_config s s' :
  (forall f, cell f s' = cell f s) -> config s' = config s.
Proof.
  intros H. unfold config.
  pose proof (H FnSetDir) as H1. pose proof (H FnSetTimezone) as H2.
  pose proof (H FnAppendWriter) as H3. simpl in *. congruence.
Qed.

(** C3: for each configuration function, a first call made before any
    write with a non-empty argument is the only one that counts.  Once it
    has returned, every later call to the same function, whatever calls
    (writes included) come in between, returns with the state untouched
    and the cell keeps its value; when that first call gets to its Store,
    the cell holds the value it asked for.  In particular [SetDir A]
    followed by [SetDir B] before any write ends in the state [SetDir A]
    alone ends in, whatever [B] is, and there the directory is the
    cleaned [A], given that this is the first effective call and [A] can
    be created. *)
Theorem first_call_wins :
  (forall f opA envA s sA,
      configFn opA = Some f -> emptyArg opA = false -> started s = false ->
      step (envA, opA) s = Ret sA ->
      forall cs envB opB,
        configFn opB = Some f ->
        cell f (stateOf (run cs sA)) = cell f sA
        /\ step (envB, opB) (stateOf (run cs sA)) = Ret (stateOf (run cs sA)))
  /\ (forall f opA envA s c,
      configFn opA = Some f -> emptyArg opA = false -> started s = false ->
      onceDone f s = false -> requested envA opA = Some c ->
      exists sA, step (envA, opA) s = Ret sA /\ cell f sA = c)
  /\ (forall A B envA envB s,
      A <> "" -> started s = false ->
      exists sA,
        SetDir A envA s = Ret sA
        /\ run [(envA, OpSetDir A); (envB, OpSetDir B)] s = Ret sA
        /\ (setDirOnce s = false -> MkdirAll envA (Filepath.Clean A) = true ->
            dirPathValue sA = Filepath.Clean A)).
Proof.
  assert (P2 : forall f opA envA s c,
      configFn opA = Some f -> emptyArg opA = false -> started s = false ->
      onceDone f s = false -> requested envA opA = Some c ->
      exists sA, step (envA, opA) s = Ret sA /\ cell f sA = c
                 /\ onceDone f sA = true).
  { intros f opA envA s c F E S O R.
    pose proof (config_fires f opA envA s F E S O) as H. rewrite R in H.
    destruct H as (sA & H1 & H2 & H3 & _). exists sA. auto. }
  assert (P1 : forall f opA envA s sA,
      configFn opA = Some f -> emptyArg opA = false -> started s = false ->
      step (envA, opA) s = Ret sA -> onceDone f sA = true).
  { intros f opA envA s sA F E S R.
    destruct (onceDone f s) eqn:O.
    - destruct (step_monotone (envA, opA) s) as (_ & M & _).
      specialize (M f O). rewrite R in M. exact M.
    - pose proof (config_fires f opA envA s F E S O) as H.
      destruct (requested envA opA).
      + destruct H as (s' & H1 & _ & H3 & _). congruence.
      + destruct f; destruct H as (s' & H); try congruence.
        destruct H as (H1 & _ & H3 & _). congruence. }
  split; [|split].
  - intros f opA envA s sA F E S R cs envB opB FB.
    pose proof (P1 f opA envA s sA F E S R) as D.
    destruct (run_monotone cs sA) as (_ & M & C).
    split; [apply C; right; exact D|].
    apply (config_noop f); [exact FB|]. right; right. apply M, D.
  - intros f opA envA s c F E S O R.
    destruct (P2 f opA envA s c F E S O R) as (sA & H1 & H2 & _). eauto.
  - intros A B envA envB s NE S.
    assert (E : emptyArg (OpSetDir A) = false).
    { simpl. destruct (String.eqb_spec A ""); congruence. }
    assert (R : exists sA, SetDir A envA s = Ret sA).
    { unfold SetDir. destruct (A =? ""); [eauto|].
      destruct (started s); [eauto|]. destruct (setDirOnce s); [eauto|].
      destruct (negb (MkdirAll envA (Filepath.Clean A))); eauto. }
    destruct R as (sA & R). exists sA. split; [exact R|].
    pose proof (P1 FnSetDir (OpSetDir A) envA s sA eq_refl E S R) as D.
    split.
    + cbn [run]. change (step (envA, OpSetDir A) s) with (SetDir A envA s).
      rewrite R.
      rewrite (config_noop FnSetDir (OpSetDir B) envB sA eq_refl)
        by (right; right; exact D).
      reflexivity.
    + intros O MK.
      destruct (P2 FnSetDir (OpSetDir A) envA s (CDir (Filepath.Clean A))
                  eq_refl E S O) as (sA' & H1 & H2 & _).
      { simpl. rewrite MK. reflexivity. }
      change (step (envA, OpSetDir A) s) with (SetDir A envA s) in H1.
      simpl in H2. congruence.
Qed.

(** C4: a write that returns leaves [started] set; from then on, along
    any calls, [started] stays set, the directory, the time zone and the
    extra writers keep their values, and every call of a configuration
    function returns with the state untouched. *)
Theorem frozen_after_first_write :
  forall env op s s1,
    isWrite op = true -> step (env, op) s = Ret s1 ->
    started s1 = true
    /\ forall cs,
         started (stateOf (run cs s1)) = true
         /\ config (stateOf (run cs s1)) = config s1
         /\ forall env' op' f,
              configFn op' = Some f ->
              step (env', op') (stateOf (run cs s1)) = Ret (stateOf (run cs s1)).
Proof.
  intros env op s s1 W R.
  destruct (step_write_setup env op s W) as (_ & _ & St).
  pose proof (St s1 R) as S1. split; [exact S1|].
  intros cs. destruct (run_monotone cs s1) as (A & _ & C).
  split; [auto|]. split.
  - apply cells_config. intros f. apply C. left; exact S1.
  - intros env' op' f F. apply (config_noop f); [exact F|]. right; left; auto.
Qed.

(** C5: the rotation check does nothing when the day key of its argument
    is the current one: the state is the same, so every sink keeps its
    file name, its handle and its logger, and nothing is closed or
    opened.  A second check with a time of the same day as the first is
    such a call, from any state. *)
Theorem rotateIfNeeded_same_day_noop :
  (forall s now,
      Format_date_dash now = dateStr s ->
      rotateIfNeeded now s = s
      /\ (forall v, sink v (rotateIfNeeded now s) = sink v s)
      /\ events (rotateIfNeeded now s) = events s)
  /\ (forall s now now',
      Format_date_dash now' = Format_date_dash now ->
      rotateIfNeeded now' (rotateIfNeeded now s) = rotateIfNeeded now s).
Proof.
  split.
  - intros s now H.
    assert (E : rotateIfNeeded now s = s).
    { unfold rotateIfNeeded, rotateIfDateChanged.
      destruct (dateFast s =? Format_date_dash now); [reflexivity|].
      rewrite H, String.eqb_refl. reflexivity. }
    rewrite E. repeat split.
  - intros s now now' H.
    unfold rotateIfNeeded, rotateIfDateChanged. rewrite H.
    destruct (dateFast s =? Format_date_dash now) eqn:F.
    + rewrite F. reflexivity.
    + destruct (dateStr s =? Format_date_dash now) eqn:D; cbn [negb].
      * rewrite F, D. reflexivity.
      * cbn [rotateLocked dateFast]. rewrite String.eqb_refl. reflexivity.
Qed.

(** C9: a configuration call with an empty argument returns with the
    state untouched, its latch included; a later call of the same
    function, made before any write with a non-empty argument, still
    stores its value and fires the latch. *)
Theorem empty_argument_keeps_latch :
  forall f op env s,
    configFn op = Some f -> emptyArg op = true ->
    step (env, op) s = Ret s
    /\ forall opA envA c,
         configFn opA = Some f -> emptyArg opA = false ->
         started s = false -> onceDone f s = false ->
         requested envA opA = Some c ->
         exists s', run [(env, op); (envA, opA)] s = Ret s'
                    /\ cell f s' = c /\ onceDone f s' = true.
Proof.
  intros f op env s F E.
  assert (N : step (env, op) s = Ret s) by (apply (config_noop f); auto).
  split; [exact N|].
  intros opA envA c FA EA S O R.
  pose proof (config_fires f opA envA s FA EA S O) as H. rewrite R in H.
  destruct H as (s' & H1 & H2 & H3 & _).
  exists s'. cbn [run]. rewrite N, H1. auto.
Qed.

(* ================================================================= *)
(** ** Strings and paths *)

Lemma append_assoc (a b c : string) : (a ++ b) ++ c = a ++ b ++ c.
Proof. induction a as [|x a IH]; simpl; congruence. Qed.

Lemma append_nil_r (a : string) : a ++ "" = a.
Proof. induction a as [|x a IH]; simpl; congruence. Qed.

Lemma length_append (a b : string) :
  String.length (a ++ b) = String.length a + String.length b.
Proof. induction a as [|x a IH]; simpl; congruence. Qed.

Lemma free_append c (a b : string) :
  Str.free c (a ++ b) = Str.free c a && Str.free c b.
Proof.
  induction a as [|x a IH]; simpl; [reflexivity|].
  rewrite IH, andb_assoc. reflexivity.
Qed.

Section PathLemmas.
Import Filepath.

Lemma split_nonempty p : split p <> [].
Proof.
  destruct p as [|c p]; simpl; [discriminate|].
  destruct (Ascii.eqb c Str.slash); [discriminate|].
  destruct (split p); discriminate.
Qed.

Lemma split_free e : sfree e -> split e = [e].
Proof.
  unfold sfree. induction e as [|c e IH]; simpl; [reflexivity|].
  destruct (Ascii.eqb c Str.slash); simpl; [discriminate|].
  intros H. rewrite (IH H). reflexivity.
Qed.

Lemma split_append a b :
  split (a ++ String Str.slash b) = (split a ++ split b)%list.
Proof.
  induction a as [|c a IH]; simpl; [reflexivity|].
  destruct (Ascii.eqb c Str.slash); rewrite IH; [reflexivity|].
  pose proof (split_nonempty a) as N.
  destruct (split a); [congruence|reflexivity].
Qed.

Lemma split_all_free p : Forall sfree (split p).
Proof.
  unfold sfree. induction p as [|c p IH]; simpl.
  - constructor; [reflexivity|constructor].
  - destruct (Ascii.eqb c Str.slash) eqn:E.
    + constructor; [reflexivity|exact IH].
    + destruct (split p) as [|h t].
      * constructor; [simpl; rewrite E; reflexivity|constructor].
      * inversion IH; subst. constructor; [simpl; rewrite E; assumption|assumption].
Qed.

Lemma join_snoc X e :
  X <> [] -> Str.join "/" (X ++ [e])%list = Str.join "/" X ++ "/" ++ e.
Proof.
  induction X as [|x X IH]; [congruence|]. intros _.
  destruct X as [|y X]; [reflexivity|].
  change (Str.join "/" ((x :: y :: X) ++ [e])%list)
    with (x ++ "/" ++ Str.join "/" ((y :: X) ++ [e])%list).
  rewrite IH by discriminate.
  change (Str.join "/" (x :: y :: X)) with (x ++ "/" ++ Str.join "/" (y :: X)).
  rewrite !append_assoc. reflexivity.
Qed.

Lemma split_join X :
  X <> [] -> Forall sfree X -> split (Str.join "/" X) = X.
Proof.
  induction X as [|x X IH]; [congruence|]. intros _ F.
  inversion F as [|? ? Fx FX]; subst.
  destruct X as [|y X]; [apply split_free; assumption|].
  change (Str.join "/" (x :: y :: X))
    with (x ++ String Str.slash (Str.join "/" (y :: X))).
  rewrite split_append, IH by (discriminate || assumption).
  rewrite split_free by assumption. reflexivity.
Qed.

Lemma join_empty X :
  Forall (fun e => e <> "") X -> Str.join "/" X = "" -> X = [].
Proof.
  intros F H. destruct X as [|x X]; [reflexivity|].
  inversion F; subst. destruct X as [|y X]; [simpl in H; congruence|].
  change (x ++ "/" ++ Str.join "/" (y :: X) = "") in H.
  destruct x; [congruence|discriminate H].
Qed.

Lemma rooted_free e : sfree e -> rooted e = false.
Proof.
  unfold sfree. destruct e as [|c e]; simpl; [reflexivity|].
  destruct (Ascii.eqb c Str.slash); [discriminate|reflexivity].
Qed.

Lemma rooted_append a b : a <> "" -> rooted (a ++ b) = rooted a.
Proof. destruct a; [congruence|reflexivity]. Qed.

Lemma cleanElems_app r xs : forall acc ys,
  cleanElems r acc (xs ++ ys)%list
  = cleanElems r (rev (cleanElems r acc xs)) ys.
Proof.
  induction xs as [|x xs IH]; intros acc ys; simpl.
  - rewrite rev_involutive. reflexivity.
  - destruct ((x =? "") || (x =? ".")); [apply IH|].
    destruct (x =? ".."); [|apply IH].
    destruct acc as [|top below]; [destruct r; apply IH|].
    destruct (top =? ".."); apply IH.
Qed.

Lemma cleanElems_plain r acc e :
  plain e -> cleanElems r acc [e] = (rev acc ++ [e])%list.
Proof.
  intros (_ & A & B & C). simpl.
  apply String.eqb_neq in A, B, C. rewrite A, B, C. reflexivity.
Qed.

Lemma cleanElems_ok r ys : forall acc,
  okStack r acc -> Forall sfree ys -> okStack r (rev (cleanElems r acc ys)).
Proof.
  induction ys as [|y ys IH]; intros acc OK F; simpl.
  - rewrite rev_involutive. exact OK.
  - inversion F as [|? ? Fy Fys]; subst.
    destruct (y =? "") eqn:E1; [apply IH; assumption|].
    destruct (y =? ".") eqn:E2; [apply IH; assumption|]. cbn [orb].
    apply String.eqb_neq in E1, E2.
    destruct (String.eqb_spec y "..") as [->|N].
    + destruct acc as [|top below].
      * destruct r; apply IH; simpl; auto.
        repeat split; auto; try discriminate.
      * destruct (String.eqb_spec top "..") as [->|NT].
        -- apply IH; [|assumption]. simpl in OK |- *.
           destruct OK as (A & B & C & D & G).
           destruct (D eq_refl) as [R _].
           split; [assumption|]. split; [assumption|]. split; [assumption|].
           split; [intros _; split; [exact R|right; eauto]|].
           split; [assumption|]. split; [assumption|]. split; [assumption|].
           split; [exact D|exact G].
        -- apply IH; [|assumption]. simpl in OK. tauto.
    + apply IH; [|assumption]. simpl.
      split; [assumption|]. split; [assumption|]. split; [assumption|].
      split; [congruence|assumption].
Qed.

Lemma cleanElems_fixed r acc :
  okStack r acc -> cleanElems r [] (rev acc) = rev acc.
Proof.
  induction acc as [|top below IH]; [reflexivity|].
  intros (A & B & C & D & G). cbn [rev].
  rewrite cleanElems_app, (IH G), rev_involutive. simpl.
  apply String.eqb_neq in B, C. rewrite B, C. cbn [orb].
  destruct (String.eqb_spec top "..") as [->|N]; [|reflexivity].
  destruct (D eq_refl) as [-> [->|(b & ->)]]; reflexivity.
Qed.

Lemma okStack_elems r acc :
  okStack r acc -> Forall sfree acc /\ Forall (fun e => e <> "") acc.
Proof.
  induction acc as [|top below IH]; [split; constructor|].
  intros (A & B & C & D & G). destruct (IH G). split; constructor; assumption.
Qed.

Lemma kept_ok p : okStack (rooted p) (rev (kept p)).
Proof. apply cleanElems_ok; [exact I|apply split_all_free]. Qed.

(** Below a cleaned directory other than [.] and the root, a plain file
    name joins by one separator. *)
Lemma Clean_under r X name :
  okStack r (rev X) -> plain name ->
  render r X <> "." -> render r X <> "/" ->
  Clean (render r X ++ "/" ++ name) = render r X ++ "/" ++ name.
Proof.
  intros OK P ND NR.
  pose proof (cleanElems_fixed r (rev X) OK) as FX.
  rewrite rev_involutive in FX.
  destruct (okStack_elems r (rev X) OK) as [SF NE].
  apply Forall_rev in SF, NE. rewrite rev_involutive in SF, NE.
  assert (NX : X <> []).
  { intros ->. destruct r; [apply NR|apply ND]; reflexivity. }
  assert (NB : Str.join "/" X <> "").
  { intros H. apply NX. apply join_empty; assumption. }
  assert (SN : split name = [name]) by (apply split_free, P).
  unfold Clean.
  destruct r; unfold render in *.
  - change (("/" ++ Str.join "/" X) ++ "/" ++ name)
      with (String Str.slash (Str.join "/" X ++ String Str.slash name)).
    cbn [String.eqb rooted]. rewrite Ascii.eqb_refl.
    cbn [split]. rewrite Ascii.eqb_refl.
    rewrite split_append, split_join, SN by assumption.
    cbn [cleanElems String.eqb orb].
    rewrite cleanElems_app, FX, cleanElems_plain, rev_involutive by assumption.
    rewrite join_snoc by assumption. reflexivity.
  - apply String.eqb_neq in NB. rewrite NB in *.
    assert (R : rooted (Str.join "/" X ++ "/" ++ name) = false).
    { rewrite rooted_append by (apply String.eqb_neq, NB).
      destruct X as [|x X']; [congruence|].
      inversion SF; inversion NE; subst.
      destruct X' as [|y X']; [apply rooted_free; assumption|].
      change (Str.join "/" (x :: y :: X')) with (x ++ "/" ++ Str.join "/" (y :: X')).
      rewrite rooted_append by assumption. apply rooted_free; assumption. }
    rewrite R.
    assert (NA : (Str.join "/" X ++ "/" ++ name =? "") = false).
    { apply String.eqb_neq. intros H. apply String.eqb_neq in NB.
      destruct (Str.join "/" X); [congruence|discriminate H]. }
    rewrite NA.
    assert (K : cleanElems false [] (split (Str.join "/" X ++ "/" ++ name))
                = (X ++ [name])%list).
    { change (Str.join "/" X ++ "/" ++ name)
        with (Str.join "/" X ++ String Str.slash name).
      rewrite split_append, split_join, SN by assumption.
      rewrite cleanElems_app, FX, cleanElems_plain, rev_involutive by assumption.
      reflexivity. }
    rewrite K, join_snoc, NA by assumption. reflexivity.
Qed.

Lemma Clean_plain name : plain name -> Clean name = name.
Proof.
  intros P. pose proof P as (F & N & _).
  unfold Clean. apply String.eqb_neq in N. rewrite N.
  rewrite (rooted_free name F), (split_free name F).
  rewrite cleanElems_plain by assumption.
  unfold render. cbn [rev app Str.join]. rewrite N. reflexivity.
Qed.

Lemma Clean_render p : p <> "" -> Clean p = render (rooted p) (kept p).
Proof.
  intros N. unfold Clean. apply String.eqb_neq in N. rewrite N. reflexivity.
Qed.

(** [Join] with no directory is the file name itself. *)
Lemma Join_unset name : plain name -> Join "" name = name.
Proof.
  intros P. unfold Join. cbn [String.eqb].
  pose proof P as (_ & N & _).
  apply String.eqb_neq in N. rewrite N.
  apply Clean_plain. exact P.
Qed.

(** [Join] below a directory that [Clean] produced, other than [.] and
    the root. *)
Lemma Join_cleaned p name :
  plain name -> Clean p <> "." -> Clean p <> "/" ->
  Join (Clean p) name = Clean p ++ "/" ++ name.
Proof.
  intros P ND NR.
  destruct (String.eqb_spec p "") as [->|N].
  { exfalso. apply ND. reflexivity. }
  rewrite (Clean_render p N) in *.
  unfold Join.
  assert (NE : (render (rooted p) (kept p) =? "") = false).
  { apply String.eqb_neq. unfold render.
    destruct (rooted p); [discriminate|].
    destruct (String.eqb_spec (Str.join "/" (kept p)) ""); [discriminate|assumption]. }
  rewrite NE. apply Clean_under; try assumption. apply kept_ok.
Qed.

Lemma Join_dot name : plain name -> Join "." name = name.
Proof.
  intros P. pose proof P as (F & N & _).
  unfold Join. cbn [String.eqb Ascii.eqb Bool.eqb].
  unfold Clean.
  change ("." ++ "/" ++ name) with (String "."%char (String Str.slash name)).
  cbn [String.eqb rooted]. 
  change (Ascii.eqb "."%char Str.slash) with false. cbv iota.
  change (String "."%char (String Str.slash name)) with ("." ++ String Str.slash name).
  rewrite split_append, (split_free name F).
  change (split ".") with ["."].
  change (cleanElems false [] (["."] ++ [name])%list)
    with (cleanElems false [] [name]).
  rewrite cleanElems_plain by assumption.
  unfold render. cbn [rev app Str.join].
  apply String.eqb_neq in N. rewrite N. reflexivity.
Qed.

Lemma Join_root name : plain name -> Join "/" name = "/" ++ name.
Proof.
  intros P. pose proof P as (F & N & _).
  unfold Join. cbn [String.eqb Ascii.eqb Bool.eqb].
  unfold Clean.
  change ("/" ++ "/" ++ name) with ("/" ++ String Str.slash name).
  rewrite split_append, (split_free name F).
  change (split "/") with [""; ""].
  change (rooted ("/" ++ String Str.slash name)) with true.
  change (cleanElems true [] ([""; ""] ++ [name])%list)
    with (cleanElems true [] [name]).
  rewrite cleanElems_plain by assumption.
  reflexivity.
Qed.

End PathLemmas.

(* ================================================================= *)
(** ** Day keys and file names *)

Lemma isDigit_digit d : (d < 10)%N -> Str.isDigit (Str.digit d) = true.
Proof.
  intros H. unfold Str.isDigit, Str.digit.
  rewrite Ascii.N_ascii_embedding by lia.
  apply andb_true_intro; split; apply N.leb_le; lia.
Qed.

Lemma allDigits_append a b :
  Str.allDigits (a ++ b) = Str.allDigits a && Str.allDigits b.
Proof.
  induction a as [|c a IH]; simpl; [reflexivity|].
  rewrite IH, andb_assoc. reflexivity.
Qed.

Lemma itoaFuel_digits fuel : forall n acc,
  Str.allDigits acc = true -> Str.allDigits (Str.itoaFuel fuel n acc) = true.
Proof.
  induction fuel as [|fuel IH]; intros n acc H; simpl; [exact H|].
  assert (D : Str.allDigits (String (Str.digit (n mod 10)) acc) = true).
  { simpl. rewrite H, isDigit_digit; [reflexivity|].
    apply N.mod_lt. discriminate. }
  destruct (n <? 10)%N; [exact D|]. apply IH, D.
Qed.

Lemma zeros_digits k : Str.allDigits (Str.zeros k) = true.
Proof. induction k; simpl; auto. Qed.

Lemma appendInt_digits x w : Str.allDigits (Str.appendInt x w) = true.
Proof.
  unfold Str.appendInt, Str.itoa.
  rewrite allDigits_append, zeros_digits, itoaFuel_digits; reflexivity.
Qed.

Lemma zeros_length k : String.length (Str.zeros k) = k.
Proof. induction k; simpl; congruence. Qed.

Lemma appendInt_length x w : w <= String.length (Str.appendInt x w).
Proof.
  unfold Str.appendInt. rewrite length_append, zeros_length. lia.
Qed.

(** A string of digits contains none of the bytes used as punctuation. *)
Lemma digits_free c s :
  Str.isDigit c = false -> Str.allDigits s = true -> Str.free c s = true.
Proof.
  intros C. induction s as [|d s IH]; simpl; [reflexivity|].
  intros H. apply andb_prop in H. destruct H as [H1 H2].
  rewrite (IH H2), andb_true_r.
  destruct (Ascii.eqb_spec d c) as [->|]; [congruence|reflexivity].
Qed.

Lemma Format_date_dash_free t : Str.free Str.slash (Format_date_dash t) = true.
Proof.
  unfold Format_date_dash.
  rewrite !free_append.
  rewrite (digits_free Str.slash (Str.appendInt (Year t) 4)),
    (digits_free Str.slash (Str.appendInt (Month t) 2)),
    (digits_free Str.slash (Str.appendInt (Day t) 2))
    by (reflexivity || apply appendInt_digits).
  reflexivity.
Qed.

Lemma logName_plain date v :
  Str.free Str.slash date = true -> plain (logName date v).
Proof.
  intros F. unfold plain, logName.
  split; [rewrite free_append, F; destruct v; reflexivity|].
  assert (L : 9 <= String.length (date ++ "." ++ levelFileName v ++ ".log")).
  { rewrite length_append. destruct v; simpl; lia. }
  repeat split; intros H; rewrite H in L; simpl in L; lia.
Qed.

(* ================================================================= *)
(** ** The invariant holds in every reachable state *)

Lemma sinkOKf_pre dir date st ws v ol :
  sinkOKf dir date st ws v ol -> sinkPre st ws v ol.
Proof. intros (l & -> & L & _ & H). split; assumption. Qed.

Lemma handleOK_unstarted ws l :
  handleOK false ws l -> l_logger l = None /\ l_file l = None.
Proof. intros [H|(H & _)]; [exact H|discriminate H]. Qed.

Lemma handleOK_freeze st ws l : handleOK st ws l -> handleOK true ws l.
Proof. intros [H|(_ & H)]; [left; exact H|right; split; [reflexivity|exact H]]. Qed.

Lemma setFileName_ok st ws v n l :
  l_level l = v -> handleOK st ws l ->
  l_level (fst (setFileName n l)) = v
  /\ l_fileName (fst (setFileName n l)) = n
  /\ handleOK st ws (fst (setFileName n l)).
Proof.
  intros L H. unfold setFileName.
  destruct (String.eqb_spec (l_fileName l) n) as [E|E]; cbn [fst].
  - auto.
  - destruct (l_file l) eqn:Fl; cbn.
    + repeat split; auto. left; auto.
    + repeat split; auto. left.
      destruct H as [[A B]|(A & B & C)]; [auto|congruence].
Qed.

Lemma setFileName_events n l :
  forallb (fun e => negb (isWriteEvent e)) (snd (setFileName n l)) = true.
Proof.
  unfold setFileName. destruct (l_fileName l =? n); [reflexivity|].
  destruct (l_file l); reflexivity.
Qed.

Lemma rotateLocked_sinkOK date s :
  (forall v, sinkPre (started s) (writersValue s) v (sink v s)) ->
  forall v, sinkOK (rotateLocked date s) v.
Proof.
  intros H v. specialize (H v).
  destruct v; unfold sinkOK, sinkOKf, sinkPre in *;
    cbn [rotateLocked sink dirPathValue dateStr started writersValue
         DebugL InfoL WarningL ErrorL option_map] in *.
  - destruct (DebugL s) as [l|].
    + destruct H as [L K]. eexists; split; [reflexivity|].
      apply setFileName_ok; assumption.
    + eexists; split; [reflexivity|]. repeat split. left; split; reflexivity.
  - destruct (InfoL s) as [l|].
    + destruct H as [L K]. eexists; split; [reflexivity|].
      apply setFileName_ok; assumption.
    + eexists; split; [reflexivity|]. repeat split. left; split; reflexivity.
  - destruct (WarningL s) as [l|].
    + destruct H as [L K]. eexists; split; [reflexivity|].
      apply setFileName_ok; assumption.
    + eexists; split; [reflexivity|]. repeat split. left; split; reflexivity.
  - destruct (ErrorL s) as [el|]; cbn [option_map fst el_logger] in *.
    + destruct H as [L K]. eexists; split; [reflexivity|].
      apply setFileName_ok; assumption.
    + eexists; split; [reflexivity|]. repeat split. left; split; reflexivity.
Qed.

Lemma rotateLocked_events date s :
  exists closes,
    events (rotateLocked date s) = (events s ++ closes)%list
    /\ forallb (fun e => negb (isWriteEvent e)) closes = true.
Proof.
  eexists. split; [reflexivity|].
  rewrite !forallb_app.
  repeat (apply andb_true_intro; split);
    match goal with
    | |- forallb _ (snd (match ?o with Some _ => _ | None => _ end)) = true =>
        destruct o; cbn [snd]; try reflexivity; apply setFileName_events
    end.
Qed.

Lemma Inv_sinkPre s : Inv s ->
  forall v, sinkPre (started s) (writersValue s) v (sink v s).
Proof. intros I v. eapply sinkOKf_pre, (inv_sinks s I v). Qed.

Lemma init_Inv env : Inv (init env).
Proof.
  unfold init. constructor; fields; auto.
  - apply rotateLocked_sinkOK. intros v; destruct v; exact I.
  - exists env. reflexivity.
Qed.

Lemma SetDir_Inv path env s s' :
  Inv s -> SetDir path env s = Ret s' -> Inv s'.
Proof.
  intros I. unfold SetDir.
  destruct (path =? ""); [intros [= <-]; exact I|].
  destruct (started s) eqn:S; [intros [= <-]; exact I|].
  destruct (setDirOnce s) eqn:O; [intros [= <-]; exact I|].
  pose proof (Inv_sinkPre s I) as P.
  destruct I as [I1 I2 I3 I4 I5 I6 I7].
  destruct (MkdirAll env (Filepath.Clean path)); cbn [negb]; intros [= <-].
  - constructor; fields; auto; try discriminate.
    + intros v.
      apply (rotateLocked_sinkOK _
               (store_dirPathValue (Filepath.Clean path)
                  (emit [EvMkdirAll (Filepath.Clean path)] s))).
      intros v'. fields.
      replace (sink v' _) with (sink v' s) by (destruct v'; reflexivity).
      apply P.
    + exists env. reflexivity.
    + right. eexists; reflexivity.
  - constructor; fields; auto; try discriminate.
Qed.

Lemma SetTimezone_Inv name env s s' :
  Inv s -> SetTimezone name env s = Ret s' -> Inv s'.
Proof.
  intros I. unfold SetTimezone.
  destruct (name =? ""); [intros [= <-]; exact I|].
  destruct (started s) eqn:S; [intros [= <-]; exact I|].
  destruct (setTimezoneOnce s) eqn:O; [intros [= <-]; exact I|].
  destruct (resolveZone env name) as [loc|]; [|discriminate].
  intros [= <-].
  pose proof (Inv_sinkPre s I) as P.
  destruct I as [I1 I2 I3 I4 I5 I6 I7].
  constructor; fields; auto; try discriminate.
  - intros v. apply (rotateLocked_sinkOK _ (store_locationValue loc s)).
    intros v'. fields.
    replace (sink v' _) with (sink v' s) by (destruct v'; reflexivity).
    apply P.
  - exists env. reflexivity.
Qed.

Lemma AppendWriter_Inv writer s s' :
  Inv s -> AppendWriter writer s = Ret s' -> Inv s'.
Proof.
  intros I. unfold AppendWriter.
  destruct (List.length writer =? 0)%nat; [intros [= <-]; exact I|].
  destruct (started s) eqn:S; [intros [= <-]; exact I|].
  destruct (appendWriterOnce s) eqn:O; [intros [= <-]; exact I|].
  intros [= <-].
  destruct I as [I1 I2 I3 I4 I5 I6 I7].
  constructor; auto; try discriminate.
  intros v. specialize (I1 v). unfold sinkOK, sinkOKf in *.
  destruct I1 as (l & A & B & C & D). exists l.
  replace (sink v (done_appendWriterOnce (store_writersValue writer s)))
    with (sink v s) by (destruct v; reflexivity).
  cbn. rewrite S in *. repeat split; auto.
  left. eapply handleOK_unstarted, D.
Qed.

Lemma sink_setSink_same v l s : sink v (setSink v l s) = Some l.
Proof. destruct v; reflexivity. Qed.

Lemma sink_setSink_other v v' l s :
  v <> v' -> sink v' (setSink v l s) = sink v' s.
Proof. destruct v, v'; intros N; try reflexivity; congruence. Qed.

Lemma sink_emit v evs s : sink v (emit evs s) = sink v s.
Proof. destruct v; reflexivity. Qed.

Lemma logLevel_eq_dec (a b : logLevel) : {a = b} + {a <> b}.
Proof. decide equality. Qed.

(** Replacing one sink by a sound one, and adding events, keeps the
    invariant. *)
Lemma setSink_Inv v l evs s :
  Inv s -> l_level l = v ->
  l_fileName l = Filepath.Join (dirPathValue s) (logName (dateStr s) v) ->
  handleOK (started s) (writersValue s) l ->
  Inv (emit evs (setSink v l s)).
Proof.
  intros [I1 I2 I3 I4 I5 I6 I7] L N H.
  constructor; auto.
  intros v'. unfold sinkOK. rewrite sink_emit.
  destruct (logLevel_eq_dec v v') as [<-|D].
  - rewrite sink_setSink_same. exists l. auto.
  - rewrite sink_setSink_other by assumption. exact (I1 v').
Qed.

Lemma Close_Inv v s s' : Inv s -> Close v s = Ret s' -> Inv s'.
Proof.
  intros I. unfold Close.
  destruct (inv_sinks s I v) as (l & A & B & C & D). rewrite A.
  destruct (l_file l); intros [= <-]; [|exact I].
  apply setSink_Inv; auto. left; split; reflexivity.
Qed.

Lemma freezeConfig_Inv s :
  Inv s ->
  Inv (freezeConfig s) /\ started (freezeConfig s) = true
  /\ sameSetup s (freezeConfig s)
  /\ events (freezeConfig s) = events s
  /\ forall v, sink v (freezeConfig s) = sink v s.
Proof.
  intros I. unfold freezeConfig. destruct (started s) eqn:S.
  - split; [exact I|repeat split; auto].
  - split; [|repeat split; destruct v; reflexivity].
    destruct I as [I1 I2 I3 I4 I5 I6 I7]. constructor; fields; auto.
    intros v. specialize (I1 v). unfold sinkOK, sinkOKf in *. fields.
    destruct I1 as (l & A & B & C & D). exists l.
    replace (sink v (store_started true s)) with (sink v s)
      by (destruct v; reflexivity).
    repeat split; auto. eapply handleOK_freeze, D.
Qed.

(** The first three steps of a write: freeze, read the clock, check the
    day.  Afterwards the day key is today's and only handles were
    closed. *)
Lemma freeze_rotate env s :
  Inv s ->
  let now := Now env (locationValue s) in
  let s2 := rotateIfNeeded now (freezeConfig s) in
  Inv s2 /\ started s2 = true /\ dateStr s2 = Format_date_dash now
  /\ sameSetup s s2
  /\ exists closes,
       events s2 = (events s ++ closes)%list
       /\ forallb (fun e => negb (isWriteEvent e)) closes = true.
Proof.
  intros I now s2.
  destruct (freezeConfig_Inv s I) as (I' & S' & Q' & E' & K').
  subst s2. set (s1 := freezeConfig s) in *.
  unfold rotateIfNeeded, rotateIfDateChanged.
  destruct (String.eqb_spec (dateFast s1) (Format_date_dash now)) as [F|F].
  { rewrite (inv_fast s1 I') in F.
    split; [exact I'|]. split; [exact S'|]. split; [exact F|].
    split; [exact Q'|]. exists []. rewrite app_nil_r. auto. }
  destruct (String.eqb_spec (dateStr s1) (Format_date_dash now)) as [D|D];
    cbn [negb].
  { split; [exact I'|]. split; [exact S'|]. split; [exact D|].
    split; [exact Q'|]. exists []. rewrite app_nil_r. auto. }
  pose proof (Inv_sinkPre s1 I') as P.
  assert (L : locationValue s1 = locationValue s).
  { destruct Q' as (C & _). unfold config in C. congruence. }
  destruct I' as [I1 I2 I3 I4 I5 I6 I7].
  split; [|split; [exact S'|split; [reflexivity|split]]].
  - constructor; fields; auto.
    + apply rotateLocked_sinkOK, P.
    + exists env. rewrite L. reflexivity.
  - exact Q'.
  - destruct (rotateLocked_events (Format_date_dash now) s1) as (closes & A & B).
    exists closes. rewrite A, E'. auto.
Qed.

(** What a write does in a state that satisfies the invariant: it never
    goes through a nil sink; it ends the process only when today's file
    of the level cannot be opened; otherwise it returns, and after
    closing and opening handles as needed it hands the text to the extra
    writers and then to today's file of the level. *)
Lemma write_spec v env print s :
  Inv s ->
  let now := Now env (locationValue s) in
  let path := Filepath.Join (dirPathValue s) (logName (Format_date_dash now) v) in
  let ws := (map ExtraWriter (writersValue s) ++ [FileWriter path])%list in
  match write v env print s with
  | Ret s' =>
      Inv s'
      /\ (exists l, sink v s' = Some l /\ l_fileName l = path
                    /\ l_file l = Some path)
      /\ dateStr s' = Format_date_dash now
      /\ exists pre,
           events s'
           = (events s ++ pre ++ print ws (timePrefix now) (levelString v))%list
           /\ forallb (fun e => negb (isWriteEvent e)) pre = true
  | Exit code s' => code = 1 /\ OpenFile env path = false
  | NilDeref _ => False
  end.
Proof.
  intros I now path ws.
  pose proof (freeze_rotate env s I) as FR. cbv zeta in FR. fold now in FR.
  destruct FR as (I2 & S2 & D2 & Q2 & closes & E2 & N2).
  destruct (freezeConfig_Inv s I) as (_ & _ & Q1 & _ & _).
  assert (L : locationValue (freezeConfig s) = locationValue s).
  { destruct Q1 as (C & _). unfold config in C. congruence. }
  unfold write, nowInLocation. rewrite L. fold now.
  set (s2 := rotateIfNeeded now (freezeConfig s)) in *.
  destruct (inv_sinks s I v) as (l0 & A0 & _). rewrite A0.
  destruct (inv_sinks s2 I2 v) as (l & A & B & C & H). rewrite A.
  assert (CF : config s2 = config s) by apply Q2.
  unfold config in CF. injection CF as CD CL CW.
  rewrite CD, D2 in C. fold path in C.
  rewrite S2, CW in H.
  unfold ensureLoggerLocked, withFileWriter. rewrite C, CW.
  destruct H as [[H1 H2]|(_ & H1 & H2)]; rewrite H1.
  - destruct (OpenFile env path) eqn:O; [|split; [reflexivity|reflexivity]].
    split; [|split; [|split]].
    + apply setSink_Inv; cbn [l_level l_fileName]; auto.
      * rewrite CD, D2. reflexivity.
      * right. rewrite S2, CW. cbn [l_logger l_file l_fileName]. auto.
    + rewrite sink_emit, sink_setSink_same. eexists; repeat split.
    + rewrite <- D2. destruct v; reflexivity.
    + exists (closes ++ [EvOpen path])%list. split.
      * rewrite B. cbn [events emit]. 
        replace (events (setSink v _ s2)) with (events s2)
          by (destruct v; reflexivity).
        rewrite E2, <- !app_assoc. reflexivity.
      * rewrite forallb_app, N2. reflexivity.
  - split; [|split; [|split]].
    + apply setSink_Inv; auto.
      * rewrite CD, D2. exact C.
      * right. rewrite S2, CW. auto.
    + rewrite sink_emit, sink_setSink_same. exists l. rewrite C in H2. auto.
    + rewrite <- D2. destruct v; reflexivity.
    + exists closes. split; [|exact N2].
      rewrite B. cbn [events emit app].
      replace (events (setSink v l s2)) with (events s2)
        by (destruct v; reflexivity).
      rewrite E2, C, <- !app_assoc. reflexivity.
Qed.

Lemma write_returns v env print s :
  Inv s ->
  OpenFile env (Filepath.Join (dirPathValue s)
                  (logName (Format_date_dash (Now env (locationValue s))) v))
  = true ->
  exists s', write v env print s = Ret s'.
Proof.
  intros I O. pose proof (write_spec v env print s I) as H. cbv zeta in H.
  destruct (write v env print s) as [s'|code s'|s']; [eauto| |contradiction].
  destruct H as [_ H]. congruence.
Qed.

Lemma write_Inv v env print s s' :
  Inv s -> write v env print s = Ret s' -> Inv s'.
Proof.
  intros I R. pose proof (write_spec v env print s I) as H. cbv zeta in H.
  rewrite R in H. apply H.
Qed.

Lemma step_Inv c s s' : Inv s -> step c s = Ret s' -> Inv s'.
Proof.
  intros I. destruct c as [env op]. unfold step; cbn [fst snd].
  destruct op.
  - apply SetDir_Inv, I.
  - apply SetTimezone_Inv, I.
  - apply AppendWriter_Inv, I.
  - destruct v; try apply write_Inv, I.
    unfold Error_Println. destruct (ErrorL s); [apply write_Inv, I|discriminate].
  - destruct v; try apply write_Inv, I.
    unfold Error_Printf. destruct (ErrorL s); [apply write_Inv, I|discriminate].
  - unfold Fatalln. destruct (Error_Println args env s); discriminate.
  - unfold Fatalf. destruct (Error_Printf format args env s); discriminate.
  - apply Close_Inv, I.
Qed.

Lemma run_Inv cs : forall s s', Inv s -> run cs s = Ret s' -> Inv s'.
Proof.
  induction cs as [|c cs IH]; intros s s' I; cbn [run].
  - intros [= <-]. exact I.
  - destruct (step c s) as [s1| |] eqn:E; try discriminate.
    apply IH. eapply step_Inv; eassumption.
Qed.

Lemma reachable_Inv s : reachable s -> Inv s.
Proof.
  intros (env & cs & R). eapply run_Inv; [apply init_Inv|exact R].
Qed.

(* ================================================================= *)
(** ** Lines *)

Lemma last_append_nl a : Str.last (a ++ Str.nl) = Some Str.newline.
Proof.
  induction a as [|c a IH]; [reflexivity|].
  change (String c a ++ Str.nl) with (String c (a ++ Str.nl)).
  cbn [Str.last]. destruct (a ++ Str.nl) eqn:E; [|exact IH].
  destruct a; discriminate E.
Qed.

Lemma endsWithNewline_nl a : Str.endsWithNewline (a ++ Str.nl) = true.
Proof. unfold Str.endsWithNewline. rewrite last_append_nl. reflexivity. Qed.

(** The inner logger always ends what it writes with a newline. *)
Lemma Output_bytes ws text :
  Output ws text
  = deliver ws (if Str.endsWithNewline text then text else text ++ Str.nl)
  /\ Str.endsWithNewline
       (if Str.endsWithNewline text then text else text ++ Str.nl) = true.
Proof.
  split; [reflexivity|].
  destruct (Str.endsWithNewline text) eqn:E; [exact E|apply endsWithNewline_nl].
Qed.

Lemma Logger_Println_bytes ws vs :
  Logger_Println ws vs = deliver ws (Fmt.Sprintln vs).
Proof.
  unfold Logger_Println, Output, Fmt.Sprintln.
  rewrite endsWithNewline_nl. reflexivity.
Qed.

(** A prefix without percent sign passes through [Sprintf]. *)
Lemma Sprintf_prefix rest pre format vs :
  Str.free Str.percent pre = true ->
  Fmt.Sprintf rest (pre ++ format) vs = pre ++ Fmt.Sprintf rest format vs.
Proof.
  unfold Fmt.Sprintf.
  induction pre as [|c pre IH]; [reflexivity|].
  cbn [Str.free]. intros H. apply andb_prop in H. destruct H as [H1 H2].
  change (String c pre ++ format) with (String c (pre ++ format)).
  cbn [Fmt.doPrintf]. apply negb_true_iff in H1. rewrite H1, (IH H2).
  reflexivity.
Qed.

(** On a format of the fragment the text does not depend on what stands
    for the other directives. *)
Lemma doPrintf_simple rest rest' a : forall n format argNum,
  String.length format <= n ->
  Fmt.simple format = true ->
  Fmt.doPrintf rest a argNum format = Fmt.doPrintf rest' a argNum format.
Proof.
  induction n as [|n IH]; intros format argNum L S.
  - destruct format; [reflexivity|simpl in L; lia].
  - destruct format as [|c tail]; [reflexivity|].
    cbn [Fmt.doPrintf Fmt.simple] in S |- *. cbn [String.length] in L.
    destruct (Ascii.eqb c Str.percent).
    + destruct tail as [|verb tail']; [reflexivity|].
      cbn [String.length] in L.
      apply andb_prop in S. destruct S as [S1 S2].
      destruct (Ascii.eqb verb Str.percent).
      * rewrite (IH tail' argNum) by (assumption || lia). reflexivity.
      * cbn [orb] in S1. rewrite S1.
        destruct (nth_error a argNum);
          rewrite (IH tail') by (assumption || lia); reflexivity.
    + rewrite (IH tail argNum) by (assumption || lia). reflexivity.
Qed.

Lemma Sprintf_simple rest rest' format a :
  Fmt.simple format = true ->
  Fmt.Sprintf rest format a = Fmt.Sprintf rest' format a.
Proof. intros S. apply (doPrintf_simple rest rest' a (String.length format)); auto. Qed.

Lemma Format_clock_micro_free c t :
  Str.isDigit c = false -> Str.free c ":" = true -> Str.free c "." = true ->
  Str.free c (Format_clock_micro t) = true.
Proof.
  intros D A B. unfold Format_clock_micro.
  rewrite !free_append, A, B.
  rewrite (digits_free c (Str.appendInt (Hour t) 2)),
    (digits_free c (Str.appendInt (Minute t) 2)),
    (digits_free c (Str.appendInt (Second t) 2)),
    (digits_free c (Str.appendInt (Nanosecond t / 1000) 6))
    by (assumption || apply appendInt_digits).
  reflexivity.
Qed.

Lemma timePrefix_free t : Str.free Str.percent (timePrefix t) = true.
Proof.
  unfold timePrefix, Format_slash_micro.
  rewrite !free_append, Format_clock_micro_free by reflexivity.
  rewrite (digits_free Str.percent (Str.appendInt (Year t) 4)),
    (digits_free Str.percent (Str.appendInt (Month t) 2)),
    (digits_free Str.percent (Str.appendInt (Day t) 2))
    by (reflexivity || apply appendInt_digits).
  reflexivity.
Qed.

Lemma Logger_Printf_bytes rest ws t v format args :
  let text := timePrefix t ++ " " ++ levelString v ++ " "
              ++ Fmt.Sprintf rest format args in
  Logger_Printf rest ws (timePrefix t ++ " " ++ levelString v ++ " " ++ format) args
  = deliver ws (if Str.endsWithNewline text then text else text ++ Str.nl).
Proof.
  intros text. unfold Logger_Printf.
  replace (Fmt.Sprintf rest
             (timePrefix t ++ " " ++ levelString v ++ " " ++ format) args)
    with text; [apply Output_bytes|].
  subst text.
  rewrite <- !append_assoc.
  rewrite Sprintf_prefix; [reflexivity|].
  rewrite !free_append, timePrefix_free. destruct v; reflexivity.
Qed.

(** In a reachable state every package variable holds a sink, so the
    wrappers of the Error variable are the plain methods. *)
Lemma step_Println env v args s :
  Inv s -> step (env, OpPrintln v args) s = Println v args env s.
Proof.
  intros I. unfold step; cbn [fst snd]. destruct v; try reflexivity.
  unfold Error_Println.
  destruct (inv_sinks s I levelError) as (l & A & _). cbn [sink] in A.
  destruct (ErrorL s); [reflexivity|discriminate A].
Qed.

Lemma step_Printf env v format args s :
  Inv s -> step (env, OpPrintf v format args) s = Printf v format args env s.
Proof.
  intros I. unfold step; cbn [fst snd]. destruct v; try reflexivity.
  unfold Error_Printf.
  destruct (inv_sinks s I levelError) as (l & A & _). cbn [sink] in A.
  destruct (ErrorL s); [reflexivity|discriminate A].
Qed.

Lemma Format_date_dash_plain t v : plain (logName (Format_date_dash t) v).
Proof. apply logName_plain, Format_date_dash_free. Qed.

(* ================================================================= *)
(** ** What a write emits *)

Lemma matches_slash a b p :
  Str.allDigits a = true -> 4 <= String.length a ->
  matches (digits 4 ++ PChar "-"%char :: p)%list (a ++ "/" ++ b) = false.
Proof.
  intros D L.
  destruct a as [|c1 [|c2 [|c3 [|c4 a]]]]; simpl in L; try lia.
  change (Str.isDigit c1 && (Str.isDigit c2 && (Str.isDigit c3 && (Str.isDigit c4
            && matches (PChar "-"%char :: p) (a ++ "/" ++ b)))) = false).
  assert (H : matches (PChar "-"%char :: p) (a ++ "/" ++ b) = false).
  { destruct a as [|c5 a]; cbn [append matches]; [reflexivity|].
    simpl in D. repeat (apply andb_prop in D; destruct D as [? D]).
    destruct (Ascii.eqb_spec c5 "-"%char) as [->|]; [discriminate|reflexivity]. }
  rewrite H, !andb_false_r. reflexivity.
Qed.

(** No line stamped by [timePrefix] matches the pattern of the test. *)
Lemma timePrefix_never_matches t :
  matches testPattern (timePrefix t ++ " INFO hello" ++ Str.nl) = false.
Proof.
  unfold timePrefix, Format_slash_micro.
  rewrite !append_assoc.
  apply (matches_slash (Str.appendInt (Year t) 4)).
  - apply appendInt_digits.
  - apply appendInt_length.
Qed.

(** C1: [Println("hello")] on the Info sink hands every destination the
    line [timePrefix now ++ " INFO hello\n"], and that line has slashes
    where the documented timestamp has dashes: it never matches the
    pattern of the package test. *)
Theorem Println_hello_line :
  forall s env s',
    reachable s ->
    step (env, OpPrintln levelInfo [VString "hello"]) s = Ret s' ->
    let now := Now env (locationValue s) in
    let path := Filepath.Join (dirPathValue s)
                  (logName (Format_date_dash now) levelInfo) in
    let line := Format_slash_micro now ++ " INFO hello" ++ Str.nl in
    (exists pre,
        events s' = (events s ++ pre ++ deliver (fanout s path) line)%list
        /\ noWrite pre = true)
    /\ matches testPattern line = false.
Proof.
  intros s env s' R St now path line.
  pose proof (reachable_Inv s R) as I.
  rewrite step_Println in St by assumption.
  pose proof (write_spec levelInfo env
    (fun ws ts level =>
       Logger_Println ws (VString ts :: VString level :: [VString "hello"])) s I)
    as H.
  cbv zeta in H. unfold Println in St. rewrite St in H.
  destruct H as (_ & _ & _ & pre & E & N).
  split; [|apply timePrefix_never_matches].
  exists pre. split; [|exact N].
  rewrite E, Logger_Println_bytes. unfold Fmt.Sprintln.
  cbn [map Fmt.show Str.join levelString]. unfold timePrefix.
  fold now. rewrite append_assoc. reflexivity.
Qed.

(** The same call at a concrete time. *)
Example Println_hello_at_t0 :
  events (stateOf (step (env0, OpPrintln levelInfo [VString "hello"]) (init env0)))
  = [EvOpen "2024-01-02.info.log";
     EvWrite (FileWriter "2024-01-02.info.log")
       ("2024/01/02 03:04:05.000006 INFO hello" ++ Str.nl)].
Proof. reflexivity. Qed.

(** With the layout that the doc comment of [timePrefix] names, the line
    would match the pattern at every reading of the clock. *)
Lemma itoaFuel_length fuel : forall n k acc,
  (n < 10 ^ N.of_nat (S k))%N ->
  String.length (Str.itoaFuel fuel n acc) <= S k + String.length acc.
Proof.
  induction fuel as [|fuel IH]; intros n k acc H; cbn [Str.itoaFuel]; [lia|].
  destruct (N.ltb_spec n 10) as [L|L]; [simpl; lia|].
  destruct k as [|k].
  { change (10 ^ N.of_nat 1)%N with 10%N in H. lia. }
  assert (D : (n / 10 < 10 ^ N.of_nat (S k))%N).
  { apply N.Div0.div_lt_upper_bound.
    rewrite <- N.pow_succ_r', <- Nat2N.inj_succ. exact H. }
  specialize (IH (n / 10)%N k (String (Str.digit (n mod 10)) acc) D).
  simpl in IH |- *. lia.
Qed.

Lemma appendInt_exact x w :
  (x < 10 ^ N.of_nat (S w))%N -> String.length (Str.appendInt x (S w)) = S w.
Proof.
  intros H. unfold Str.appendInt, Str.itoa.
  pose proof (itoaFuel_length (S (N.size_nat x)) x w "" H) as L.
  cbn [String.length] in L. rewrite length_append, zeros_length. lia.
Qed.

Lemma matches_digits a n p b :
  Str.allDigits a = true -> String.length a = n ->
  matches (digits n ++ p)%list (a ++ b) = matches p b.
Proof.
  revert n. induction a as [|c a IH]; intros n D <-; [reflexivity|].
  simpl in D. apply andb_prop in D. destruct D as [D1 D2].
  change (Str.isDigit c && matches (digits (String.length a) ++ p)%list (a ++ b)
          = matches p b).
  rewrite D1, (IH _ D2 eq_refl). reflexivity.
Qed.

Lemma matches_literal l p b :
  matches (literal l ++ p)%list (l ++ b) = matches p b.
Proof.
  induction l as [|c l IH]; [reflexivity|].
  change (Ascii.eqb c c && matches (literal l ++ p)%list (l ++ b) = matches p b).
  rewrite Ascii.eqb_refl, IH. reflexivity.
Qed.

Lemma matches_literal_end l : matches (literal l) l = true.
Proof.
  induction l as [|c l IH]; [reflexivity|].
  change (Ascii.eqb c c && matches (literal l) l = true).
  rewrite Ascii.eqb_refl, IH. reflexivity.
Qed.

Lemma dash_layout_matches t :
  wfTime t = true ->
  matches testPattern (Format_dash_micro t ++ " INFO hello" ++ Str.nl) = true.
Proof.
  unfold wfTime. intros W.
  repeat (apply andb_prop in W; destruct W as [W ?]).
  repeat match goal with
         | H : (_ <? _)%N = true |- _ => apply N.ltb_lt in H
         | H : (_ <=? _)%N = true |- _ => apply N.leb_le in H
         end.
  assert (U : (Nanosecond t / 1000 < 1000000)%N).
  { apply N.Div0.div_lt_upper_bound. assumption. }
  assert (B4 : forall x, (x < 10000)%N -> (x < 10 ^ N.of_nat 4)%N)
    by (intros x; change (10 ^ N.of_nat 4)%N with 10000%N; exact (fun h => h)).
  assert (B2 : forall x, (x < 100)%N -> (x < 10 ^ N.of_nat 2)%N)
    by (intros x; change (10 ^ N.of_nat 2)%N with 100%N; exact (fun h => h)).
  assert (B6 : forall x, (x < 1000000)%N -> (x < 10 ^ N.of_nat 6)%N)
    by (intros x; change (10 ^ N.of_nat 6)%N with 1000000%N; exact (fun h => h)).
  unfold Format_dash_micro, Format_date_dash, Format_clock_micro, testPattern.
  rewrite !append_assoc.
  repeat (rewrite matches_digits
            by (apply appendInt_digits
                || (apply appendInt_exact;
                    first [apply B4|apply B2|apply B6]; lia));
          rewrite matches_literal).
  rewrite matches_digits
    by (apply appendInt_digits || (apply appendInt_exact; apply B6; lia)).
  apply matches_literal_end.
Qed.

Example dash_layout_at_t0 :
  matches testPattern (Format_dash_micro t0 ++ " INFO hello" ++ Str.nl) = true.
Proof. reflexivity. Qed.

(** The claim of C2 fails: [Printf("x=%d", 1)] on the Warning sink writes
    bytes that end in a newline although the format does not. *)
Lemma Printf_adds_newline :
  Str.endsWithNewline "x=%d" = false
  /\ exists s',
       step (env0, OpPrintf levelWarning "x=%d" [VInt 1]) (init env0) = Ret s'
       /\ events s'
          = [EvOpen "2024-01-02.warning.log";
             EvWrite (FileWriter "2024-01-02.warning.log")
               ("2024/01/02 03:04:05.000006 WARNING x=1" ++ Str.nl)]
       /\ Str.endsWithNewline
            ("2024/01/02 03:04:05.000006 WARNING x=1" ++ Str.nl) = true.
Proof. split; [reflexivity|]. eexists. repeat split. Qed.

(** C2, amended: a [Printf] that returns hands every destination the
    timestamp prefix, a space, the level label, a space and the format
    applied to the arguments; the package adds nothing, and the inner
    logger appends one newline exactly when that text does not already
    end in one, so the bytes always end in a newline.  The format is
    applied by [fmt.Sprintf]: for a format whose directives are [%%],
    [%v], [%s] and [%d] the text is the one [Fmt.doPrintf] computes,
    whatever the environment; a directive outside this fragment has its
    text taken from the environment, behind the prefix and the rendered
    part of the format before it. *)
Theorem Printf_line :
  forall s env v format args s',
    reachable s ->
    step (env, OpPrintf v format args) s = Ret s' ->
    let now := Now env (locationValue s) in
    let path := Filepath.Join (dirPathValue s) (logName (Format_date_dash now) v) in
    let text := timePrefix now ++ " " ++ levelString v ++ " "
                ++ Fmt.Sprintf (FmtRest env) format args in
    let bytes := if Str.endsWithNewline text then text else text ++ Str.nl in
    (exists pre,
        events s' = (events s ++ pre ++ deliver (fanout s path) bytes)%list
        /\ noWrite pre = true)
    /\ Str.endsWithNewline bytes = true
    /\ (Fmt.simple format = true ->
        forall rest,
          Fmt.Sprintf (FmtRest env) format args = Fmt.Sprintf rest format args).
Proof.
  intros s env v format args s' R St now path text bytes.
  pose proof (reachable_Inv s R) as I.
  rewrite step_Printf in St by assumption.
  pose proof (write_spec v env
    (fun ws ts level =>
       Logger_Printf (FmtRest env) ws (ts ++ " " ++ level ++ " " ++ format) args)
    s I) as H.
  cbv zeta in H. unfold Printf in St. rewrite St in H.
  destruct H as (_ & _ & _ & pre & E & N).
  split; [|split; [exact (proj2 (Output_bytes [] text))|]].
  - exists pre. split; [|exact N].
    rewrite E. fold now. rewrite Logger_Printf_bytes. reflexivity.
  - intros S rest. apply Sprintf_simple, S.
Qed.

Lemma reachable_init env : reachable (init env).
Proof. exists env, []. reflexivity. Qed.

Lemma Println_hello_line_witness :
  reachable (init env0)
  /\ (exists pre,
         events (stateOf (step (env0, OpPrintln levelInfo [VString "hello"]) (init env0)))
         = (events (init env0) ++ pre
            ++ deliver (fanout (init env0) "2024-01-02.info.log")
                 ("2024/01/02 03:04:05.000006 INFO hello" ++ Str.nl))%list
         /\ noWrite pre = true)
  /\ matches testPattern ("2024/01/02 03:04:05.000006 INFO hello" ++ Str.nl) = false.
Proof.
  split; [apply reachable_init|].
  exact (Println_hello_line (init env0) env0 _ (reachable_init env0) eq_refl).
Defined.

Lemma Printf_line_witness :
  reachable (init env0)
  /\ (exists pre,
         events (stateOf (step (env0, OpPrintf levelWarning "x=%d" [VInt 1]) (init env0)))
         = (events (init env0) ++ pre
            ++ deliver (fanout (init env0) "2024-01-02.warning.log")
                 ("2024/01/02 03:04:05.000006 WARNING x=1" ++ Str.nl))%list
         /\ noWrite pre = true)
  /\ Str.endsWithNewline ("2024/01/02 03:04:05.000006 WARNING x=1" ++ Str.nl) = true
  /\ Fmt.simple "x=%d" = true
  /\ forall rest, "x=1" = Fmt.Sprintf rest "x=%d" [VInt 1].
Proof.
  split; [apply reachable_init|].
  destruct (Printf_line (init env0) env0 levelWarning "x=%d" [VInt 1] _
              (reachable_init env0) eq_refl) as (A & B & C).
  split; [exact A|]. split; [exact B|]. split; [reflexivity|exact (C eq_refl)].
Defined.

(* ================================================================= *)
(** ** File paths *)

(** The claim of C6 fails as a statement about the path string: after
    [SetDir(".")] on 2024-01-02 the directory is [.] and the Info file is
    the bare file name, not the directory, a separator and the file
    name. *)
Lemma path_not_always_dir_slash_name :
  exists s l,
    run [(env0, OpSetDir ".")] (init env0) = Ret s
    /\ dirPathValue s = "." /\ dateStr s = "2024-01-02"
    /\ sink levelInfo s = Some l
    /\ l_fileName l = "2024-01-02.info.log"
    /\ specPath (dirPathValue s) (dateStr s) levelInfo = "./2024-01-02.info.log"
    /\ l_fileName l <> specPath (dirPathValue s) (dateStr s) levelInfo.
Proof.
  eexists. eexists.
  split; [reflexivity|]. split; [reflexivity|]. split; [reflexivity|].
  split; [reflexivity|]. split; [reflexivity|]. split; [reflexivity|].
  discriminate.
Qed.

Lemma Join_joinedPath p date v :
  Str.free Str.slash date = true ->
  forall dir, dir = "" \/ dir = Filepath.Clean p ->
  Filepath.Join dir (logName date v) = joinedPath dir date v.
Proof.
  intros F dir D. pose proof (logName_plain date v F) as P.
  unfold joinedPath.
  destruct (String.eqb_spec dir "") as [->|N0]; [apply Join_unset, P|].
  destruct (String.eqb_spec dir ".") as [->|N1]; [apply Join_dot, P|].
  destruct (String.eqb_spec dir "/") as [->|N2]; [apply Join_root, P|].
  destruct D as [D|D]; [congruence|]. subst dir.
  apply Join_cleaned; assumption.
Qed.

Lemma setFileName_name n l : l_fileName (fst (setFileName n l)) = n.
Proof.
  unfold setFileName.
  destruct (String.eqb_spec (l_fileName l) n) as [E|E]; [exact E|].
  destruct (l_file l); reflexivity.
Qed.

(** Whatever the state, a rotation leaves every package variable with a
    sink named after the directory and the date it was given. *)
Lemma rotateLocked_names date s v :
  exists l,
    sink v (rotateLocked date s) = Some l
    /\ l_fileName l = Filepath.Join (dirPathValue s) (logName date v).
Proof.
  destruct v;
    cbn [rotateLocked sink DebugL InfoL WarningL ErrorL option_map el_logger];
    eexists; (split; [reflexivity|]).
  - destruct (DebugL s); [apply setFileName_name|reflexivity].
  - destruct (InfoL s); [apply setFileName_name|reflexivity].
  - destruct (WarningL s); [apply setFileName_name|reflexivity].
  - destruct (ErrorL s); [apply setFileName_name|reflexivity].
Qed.

(** The day key after a call that returns: a write leaves it at the date
    of its own clock reading in the configured zone; any call that
    changes the day key, the directory or the zone does the same. *)
Lemma step_day env op s s' :
  Inv s -> step (env, op) s = Ret s' ->
  (isWrite op = true ->
     dateStr s' = Format_date_dash (Now env (locationValue s')))
  /\ (dateStr s' = Format_date_dash (Now env (locationValue s'))
      \/ (dateStr s' = dateStr s
          /\ dirPathValue s' = dirPathValue s
          /\ locationValue s' = locationValue s)).
Proof.
  intros I St.
  assert (W : forall v print, write v env print s = Ret s' ->
            dateStr s' = Format_date_dash (Now env (locationValue s'))).
  { intros v print E.
    pose proof (write_spec v env print s I) as H. cbv zeta in H. rewrite E in H.
    destruct H as (_ & _ & D & _).
    destruct (write_setup v env print s) as [(C & _) _]. rewrite E in C.
    unfold config in C. cbn [stateOf] in C. injection C as _ CL _.
    rewrite CL. exact D. }
  destruct op; cbn [isWrite].
  - split; [discriminate|]. revert St. unfold step; cbn [fst snd]. unfold SetDir.
    destruct (path =? ""); [intros [= <-]; right; auto|].
    destruct (started s); [intros [= <-]; right; auto|].
    destruct (setDirOnce s); [intros [= <-]; right; auto|].
    destruct (MkdirAll env (Filepath.Clean path)); cbn [negb];
      intros [= <-]; [left|right; auto]. reflexivity.
  - split; [discriminate|]. revert St. unfold step; cbn [fst snd]. unfold SetTimezone.
    destruct (name =? ""); [intros [= <-]; right; auto|].
    destruct (started s); [intros [= <-]; right; auto|].
    destruct (setTimezoneOnce s); [intros [= <-]; right; auto|].
    destruct (resolveZone env name); [|discriminate].
    intros [= <-]. left. reflexivity.
  - split; [discriminate|]. revert St. unfold step; cbn [fst snd]. unfold AppendWriter.
    destruct (List.length writer =? 0)%nat; [intros [= <-]; right; auto|].
    destruct (started s); [intros [= <-]; right; auto|].
    destruct (appendWriterOnce s); intros [= <-]; right; auto.
  - rewrite step_Println in St by assumption.
    pose proof (W _ _ St) as D. auto.
  - rewrite step_Printf in St by assumption.
    pose proof (W _ _ St) as D. auto.
  - exfalso. revert St. unfold step; cbn [fst snd]. unfold Fatalln.
    destruct (Error_Println args env s); discriminate.
  - exfalso. revert St. unfold step; cbn [fst snd]. unfold Fatalf.
    destruct (Error_Printf format args env s); discriminate.
  - split; [discriminate|]. right. revert St. unfold step; cbn [fst snd]. unfold Close.
    destruct (sink v s) as [l|]; [|discriminate].
    destruct (l_file l); intros [= <-]; [destruct v|]; auto.
Qed.

(** Along a run the day key is always the date, in the zone configured at
    the end, of the clock reading of [init] or of one of the calls made. *)
Lemma run_day cs : forall envs s0 s,
  Inv s0 ->
  (exists env, In env envs
               /\ dateStr s0 = Format_date_dash (Now env (locationValue s0))) ->
  run cs s0 = Ret s ->
  exists env, In env (envs ++ map fst cs)%list
              /\ dateStr s = Format_date_dash (Now env (locationValue s)).
Proof.
  induction cs as [|[env op] cs IH]; intros envs s0 s I (e & M & D); cbn [run map].
  - intros [= <-]. exists e. rewrite app_nil_r. auto.
  - destruct (step (env, op) s0) as [s1| |] eqn:St; try discriminate.
    intros Rn. cbn [fst].
    replace (envs ++ env :: map fst cs)%list
      with ((envs ++ [env]) ++ map fst cs)%list
      by (rewrite <- app_assoc; reflexivity).
    apply (IH (envs ++ [env])%list s1 s); [eapply step_Inv; eassumption| |exact Rn].
    destruct (proj2 (step_day env op s0 s1 I St)) as [L|(A & _ & C)].
    + exists env. split; [apply in_or_app; right; left; reflexivity|exact L].
    + exists e. split; [apply in_or_app; left; exact M|].
      rewrite A, C. exact D.
Qed.

(** C6, amended.  A rotation, from any state, names the file of each
    level [filepath.Join] of the stored directory and
    [<date>.<levelname>.log] and makes that date the day key.  The date
    is always read in the configured zone: [init] takes it from its own
    clock in the default zone; a write that returns leaves the day key at
    the date of its own clock reading in the configured zone; and a call
    that changes the day key, the directory or the zone leaves the day
    key at the date of its own clock reading in the zone then
    configured; so after any run the day key is the date, in the zone
    configured at the end, of the clock reading of [init] or of one of
    the calls made.  In every reachable state the file of each level is
    the [Join] of the stored directory and [<dayKey>.<levelname>.log]:
    directory, one separator and file name for every stored directory
    but three; the bare file name when the directory is unset or [.];
    the root separator and the file name when it is the root. *)
Theorem file_paths_derived :
  (forall date s v, exists l,
      sink v (rotateLocked date s) = Some l
      /\ l_fileName l = Filepath.Join (dirPathValue s) (logName date v)
      /\ dateStr (rotateLocked date s) = date
      /\ dirPathValue (rotateLocked date s) = dirPathValue s)
  /\ (forall env,
        dateStr (init env) = Format_date_dash (Now env defaultLocation)
        /\ locationValue (init env) = defaultLocation
        /\ dirPathValue (init env) = "")
  /\ (forall s env op s',
        reachable s -> step (env, op) s = Ret s' ->
        (isWrite op = true ->
           dateStr s' = Format_date_dash (Now env (locationValue s')))
        /\ (dateStr s' = Format_date_dash (Now env (locationValue s'))
            \/ (dateStr s' = dateStr s
                /\ dirPathValue s' = dirPathValue s
                /\ locationValue s' = locationValue s)))
  /\ (forall env0 cs s,
        run cs (init env0) = Ret s ->
        exists env,
          In env (env0 :: map fst cs)
          /\ dateStr s = Format_date_dash (Now env (locationValue s)))
  /\ (forall s,
        reachable s ->
        forall v, exists l,
          sink v s = Some l
          /\ l_fileName l
             = Filepath.Join (dirPathValue s) (logName (dateStr s) v)
          /\ l_fileName l = joinedPath (dirPathValue s) (dateStr s) v).
Proof.
  split; [|split; [|split; [|split]]].
  - intros date s v. destruct (rotateLocked_names date s v) as (l & A & B).
    exists l. auto.
  - intros env. auto.
  - intros s env op s' R St. apply (step_day env op s s'); [|exact St].
    apply reachable_Inv, R.
  - intros env0 cs s Rn.
    apply (run_day cs [env0] (init env0) s); [apply init_Inv| |exact Rn].
    exists env0. split; [left; reflexivity|reflexivity].
  - intros s R v. pose proof (reachable_Inv s R) as I.
    destruct (inv_sinks s I v) as (l & A & _ & C & _).
    exists l. split; [exact A|]. split; [exact C|]. rewrite C.
    destruct (inv_day s I) as (env & D).
    assert (F : Str.free Str.slash (dateStr s) = true)
      by (rewrite D; apply Format_date_dash_free).
    destruct (inv_dir s I) as [E|(p & E)].
    + apply (Join_joinedPath ""); auto.
    + apply (Join_joinedPath p); auto.
Qed.

(** After [SetDir("/var/log/app/")] a [SetTimezone("UTC")] made while the
    clock reads 2024-01-01 19:04 in that zone and 2024-01-02 03:04 in the
    default one moves the day key to 2024-01-01 and every file with it. *)
Lemma file_paths_derived_witness :
  (reachable (stateOf (run [(envUTC, OpSetDir "/var/log/app/")] (init envUTC)))
   /\ step (envUTC, OpSetTimezone "UTC")
        (stateOf (run [(envUTC, OpSetDir "/var/log/app/")] (init envUTC)))
      = Ret (stateOf (run [(envUTC, OpSetDir "/var/log/app/");
                           (envUTC, OpSetTimezone "UTC")] (init envUTC)))
   /\ reachable (stateOf (run [(envUTC, OpSetDir "/var/log/app/");
                               (envUTC, OpSetTimezone "UTC")] (init envUTC))))
  /\ dateStr (init envUTC) = "2024-01-02"
  /\ dateStr (stateOf (run [(envUTC, OpSetDir "/var/log/app/");
                            (envUTC, OpSetTimezone "UTC")] (init envUTC)))
     = "2024-01-01"
  /\ exists l,
       sink levelWarning
         (stateOf (run [(envUTC, OpSetDir "/var/log/app/");
                        (envUTC, OpSetTimezone "UTC")] (init envUTC)))
       = Some l
       /\ l_fileName l = "/var/log/app/2024-01-01.warning.log".
Proof.
  assert (R1 : reachable
                 (stateOf (run [(envUTC, OpSetDir "/var/log/app/")] (init envUTC)))).
  { exists envUTC, [(envUTC, OpSetDir "/var/log/app/")]. vm_compute. reflexivity. }
  assert (St : step (envUTC, OpSetTimezone "UTC")
                 (stateOf (run [(envUTC, OpSetDir "/var/log/app/")] (init envUTC)))
               = Ret (stateOf (run [(envUTC, OpSetDir "/var/log/app/");
                                    (envUTC, OpSetTimezone "UTC")] (init envUTC)))).
  { vm_compute. reflexivity. }
  assert (R2 : reachable
                 (stateOf (run [(envUTC, OpSetDir "/var/log/app/");
                                (envUTC, OpSetTimezone "UTC")] (init envUTC)))).
  { exists envUTC, [(envUTC, OpSetDir "/var/log/app/"); (envUTC, OpSetTimezone "UTC")].
    vm_compute. reflexivity. }
  destruct file_paths_derived as (_ & P2 & P3 & _ & P4).
  split; [split; [exact R1|split; [exact St|exact R2]]|].
  split; [exact (proj1 (P2 envUTC))|].
  split.
  - destruct (proj2 (P3 _ envUTC (OpSetTimezone "UTC") _ R1 St)) as [D|(D & _)];
      [exact D|]. vm_compute in D. discriminate D.
  - destruct (P4 _ R2 levelWarning) as (l & A & _ & C).
    exists l. split; [exact A|exact C].
Defined.

(* ================================================================= *)
(** ** Failures *)

(** C7: a [SetDir] that gets to create its directory and fails returns;
    it logs the diagnostic and fires its latch and changes nothing else,
    so the directory stays unset and no sink is touched.  Whatever calls
    follow, a [Println] whose file can be opened in the working directory
    returns, having written its line to the file named by day and level
    alone. *)
Theorem SetDir_failure_falls_back :
  forall s env path,
    reachable s ->
    path <> "" -> started s = false -> setDirOnce s = false ->
    MkdirAll env (Filepath.Clean path) = false ->
    let s1 := done_setDirOnce
                (emit [EvStdLog [Text msgMkdirFailed;
                                 Text (Filepath.Clean path);
                                 Err (ErrMkdirAll (Filepath.Clean path))]] s) in
    SetDir path env s = Ret s1
    /\ dirPathValue s = "" /\ dirPathValue s1 = ""
    /\ dateStr s1 = dateStr s /\ (forall v, sink v s1 = sink v s)
    /\ forall cs s2,
         run cs s1 = Ret s2 ->
         forall env' v args,
           let now := Now env' (locationValue s2) in
           let file := logName (Format_date_dash now) v in
           OpenFile env' file = true ->
           exists s3 pre,
             step (env', OpPrintln v args) s2 = Ret s3
             /\ events s3
                = (events s2 ++ pre
                   ++ deliver (fanout s2 file)
                        (Fmt.Sprintln (VString (timePrefix now)
                                       :: VString (levelString v) :: args)))%list
             /\ noWrite pre = true.
Proof.
  intros s env path R NE S O MK s1.
  pose proof (reachable_Inv s R) as I.
  assert (E : SetDir path env s = Ret s1).
  { unfold SetDir. apply String.eqb_neq in NE. rewrite NE, S, O, MK. reflexivity. }
  assert (D : dirPathValue s = "") by (apply (inv_dir_once s I), O).
  split; [exact E|]. split; [exact D|]. split; [exact D|].
  split; [reflexivity|]. split; [intros v; destruct v; reflexivity|].
  intros cs s2 Rn env' v args now file OF.
  assert (I1 : Inv s1) by (eapply SetDir_Inv; eassumption).
  assert (I2 : Inv s2) by (eapply run_Inv; eassumption).
  assert (D2 : dirPathValue s2 = "").
  { destruct (run_monotone cs s1) as (_ & _ & C).
    specialize (C FnSetDir (or_intror eq_refl)). rewrite Rn in C.
    cbn [stateOf cell] in C. injection C as C. rewrite C. exact D. }
  assert (J : Filepath.Join (dirPathValue s2) (logName (Format_date_dash now) v)
              = file).
  { rewrite D2. apply Join_unset, Format_date_dash_plain. }
  rewrite step_Println by assumption. unfold Println.
  destruct (write_returns v env'
    (fun ws ts level => Logger_Println ws (VString ts :: VString level :: args))
    s2 I2) as (s3 & W).
  { fold now. rewrite J. exact OF. }
  pose proof (write_spec v env'
    (fun ws ts level => Logger_Println ws (VString ts :: VString level :: args))
    s2 I2) as H.
  cbv zeta in H. rewrite W in H. fold now in H. rewrite J in H.
  destruct H as (_ & _ & _ & pre & Ev & N).
  exists s3, pre. split; [exact W|]. split; [|exact N].
  rewrite Ev, Logger_Println_bytes. reflexivity.
Qed.

Lemma SetDir_failure_falls_back_witness :
  (reachable (init envNoMkdir) /\ "block/subdir" <> ""
   /\ started (init envNoMkdir) = false /\ setDirOnce (init envNoMkdir) = false
   /\ MkdirAll envNoMkdir (Filepath.Clean "block/subdir") = false)
  /\ SetDir "block/subdir" envNoMkdir (init envNoMkdir)
     = Ret (done_setDirOnce
              (emit [EvStdLog [Text msgMkdirFailed; Text "block/subdir";
                               Err (ErrMkdirAll "block/subdir")]]
                 (init envNoMkdir)))
  /\ exists s3 pre,
       step (envNoMkdir, OpPrintln levelInfo [VString "dir-fallback"])
         (done_setDirOnce
            (emit [EvStdLog [Text msgMkdirFailed; Text "block/subdir";
                             Err (ErrMkdirAll "block/subdir")]]
               (init envNoMkdir)))
       = Ret s3
       /\ events s3
          = ([EvStdLog [Text msgMkdirFailed; Text "block/subdir";
                        Err (ErrMkdirAll "block/subdir")]] ++ pre
             ++ [EvWrite (FileWriter "2024-01-02.info.log")
                   ("2024/01/02 03:04:05.000006 INFO dir-fallback" ++ Str.nl)])%list
       /\ noWrite pre = true.
Proof.
  assert (N : "block/subdir" <> "") by discriminate.
  split; [repeat split; try reflexivity; try exact N; apply reachable_init|].
  destruct (SetDir_failure_falls_back (init envNoMkdir) envNoMkdir "block/subdir"
              (reachable_init envNoMkdir) N eq_refl eq_refl eq_refl)
    as (A & _ & _ & _ & _ & W).
  split; [exact A|].
  exact (W [] _ eq_refl envNoMkdir levelInfo [VString "dir-fallback"] eq_refl).
Defined.

(** C10: a [SetDir] that fails to create its directory has used up the
    latch: whatever calls follow, the directory stays unset, and a later
    [SetDir], creatable path or not, returns with the state untouched. *)
Theorem SetDir_failure_consumes_latch :
  forall s envP P,
    reachable s ->
    P <> "" -> started s = false -> setDirOnce s = false ->
    MkdirAll envP (Filepath.Clean P) = false ->
    exists s1,
      SetDir P envP s = Ret s1
      /\ setDirOnce s1 = true
      /\ forall cs,
           dirPathValue (stateOf (run cs s1)) = ""
           /\ forall envQ Q,
                step (envQ, OpSetDir Q) (stateOf (run cs s1))
                = Ret (stateOf (run cs s1)).
Proof.
  intros s envP P R NE S O MK.
  pose proof (reachable_Inv s R) as I.
  eexists. split.
  { unfold SetDir. apply String.eqb_neq in NE. rewrite NE, S, O, MK. reflexivity. }
  split; [reflexivity|].
  intros cs.
  match goal with |- context [run cs ?x] => set (s1 := x) end.
  destruct (run_monotone cs s1) as (_ & M & C).
  split.
  - specialize (C FnSetDir (or_intror eq_refl)). cbn [cell] in C.
    injection C as C. rewrite C. apply (inv_dir_once s I), O.
  - intros envQ Q. apply (config_noop FnSetDir); [reflexivity|].
    right; right. apply (M FnSetDir). reflexivity.
Qed.

Lemma SetDir_failure_consumes_latch_witness :
  (reachable (init envNoMkdir) /\ "block/subdir" <> ""
   /\ started (init envNoMkdir) = false /\ setDirOnce (init envNoMkdir) = false
   /\ MkdirAll envNoMkdir (Filepath.Clean "block/subdir") = false)
  /\ exists s1,
       SetDir "block/subdir" envNoMkdir (init envNoMkdir) = Ret s1
       /\ setDirOnce s1 = true
       /\ dirPathValue (stateOf (run [(env0, OpSetDir "/tmp/logs")] s1)) = ""
       /\ MkdirAll env0 (Filepath.Clean "/tmp/logs") = true.
Proof.
  assert (N : "block/subdir" <> "") by discriminate.
  split; [repeat split; try reflexivity; try exact N; apply reachable_init|].
  destruct (SetDir_failure_consumes_latch (init envNoMkdir) envNoMkdir
              "block/subdir" (reachable_init envNoMkdir) N eq_refl eq_refl eq_refl)
    as (s1 & A & B & C).
  exists s1. split; [exact A|]. split; [exact B|].
  split; [exact (proj1 (C [(env0, OpSetDir "/tmp/logs")]))|reflexivity].
Defined.

(** The claim of C8 fails for a call after the first write: the name
    [Invalid/Zone] is not the default and not in the database, and the
    call returns with the state untouched. *)
Lemma SetTimezone_invalid_after_write_returns :
  exists s,
    run [(env0, OpPrintln levelInfo [VString "hello"])] (init env0) = Ret s
    /\ "Invalid/Zone" <> "Asia/Shanghai"
    /\ LoadLocation env0 "Invalid/Zone" = None
    /\ SetTimezone "Invalid/Zone" env0 s = Ret s.
Proof.
  eexists. split; [reflexivity|]. split; [discriminate|].
  split; reflexivity.
Qed.

(** C8, amended: a [SetTimezone] call that gets to its closure (a
    non-empty name, before any write, the latch not fired) with a name
    that is not the built-in default and that the database does not know
    logs the diagnostic and ends the process with status 1: nothing is
    stored and nothing is returned.  With the default name the same call
    stores the fixed +8 zone and returns whatever the database holds.  A
    call after the freeze or after the latch has fired returns with the
    state untouched, whatever the name. *)
Theorem SetTimezone_invalid_exits :
  forall s env name,
    name <> "" -> started s = false -> setTimezoneOnce s = false ->
    (name <> "Asia/Shanghai" -> LoadLocation env name = None ->
     SetTimezone name env s
     = Exit 1 (emit [EvStdLog [Text msgLoadTimezoneFailed; Text name;
                               Err (ErrLoadLocation name)]] s))
    /\ (name = "Asia/Shanghai" ->
        exists s', SetTimezone name env s = Ret s'
                   /\ locationValue s' = FixedZone "Asia/Shanghai" (8 * 3600)
                   /\ setTimezoneOnce s' = true
                   /\ forall env',
                        Now env' = Now env ->
                        SetTimezone name env' s = Ret s')
    /\ (forall s2 env2,
          started s2 = true \/ setTimezoneOnce s2 = true ->
          SetTimezone name env2 s2 = Ret s2).
Proof.
  intros s env name NE S O. apply String.eqb_neq in NE.
  split; [|split].
  - intros ND L. apply String.eqb_neq in ND.
    unfold SetTimezone, resolveZone. rewrite NE, S, O, ND, L. reflexivity.
  - intros ->. eexists. split; [|split; [|split]].
    + unfold SetTimezone, resolveZone. rewrite S, O. reflexivity.
    + reflexivity.
    + reflexivity.
    + intros env' EN. unfold SetTimezone, resolveZone. rewrite S, O.
      cbn [String.eqb Ascii.eqb Bool.eqb]. unfold nowInLocation. rewrite EN.
      reflexivity.
  - intros s2 env2 H.
    apply (config_noop FnSetTimezone (OpSetTimezone name)); [reflexivity|].
    right. exact H.
Qed.

Lemma SetTimezone_invalid_exits_witness :
  ("Invalid/Zone" <> "" /\ started (init env0) = false
   /\ setTimezoneOnce (init env0) = false
   /\ "Invalid/Zone" <> "Asia/Shanghai" /\ LoadLocation env0 "Invalid/Zone" = None)
  /\ SetTimezone "Invalid/Zone" env0 (init env0)
     = Exit 1 (emit [EvStdLog [Text msgLoadTimezoneFailed; Text "Invalid/Zone";
                               Err (ErrLoadLocation "Invalid/Zone")]]
                 (init env0)).
Proof.
  assert (N1 : "Invalid/Zone" <> "") by discriminate.
  assert (N2 : "Invalid/Zone" <> "Asia/Shanghai") by discriminate.
  split; [repeat split; try reflexivity; assumption|].
  exact (proj1 (SetTimezone_invalid_exits (init env0) env0 "Invalid/Zone"
                  N1 eq_refl eq_refl) N2 eq_refl).
Defined.

(* ================================================================= *)
(** ** Witnesses of the one-shot and rotation theorems *)

Lemma first_call_wins_witness :
  ("/tmp/a/" <> "" /\ started (init env0) = false /\ setDirOnce (init env0) = false
   /\ MkdirAll env0 (Filepath.Clean "/tmp/a/") = true)
  /\ exists s',
       run [(env0, OpSetDir "/tmp/a/"); (env0, OpSetDir "/tmp/b")] (init env0) = Ret s'
       /\ dirPathValue s' = "/tmp/a".
Proof.
  assert (N : "/tmp/a/" <> "") by discriminate.
  split; [repeat split; try reflexivity; exact N|].
  destruct (proj2 (proj2 first_call_wins) "/tmp/a/" "/tmp/b" env0 env0 (init env0)
              N eq_refl) as (sA & _ & R & D).
  exists sA. split; [exact R|exact (D eq_refl eq_refl)].
Defined.

Lemma frozen_after_first_write_witness :
  (isWrite (OpPrintln levelInfo [VString "hello"]) = true)
  /\ started (stateOf (step (env0, OpPrintln levelInfo [VString "hello"]) (init env0)))
     = true
  /\ config (stateOf (run [(env0, OpSetDir "/tmp/b"); (env0, OpAppendWriter [7])]
                        (stateOf (step (env0, OpPrintln levelInfo [VString "hello"])
                                    (init env0)))))
     = config (init env0).
Proof.
  split; [reflexivity|].
  destruct (frozen_after_first_write env0 (OpPrintln levelInfo [VString "hello"])
              (init env0) _ eq_refl eq_refl) as (A & B).
  split; [exact A|].
  exact (proj1 (proj2 (B [(env0, OpSetDir "/tmp/b"); (env0, OpAppendWriter [7])]))).
Defined.

Lemma rotateIfNeeded_same_day_noop_witness :
  Format_date_dash t0 = dateStr (init env0)
  /\ rotateIfNeeded t0 (init env0) = init env0.
Proof.
  split; [reflexivity|].
  exact (proj1 (proj1 rotateIfNeeded_same_day_noop (init env0) t0 eq_refl)).
Defined.

Lemma empty_argument_keeps_latch_witness :
  (configFn (OpSetDir "") = Some FnSetDir /\ emptyArg (OpSetDir "") = true)
  /\ step (env0, OpSetDir "") (init env0) = Ret (init env0)
  /\ exists s',
       run [(env0, OpSetDir ""); (env0, OpSetDir "logs")] (init env0) = Ret s'
       /\ cell FnSetDir s' = CDir "logs" /\ onceDone FnSetDir s' = true.
Proof.
  split; [split; reflexivity|].
  destruct (empty_argument_keeps_latch FnSetDir (OpSetDir "") env0 (init env0)
              eq_refl eq_refl) as (A & B).
  split; [exact A|].
  exact (B (OpSetDir "logs") env0 (CDir "logs") eq_refl eq_refl eq_refl eq_refl
           eq_refl).
Defined.

(* ================================================================= *)
(** ** A forced rotation on the same day *)

Lemma setFileName_same l : setFileName (l_fileName l) l = (l, []).
Proof. unfold setFileName. rewrite String.eqb_refl. reflexivity. Qed.

(** X1: [rotate], the unconditional rotation, is also a no-op when neither
    the day nor the directory has changed: [setFileName] finds every
    name as it is and leaves the handles alone. *)
Lemma rotate_same_day_noop s :
  reachable s -> rotate (dateStr s) s = s.
Proof.
  intros R. pose proof (reachable_Inv s R) as I.
  pose proof (inv_fast s I) as F.
  destruct (inv_sinks s I levelDebug) as (ld & Ad & _ & Cd & _).
  destruct (inv_sinks s I levelInfo) as (li & Ai & _ & Ci & _).
  destruct (inv_sinks s I levelWarning) as (lw & Aw & _ & Cw & _).
  destruct (inv_sinks s I levelError) as (le & Ae & _ & Ce & _).
  unfold rotate, rotateLocked.
  destruct s as [d i w e ds df st o1 o2 o3 dir loc ws evs].
  cbn [sink DebugL InfoL WarningL ErrorL dateStr dateFast dirPathValue
       started setTimezoneOnce appendWriterOnce setDirOnce locationValue
       writersValue events option_map] in *.
  subst d i w df. destruct e as [[le']|]; [|discriminate Ae].
  cbn [option_map el_logger] in Ae. injection Ae as ->.
  cbn [el_logger].
  change (ds ++ ".debug.log") with (logName ds levelDebug).
  change (ds ++ ".info.log") with (logName ds levelInfo).
  change (ds ++ ".warning.log") with (logName ds levelWarning).
  change (ds ++ ".error.log") with (logName ds levelError).
  rewrite <- Cd, <- Ci, <- Cw, <- Ce, !setFileName_same.
  cbn [fst snd]. rewrite !app_nil_r. reflexivity.
Qed.

Lemma rotate_same_day_noop_witness :
  reachable (stateOf (step (env0, OpPrintln levelInfo [VString "a"]) (init env0)))
  /\ rotate "2024-01-02"
       (stateOf (step (env0, OpPrintln levelInfo [VString "a"]) (init env0)))
     = stateOf (step (env0, OpPrintln levelInfo [VString "a"]) (init env0)).
Proof.
  assert (R : reachable (stateOf (step (env0, OpPrintln levelInfo [VString "a"])
                                    (init env0)))).
  { exists env0, [(env0, OpPrintln levelInfo [VString "a"])]. reflexivity. }
  split; [exact R|]. exact (rotate_same_day_noop _ R).
Defined.

(* ================================================================= *)
(** ** The exact effect of a write *)

Lemma rotateIfNeeded_today now s :
  Format_date_dash now = dateStr s -> rotateIfNeeded now s = s.
Proof.
  intros H. unfold rotateIfNeeded, rotateIfDateChanged.
  destruct (dateFast s =? Format_date_dash now); [reflexivity|].
  rewrite H, String.eqb_refl. reflexivity.
Qed.

Lemma rotateIfNeeded_newday now s :
  dateFast s = dateStr s -> Format_date_dash now <> dateStr s ->
  rotateIfNeeded now s = rotateLocked (Format_date_dash now) s.
Proof.
  intros F N. unfold rotateIfNeeded, rotateIfDateChanged. rewrite F.
  assert (E : (dateStr s =? Format_date_dash now) = false).
  { apply String.eqb_neq. congruence. }
  rewrite E. reflexivity.
Qed.

(** A write, step by step: after the freeze and the rotation check, the
    sink of the level is named after today; an open sink is written to
    as it is; a closed one is opened first, and the process ends if that
    fails. *)
Lemma write_exact v env print s :
  Inv s ->
  let now := Now env (locationValue s) in
  let s2 := rotateIfNeeded now (freezeConfig s) in
  let path := Filepath.Join (dirPathValue s) (logName (Format_date_dash now) v) in
  exists l,
    sink v s2 = Some l /\ l_level l = v /\ l_fileName l = path
    /\ handleOK true (writersValue s) l
    /\ write v env print s
       = match l_logger l with
         | Some ws =>
             Ret (emit (print ws (timePrefix now) (levelString v))
                    (setSink v l s2))
         | None =>
             if OpenFile env path then
               Ret (emit ([EvOpen path]
                          ++ print (fanout s path) (timePrefix now) (levelString v))
                      (setSink v (mkLogger (Some (fanout s path)) (Some path) path v)
                         s2))
             else
               Exit 1 (emit [EvStdLog [Text msgOpenFailed;
                                       Err (ErrOpenFile path)]] s2)
         end.
Proof.
  intros I now s2 path.
  pose proof (freeze_rotate env s I) as FR. cbv zeta in FR. fold now in FR.
  fold s2 in FR.
  destruct FR as (I2 & S2 & D2 & Q2 & _).
  destruct (freezeConfig_Inv s I) as (_ & _ & Q1 & _ & _).
  assert (L : locationValue (freezeConfig s) = locationValue s).
  { destruct Q1 as (C & _). unfold config in C. congruence. }
  assert (CF : config s2 = config s) by apply Q2.
  unfold config in CF. injection CF as CD CL CW.
  destruct (inv_sinks s I v) as (l0 & A0 & _).
  destruct (inv_sinks s2 I2 v) as (l & A & B & C & H).
  rewrite CD, D2 in C. fold path in C. rewrite S2, CW in H.
  exists l. split; [exact A|]. split; [exact B|]. split; [exact C|].
  split; [exact H|].
  unfold write, nowInLocation. rewrite L. fold now. fold s2.
  rewrite A0, A. unfold ensureLoggerLocked, withFileWriter.
  rewrite C, CW, B.
  destruct (l_logger l) as [ws|]; [reflexivity|].
  destruct (OpenFile env path); reflexivity.
Qed.

Lemma Inv_open s v l f :
  Inv s -> sink v s = Some l -> l_file l = Some f ->
  started s = true /\ f = l_fileName l
  /\ f = Filepath.Join (dirPathValue s) (logName (dateStr s) v)
  /\ l_logger l = Some (fanout s f).
Proof.
  intros I A F. destruct (inv_sinks s I v) as (l' & A' & _ & C & H).
  rewrite A in A'. injection A' as <-.
  destruct H as [[_ H]|(S & H1 & H2)]; [congruence|].
  rewrite F in H2. injection H2 as ->. unfold fanout. auto.
Qed.

Lemma Inv_closed s v l :
  Inv s -> sink v s = Some l -> l_file l = None -> l_logger l = None.
Proof.
  intros I A F. destruct (inv_sinks s I v) as (l' & A' & _ & _ & H).
  rewrite A in A'. injection A' as <-.
  destruct H as [[H _]|(_ & _ & H)]; [exact H|congruence].
Qed.

Lemma sink_setSink_id v l s :
  sink v s = Some l -> forall v', sink v' (setSink v l s) = sink v' s.
Proof.
  intros A v'. destruct (logLevel_eq_dec v v') as [<-|N].
  - rewrite sink_setSink_same. symmetry. exact A.
  - apply sink_setSink_other, N.
Qed.

Lemma freezeConfig_started s : started s = true -> freezeConfig s = s.
Proof. unfold freezeConfig. intros ->. reflexivity. Qed.

Lemma run_snoc cs c : forall s s1 s2,
  run cs s = Ret s1 -> step c s1 = Ret s2 -> run (cs ++ [c]) s = Ret s2.
Proof.
  induction cs as [|c0 cs IH]; intros s s1 s2; cbn [run app].
  - intros [= <-] ->. reflexivity.
  - destruct (step c0 s) as [s0| |]; try discriminate. apply IH.
Qed.

Lemma reachable_step c s s' : reachable s -> step c s = Ret s' -> reachable s'.
Proof.
  intros (env & cs & R) St. exists env, (cs ++ [c])%list.
  eapply run_snoc; eassumption.
Qed.

(* ================================================================= *)
(** ** Start-up *)

(** X2: after [init] nothing has been opened, written or logged, the
    configuration is at its defaults and still open, the day key is
    today's in the default +8 zone, and every level has a sink without
    handle whose file is [<day>.<level>.log] in the working directory. *)
Theorem init_state :
  forall env,
    let day := Format_date_dash (Now env defaultLocation) in
    started (init env) = false /\ events (init env) = []
    /\ config (init env) = ("", defaultLocation, [])
    /\ (forall f, onceDone f (init env) = false)
    /\ dateStr (init env) = day /\ dateFast (init env) = day
    /\ forall v, sink v (init env) = Some (newLogger v (logName day v)).
Proof.
  intros env day.
  split; [reflexivity|]. split; [reflexivity|]. split; [reflexivity|].
  split; [intros f; destruct f; reflexivity|].
  split; [reflexivity|]. split; [reflexivity|].
  intros v.
  pose proof (Join_unset _ (Format_date_dash_plain (Now env defaultLocation) v)) as J.
  fold day in J.
  destruct v; unfold init, rotate, nowInLocation;
    cbn [rotateLocked sink DebugL InfoL WarningL ErrorL preInit dirPathValue
         locationValue fst option_map newLogger newErrorLogger el_logger];
    fold day.
  - change (day ++ ".debug.log") with (logName day levelDebug). rewrite J. reflexivity.
  - change (day ++ ".info.log") with (logName day levelInfo). rewrite J. reflexivity.
  - change (day ++ ".warning.log") with (logName day levelWarning). rewrite J. reflexivity.
  - change (day ++ ".error.log") with (logName day levelError). rewrite J. reflexivity.
Qed.

(* ================================================================= *)
(** ** How a call can end *)

(** X3: from a reachable state no call goes through a nil sink; a call that
    ends the process does so with status 1 and is a write or
    [SetTimezone]; [Fatalln] and [Fatalf] never return; a call that
    returns leaves a reachable state. *)
Theorem step_outcomes :
  forall s env op,
    reachable s ->
    match step (env, op) s with
    | Ret s' => reachable s' /\ isFatal op = false
    | Exit code _ =>
        code = 1 /\ (isWrite op = true \/ configFn op = Some FnSetTimezone)
    | NilDeref _ => False
    end.
Proof.
  intros s env op R. pose proof (reachable_Inv s R) as I.
  pose proof (reachable_step (env, op) s) as RS.
  assert (W : forall v print,
    match write v env print s with
    | Ret _ => True
    | Exit code _ => code = 1
    | NilDeref _ => False
    end).
  { intros v print. pose proof (write_spec v env print s I) as H. cbv zeta in H.
    destruct (write v env print s); [exact Logic.I|apply H|exact H]. }
  assert (E : ErrorL s <> None).
  { destruct (inv_sinks s I levelError) as (l & A & _). cbn [sink] in A.
    destruct (ErrorL s); [discriminate|discriminate A]. }
  destruct op.
  - destruct (step (env, OpSetDir path) s) as [s'|code s'|s'] eqn:St;
      [split; [apply RS; [exact R|reflexivity]|reflexivity]| |];
      unfold step in St; cbn [fst snd] in St; unfold SetDir in St;
      destruct (path =? ""), (started s), (setDirOnce s),
        (negb (MkdirAll env (Filepath.Clean path))); discriminate St.
  - destruct (step (env, OpSetTimezone name) s) as [s'|code s'|s'] eqn:St;
      [split; [apply RS; [exact R|reflexivity]|reflexivity]| |];
      unfold step in St; cbn [fst snd] in St; unfold SetTimezone in St;
      destruct (name =? ""), (started s), (setTimezoneOnce s),
        (resolveZone env name); try discriminate St.
    injection St as <- _. split; [reflexivity|right; reflexivity].
  - destruct (step (env, OpAppendWriter writer) s) as [s'|code s'|s'] eqn:St;
      [split; [apply RS; [exact R|reflexivity]|reflexivity]| |];
      unfold step in St; cbn [fst snd] in St; unfold AppendWriter in St;
      destruct (List.length writer =? 0)%nat, (started s), (appendWriterOnce s);
      discriminate St.
  - rewrite step_Println by assumption. unfold Println.
    specialize (W v (fun ws ts level =>
      Logger_Println ws (VString ts :: VString level :: args))).
    destruct (write v env _ s) as [s'|code s'|s'] eqn:St.
    + split; [|reflexivity]. apply RS; [exact R|].
      rewrite step_Println by assumption. exact St.
    + split; [exact W|left; reflexivity].
    + exact W.
  - rewrite step_Printf by assumption. unfold Printf.
    specialize (W v (fun ws ts level =>
      Logger_Printf (FmtRest env) ws (ts ++ " " ++ level ++ " " ++ format) args)).
    destruct (write v env _ s) as [s'|code s'|s'] eqn:St.
    + split; [|reflexivity]. apply RS; [exact R|].
      rewrite step_Printf by assumption. exact St.
    + split; [exact W|left; reflexivity].
    + exact W.
  - unfold step; cbn [fst snd]. unfold Fatalln, Error_Println, Println.
    destruct (ErrorL s); [|congruence].
    specialize (W levelError (fun ws ts level =>
      Logger_Println ws (VString ts :: VString level :: args))).
    destruct (write levelError env _ s); cbn [thenExit1];
      [split; [reflexivity|left; reflexivity]
      |split; [exact W|left; reflexivity]|exact W].
  - unfold step; cbn [fst snd]. unfold Fatalf, Error_Printf, Printf.
    destruct (ErrorL s); [|congruence].
    specialize (W levelError (fun ws ts level =>
      Logger_Printf (FmtRest env) ws (ts ++ " " ++ level ++ " " ++ format) args)).
    destruct (write levelError env _ s); cbn [thenExit1];
      [split; [reflexivity|left; reflexivity]
      |split; [exact W|left; reflexivity]|exact W].
  - destruct (step (env, OpClose v) s) as [s'|code s'|s'] eqn:St;
      [split; [apply RS; [exact R|reflexivity]|reflexivity]| |];
      unfold step in St; cbn [fst snd] in St; unfold Close in St;
      destruct (inv_sinks s I v) as (l & A & _); rewrite A in St;
      destruct (l_file l); discriminate St.
Qed.

Lemma step_outcomes_witness :
  reachable (init env0)
  /\ match step (env0, OpFatalln [VString "boom"]) (init env0) with
     | Ret _ => False
     | Exit code _ => code = 1
     | NilDeref _ => False
     end.
Proof.
  split; [apply reachable_init|].
  pose proof (step_outcomes (init env0) env0 (OpFatalln [VString "boom"])
                (reachable_init env0)) as H.
  destruct (step (env0, OpFatalln [VString "boom"]) (init env0));
    [destruct H as [_ H]; discriminate H|exact (proj1 H)|exact H].
Defined.

(* ================================================================= *)
(** ** The rotation check *)

(** X4: the lock-free snapshot always equals the day key, so the fast path
    of [rotateIfNeeded] never changes what the locked check would do. *)
Theorem fast_path_transparent :
  forall s now,
    reachable s ->
    dateFast s = dateStr s
    /\ rotateIfNeeded now s = rotateIfDateChanged (Format_date_dash now) s.
Proof.
  intros s now R. pose proof (inv_fast s (reachable_Inv s R)) as F.
  split; [exact F|].
  unfold rotateIfNeeded, rotateIfDateChanged. rewrite F.
  destruct (dateStr s =? Format_date_dash now); reflexivity.
Qed.

Lemma fast_path_transparent_witness :
  reachable (init env0)
  /\ rotateIfNeeded (mkTime 2024 1 3 0 0 0 0) (init env0)
     = rotateIfDateChanged "2024-01-03" (init env0).
Proof.
  split; [apply reachable_init|].
  exact (proj2 (fast_path_transparent (init env0) (mkTime 2024 1 3 0 0 0 0)
                  (reachable_init env0))).
Defined.

Lemma setFileName_handleStep n l :
  handleStep (l_file l) (l_file (fst (setFileName n l))) (snd (setFileName n l)).
Proof.
  unfold setFileName. destruct (l_fileName l =? n); [constructor|].
  destruct (l_file l); constructor.
Qed.

(** A rotation only keeps or closes handles, sink by sink, Debug first. *)
Lemma rotateLocked_handles date s :
  exists cd ci cw ce,
    events (rotateLocked date s) = (events s ++ cd ++ ci ++ cw ++ ce)%list
    /\ handleStep (fileOf levelDebug s) (fileOf levelDebug (rotateLocked date s)) cd
    /\ handleStep (fileOf levelInfo s) (fileOf levelInfo (rotateLocked date s)) ci
    /\ handleStep (fileOf levelWarning s)
         (fileOf levelWarning (rotateLocked date s)) cw
    /\ handleStep (fileOf levelError s) (fileOf levelError (rotateLocked date s)) ce.
Proof.
  unfold fileOf.
  cbn [rotateLocked events sink DebugL InfoL WarningL ErrorL option_map fileOfSink].
  do 4 eexists. split; [reflexivity|].
  split; [|split; [|split]].
  - destruct (DebugL s) as [l|]; cbn [fst snd fileOfSink newLogger l_file];
      [apply setFileName_handleStep|constructor].
  - destruct (InfoL s) as [l|]; cbn [fst snd fileOfSink newLogger l_file];
      [apply setFileName_handleStep|constructor].
  - destruct (WarningL s) as [l|]; cbn [fst snd fileOfSink newLogger l_file];
      [apply setFileName_handleStep|constructor].
  - destruct (ErrorL s) as [el|];
      cbn [fst snd fileOfSink newErrorLogger l_file el_logger option_map];
      [apply setFileName_handleStep|constructor].
Qed.

Lemma handleStep_closed o' evs : handleStep None o' evs -> evs = [] -> o' = None.
Proof. intros H. inversion H; subst; [reflexivity|discriminate]. Qed.

Lemma rotateLocked_keeps_closed date s v :
  fileOf v s = None -> fileOf v (rotateLocked date s) = None.
Proof.
  intros C. destruct (rotateLocked_handles date s)
    as (cd & ci & cw & ce & _ & Hd & Hi & Hw & He).
  destruct v; rewrite C in *;
    match goal with
    | H : handleStep None (fileOf ?v _) _ |- fileOf ?v _ = None =>
        unfold fileOf in *; cbn [rotateLocked sink DebugL InfoL WarningL ErrorL
                                 option_map fileOfSink] in *;
        clear - H C
    end.
  - destruct (DebugL s) as [l|]; [|reflexivity]. cbn [fileOfSink] in C.
    unfold setFileName. destruct (l_fileName l =? _); [exact C|].
    rewrite C. reflexivity.
  - destruct (InfoL s) as [l|]; [|reflexivity]. cbn [fileOfSink] in C.
    unfold setFileName. destruct (l_fileName l =? _); [exact C|].
    rewrite C. reflexivity.
  - destruct (WarningL s) as [l|]; [|reflexivity]. cbn [fileOfSink] in C.
    unfold setFileName. destruct (l_fileName l =? _); [exact C|].
    rewrite C. reflexivity.
  - destruct (ErrorL s) as [el|]; [|reflexivity].
    cbn [fileOfSink option_map el_logger fst] in *.
    unfold setFileName. destruct (l_fileName (el_logger el) =? _); [exact C|].
    rewrite C. reflexivity.
Qed.

Lemma freezeConfig_fileOf v s : fileOf v (freezeConfig s) = fileOf v s.
Proof.
  unfold fileOf, freezeConfig. destruct (started s); [reflexivity|].
  destruct v; reflexivity.
Qed.

Lemma rotateIfNeeded_keeps_closed now s v :
  fileOf v s = None -> fileOf v (rotateIfNeeded now (freezeConfig s)) = None.
Proof.
  intros C. rewrite <- freezeConfig_fileOf in C.
  unfold rotateIfNeeded, rotateIfDateChanged.
  destruct (dateFast (freezeConfig s) =? Format_date_dash now); [exact C|].
  destruct (negb (dateStr (freezeConfig s) =? Format_date_dash now)); [|exact C].
  apply rotateLocked_keeps_closed, C.
Qed.

(* ================================================================= *)
(** ** Lines of Println *)

Lemma join_tail x args :
  Str.join " " (x :: map Fmt.show args) ++ Str.nl
  = x ++ fold_right (fun a rest => " " ++ Fmt.show a ++ rest) Str.nl args.
Proof.
  revert x. induction args as [|a args IH]; intros x; [reflexivity|].
  change (Str.join " " (x :: map Fmt.show (a :: args)))
    with (x ++ " " ++ Str.join " " (Fmt.show a :: map Fmt.show args)).
  rewrite !append_assoc, IH. reflexivity.
Qed.

Lemma Sprintln_line ts level args :
  Fmt.Sprintln (VString ts :: VString level :: args) = printlnLine ts level args.
Proof.
  unfold Fmt.Sprintln, printlnLine.
  change (map Fmt.show (VString ts :: VString level :: args))
    with (ts :: level :: map Fmt.show args).
  change (Str.join " " (ts :: level :: map Fmt.show args))
    with (ts ++ " " ++ Str.join " " (level :: map Fmt.show args)).
  rewrite !append_assoc, join_tail. reflexivity.
Qed.

Lemma printlnLine_newline ts level args :
  Str.endsWithNewline (printlnLine ts level args) = true.
Proof.
  rewrite <- Sprintln_line. unfold Fmt.Sprintln. apply endsWithNewline_nl.
Qed.

(** X5: a [Println] that returns hands every destination, extra writers first
    and the file of the level last, one and the same line: the timestamp,
    a space, the label of the level, every argument behind one space, and
    one newline; with no argument the label is followed by the newline.
    Before that it only closes or opens handles. *)
Theorem Println_line :
  forall s env v args s',
    reachable s ->
    step (env, OpPrintln v args) s = Ret s' ->
    let now := Now env (locationValue s) in
    let path := Filepath.Join (dirPathValue s) (logName (Format_date_dash now) v) in
    let line := printlnLine (timePrefix now) (levelString v) args in
    (exists pre,
        events s' = (events s ++ pre ++ deliver (fanout s path) line)%list
        /\ noWrite pre = true)
    /\ Str.endsWithNewline line = true.
Proof.
  intros s env v args s' R St now path line.
  pose proof (reachable_Inv s R) as I.
  rewrite step_Println in St by assumption.
  pose proof (write_spec v env
    (fun ws ts level => Logger_Println ws (VString ts :: VString level :: args))
    s I) as H.
  cbv zeta in H. unfold Println in St. rewrite St in H.
  destruct H as (_ & _ & _ & pre & E & N).
  split; [|apply printlnLine_newline].
  exists pre. split; [|exact N].
  rewrite E, Logger_Println_bytes, Sprintln_line. reflexivity.
Qed.

Lemma Println_line_witness :
  reachable (init env0)
  /\ exists pre,
       events (stateOf (step (env0, OpPrintln levelDebug [VString "n ="; VInt (-3)])
                          (init env0)))
       = (events (init env0) ++ pre
          ++ [EvWrite (FileWriter "2024-01-02.debug.log")
                ("2024/01/02 03:04:05.000006 DEBUG n = -3" ++ Str.nl)])%list
       /\ noWrite pre = true.
Proof.
  split; [apply reachable_init|].
  exact (proj1 (Println_line (init env0) env0 levelDebug [VString "n ="; VInt (-3)]
                  _ (reachable_init env0) eq_refl)).
Defined.

(* ================================================================= *)
(** ** Handles: reuse, Close, reopening, failure to open *)

Lemma events_setSink v l s : events (setSink v l s) = events s.
Proof. destruct v; reflexivity. Qed.

Lemma fileOf_emit v evs s : fileOf v (emit evs s) = fileOf v s.
Proof. unfold fileOf. rewrite sink_emit. reflexivity. Qed.

(** The exact effect of a write on a sink whose handle is open, on the
    day of the current day key. *)
Lemma write_reuses v env print s f :
  Inv s -> fileOf v s = Some f ->
  Format_date_dash (Now env (locationValue s)) = dateStr s ->
  exists s',
    write v env print s = Ret s'
    /\ events s'
       = (events s
          ++ print (fanout s f) (timePrefix (Now env (locationValue s)))
               (levelString v))%list
    /\ (forall v', sink v' s' = sink v' s)
    /\ f = Filepath.Join (dirPathValue s) (logName (dateStr s) v).
Proof.
  intros I F D. unfold fileOf in F.
  destruct (sink v s) as [l|] eqn:A; [|discriminate F]. cbn [fileOfSink] in F.
  destruct (Inv_open s v l f I A F) as (S & E1 & E2 & E3).
  destruct (write_exact v env print s I) as (l' & A' & _ & _ & _ & W).
  rewrite (freezeConfig_started s S), (rotateIfNeeded_today _ s D) in A', W.
  rewrite A in A'. injection A' as <-. rewrite E3 in W.
  eexists. split; [exact W|]. split; [|split].
  - cbn [events emit]. rewrite events_setSink. reflexivity.
  - intros v'. rewrite sink_emit. apply sink_setSink_id, A.
  - exact E2.
Qed.

(** X6: once the file of a level is open, a write on the same day goes
    straight to the destinations: nothing is opened or closed, the
    operating system is not asked to open anything, and no sink
    changes. *)
Theorem write_reuses_open_handle :
  forall s env v f,
    reachable s -> fileOf v s = Some f ->
    Format_date_dash (Now env (locationValue s)) = dateStr s ->
    let now := Now env (locationValue s) in
    (forall args, exists s',
        step (env, OpPrintln v args) s = Ret s'
        /\ events s'
           = (events s ++ deliver (fanout s f)
                           (printlnLine (timePrefix now) (levelString v) args))%list
        /\ forall v', sink v' s' = sink v' s)
    /\ (forall format args, exists s',
        step (env, OpPrintf v format args) s = Ret s'
        /\ events s'
           = (events s
              ++ Logger_Printf (FmtRest env) (fanout s f)
                   (timePrefix now ++ " " ++ levelString v ++ " " ++ format) args)%list
        /\ forall v', sink v' s' = sink v' s).
Proof.
  intros s env v f R F D now. pose proof (reachable_Inv s R) as I.
  split.
  - intros args. rewrite step_Println by assumption. unfold Println.
    destruct (write_reuses v env
      (fun ws ts level => Logger_Println ws (VString ts :: VString level :: args))
      s f I F D) as (s' & W & E & K & _).
    exists s'. split; [exact W|]. split; [|exact K].
    rewrite E, Logger_Println_bytes, Sprintln_line. reflexivity.
  - intros format args. rewrite step_Printf by assumption. unfold Printf.
    destruct (write_reuses v env
      (fun ws ts level => Logger_Printf (FmtRest env) ws (ts ++ " " ++ level ++ " " ++ format) args)
      s f I F D) as (s' & W & E & K & _).
    exists s'. split; [exact W|]. split; [exact E|exact K].
Qed.

Lemma write_reuses_open_handle_witness :
  (reachable (stateOf (step (env0, OpPrintln levelInfo [VString "a"]) (init env0)))
   /\ fileOf levelInfo
        (stateOf (step (env0, OpPrintln levelInfo [VString "a"]) (init env0)))
      = Some "2024-01-02.info.log")
  /\ exists s',
       step (mkEnv (fun _ => t0) (fun _ => false) (fun _ => false) (fun _ => None) noRest,
             OpPrintln levelInfo [VString "b"])
         (stateOf (step (env0, OpPrintln levelInfo [VString "a"]) (init env0)))
       = Ret s'
       /\ events s'
          = [EvOpen "2024-01-02.info.log";
             EvWrite (FileWriter "2024-01-02.info.log")
               ("2024/01/02 03:04:05.000006 INFO a" ++ Str.nl);
             EvWrite (FileWriter "2024-01-02.info.log")
               ("2024/01/02 03:04:05.000006 INFO b" ++ Str.nl)].
Proof.
  assert (R : reachable (stateOf (step (env0, OpPrintln levelInfo [VString "a"])
                                    (init env0)))).
  { exists env0, [(env0, OpPrintln levelInfo [VString "a"])]. reflexivity. }
  split; [split; [exact R|reflexivity]|].
  destruct (proj1 (write_reuses_open_handle _
                     (mkEnv (fun _ => t0) (fun _ => false) (fun _ => false)
                        (fun _ => None) noRest)
                     levelInfo "2024-01-02.info.log" R eq_refl eq_refl)
                  [VString "b"]) as (s' & St & E & _).
  exists s'. split; [exact St|exact E].
Defined.

(** X7: [Close] on a sink without handle returns with the state untouched.
    On a sink with a handle it closes that handle and clears logger and
    file, keeps the file name, touches no other sink and no
    configuration, cannot fail the call, and a second [Close] finds
    nothing to do. *)
Theorem Close_spec :
  forall s v,
    reachable s ->
    match fileOf v s with
    | None => Close v s = Ret s
    | Some f =>
        exists s' l l',
          Close v s = Ret s'
          /\ events s' = (events s ++ [EvClose f])%list
          /\ sink v s = Some l /\ sink v s' = Some l'
          /\ l_file l' = None /\ l_logger l' = None
          /\ l_fileName l' = l_fileName l /\ l_level l' = l_level l
          /\ (forall v', v' <> v -> sink v' s' = sink v' s)
          /\ config s' = config s /\ started s' = started s
          /\ dateStr s' = dateStr s
          /\ Close v s' = Ret s'
    end.
Proof.
  intros s v R. pose proof (reachable_Inv s R) as I.
  destruct (inv_sinks s I v) as (l & A & _).
  unfold fileOf, Close. rewrite A. cbn [fileOfSink].
  destruct (l_file l) as [f|] eqn:F; [|reflexivity].
  eexists. exists l. eexists.
  split; [reflexivity|]. split; [cbn [events emit]; rewrite events_setSink; reflexivity|].
  split; [reflexivity|].
  split; [rewrite sink_emit, sink_setSink_same; reflexivity|].
  cbn [l_file l_logger l_fileName l_level].
  repeat (split; [reflexivity|]).
  split; [intros v' N; rewrite sink_emit; apply sink_setSink_other; congruence|].
  split; [destruct v; reflexivity|]. split; [destruct v; reflexivity|].
  split; [destruct v; reflexivity|].
  rewrite sink_emit, sink_setSink_same. reflexivity.
Qed.

Lemma Close_spec_witness :
  reachable (stateOf (step (env0, OpPrintln levelInfo [VString "a"]) (init env0)))
  /\ exists s',
       Close levelInfo
         (stateOf (step (env0, OpPrintln levelInfo [VString "a"]) (init env0)))
       = Ret s'
       /\ events s'
          = [EvOpen "2024-01-02.info.log";
             EvWrite (FileWriter "2024-01-02.info.log")
               ("2024/01/02 03:04:05.000006 INFO a" ++ Str.nl);
             EvClose "2024-01-02.info.log"]
       /\ Close levelInfo s' = Ret s'.
Proof.
  assert (R : reachable (stateOf (step (env0, OpPrintln levelInfo [VString "a"])
                                    (init env0)))).
  { exists env0, [(env0, OpPrintln levelInfo [VString "a"])]. reflexivity. }
  split; [exact R|].
  pose proof (Close_spec _ levelInfo R) as H. cbv beta in H.
  change (fileOf levelInfo
            (stateOf (step (env0, OpPrintln levelInfo [VString "a"]) (init env0))))
    with (Some "2024-01-02.info.log") in H.
  destruct H as (s' & l & l' & C & E & _ & _ & _ & _ & _ & _ & _ & _ & _ & _ & C2).
  exists s'. split; [exact C|]. split; [exact E|exact C2].
Defined.

(** The exact effect of a write on a sink without handle, on the day of
    the current day key. *)
Lemma write_opens v env print s :
  Inv s -> fileOf v s = None ->
  let now := Now env (locationValue s) in
  let path := Filepath.Join (dirPathValue s) (logName (Format_date_dash now) v) in
  let s2 := rotateIfNeeded now (freezeConfig s) in
  write v env print s
  = if OpenFile env path then
      Ret (emit ([EvOpen path]
                 ++ print (fanout s path) (timePrefix now) (levelString v))
             (setSink v (mkLogger (Some (fanout s path)) (Some path) path v) s2))
    else Exit 1 (emit [EvStdLog [Text msgOpenFailed; Err (ErrOpenFile path)]]
                   s2).
Proof.
  intros I C now path s2.
  pose proof (freeze_rotate env s I) as FR. cbv zeta in FR.
  destruct FR as (I2 & _).
  destruct (write_exact v env print s I) as (l & A & _ & _ & _ & W).
  fold now in A, W, I2. fold s2 in A, W, I2. fold path in W.
  pose proof (rotateIfNeeded_keeps_closed now s v C) as C2. fold s2 in C2.
  unfold fileOf in C2. rewrite A in C2. cbn [fileOfSink] in C2.
  rewrite (Inv_closed s2 v l I2 A C2) in W. exact W.
Qed.

(** X8: after [Close] the next write on the same day opens the same file
    again and appends to it. *)
Theorem Close_then_write_reopens :
  forall s v f env args,
    reachable s -> fileOf v s = Some f ->
    Format_date_dash (Now env (locationValue s)) = dateStr s ->
    OpenFile env f = true ->
    exists s1 s2,
      run [(env, OpClose v); (env, OpPrintln v args)] s = Ret s2
      /\ Close v s = Ret s1
      /\ events s2
         = (events s ++ [EvClose f; EvOpen f]
            ++ deliver (fanout s f)
                 (printlnLine (timePrefix (Now env (locationValue s)))
                    (levelString v) args))%list
      /\ fileOf v s2 = Some f.
Proof.
  intros s v f env args R F D O.
  pose proof (reachable_Inv s R) as I.
  destruct (inv_sinks s I v) as (l & A & _).
  assert (Fl : l_file l = Some f).
  { unfold fileOf in F. rewrite A in F. exact F. }
  set (l' := mkLogger None None (l_fileName l) (l_level l)).
  set (s1 := emit [EvClose f] (setSink v l' s)).
  assert (C : Close v s = Ret s1).
  { unfold Close. rewrite A, Fl. reflexivity. }
  assert (E1 : events s1 = (events s ++ [EvClose f])%list).
  { subst s1. cbn [events emit]. rewrite events_setSink. reflexivity. }
  assert (A1 : sink v s1 = Some l').
  { subst s1. rewrite sink_emit. apply sink_setSink_same. }
  assert (F1 : l_file l' = None) by reflexivity.
  assert (CD : dirPathValue s1 = dirPathValue s)
    by (subst s1; destruct v; reflexivity).
  assert (CL : locationValue s1 = locationValue s)
    by (subst s1; destruct v; reflexivity).
  assert (CW : writersValue s1 = writersValue s)
    by (subst s1; destruct v; reflexivity).
  assert (S1 : started s1 = started s) by (subst s1; destruct v; reflexivity).
  assert (D1 : dateStr s1 = dateStr s) by (subst s1; destruct v; reflexivity).
  assert (R1 : reachable s1) by (eapply (reachable_step (env, OpClose v)); eauto).
  pose proof (reachable_Inv s1 R1) as I1.
  assert (P : f = Filepath.Join (dirPathValue s) (logName (dateStr s) v)).
  { unfold fileOf in F. rewrite A in F. cbn [fileOfSink] in F.
    apply (Inv_open s v l f I A F). }
  assert (C1 : fileOf v s1 = None) by (unfold fileOf; rewrite A1; exact F1).
  pose proof (write_opens v env
    (fun ws ts level => Logger_Println ws (VString ts :: VString level :: args))
    s1 I1 C1) as W.
  assert (T : started s = true).
  { unfold fileOf in F. rewrite A in F. cbn [fileOfSink] in F.
    apply (Inv_open s v l f I A F). }
  assert (T1 : started s1 = true) by congruence.
  cbv zeta in W. rewrite (freezeConfig_started s1 T1), CL in W.
  rewrite (rotateIfNeeded_today _ s1) in W by congruence.
  rewrite CD, D, <- P, O in W.
  exists s1. eexists. split; [|split; [exact C|split]].
  - cbn [run]. change (step (env, OpClose v) s) with (Close v s). rewrite C.
    rewrite step_Println by assumption. unfold Println. rewrite W. reflexivity.
  - cbn [events emit]. rewrite events_setSink, E1.
    rewrite Logger_Println_bytes, Sprintln_line. unfold fanout. rewrite CW.
    rewrite <- !app_assoc. reflexivity.
  - rewrite fileOf_emit. unfold fileOf. rewrite sink_setSink_same. reflexivity.
Qed.

Lemma Close_then_write_reopens_witness :
  (reachable (stateOf (step (env0, OpPrintln levelInfo [VString "a"]) (init env0)))
   /\ OpenFile env0 "2024-01-02.info.log" = true)
  /\ exists s2,
       run [(env0, OpClose levelInfo); (env0, OpPrintln levelInfo [VString "b"])]
         (stateOf (step (env0, OpPrintln levelInfo [VString "a"]) (init env0)))
       = Ret s2
       /\ fileOf levelInfo s2 = Some "2024-01-02.info.log".
Proof.
  assert (R : reachable (stateOf (step (env0, OpPrintln levelInfo [VString "a"])
                                    (init env0)))).
  { exists env0, [(env0, OpPrintln levelInfo [VString "a"])]. reflexivity. }
  split; [split; [exact R|reflexivity]|].
  destruct (Close_then_write_reopens _ levelInfo "2024-01-02.info.log" env0
              [VString "b"] R eq_refl eq_refl eq_refl) as (s1 & s2 & Rn & _ & _ & F).
  exists s2. split; [exact Rn|exact F].
Defined.

(** X10: [Fatalln] and [Fatalf] deliver the ERROR line to every destination the
    way [Println] and [Printf] do, and then end the process with
    status 1. *)
Theorem Fatal_writes_then_exits :
  forall s env,
    reachable s ->
    let now := Now env (locationValue s) in
    let path := Filepath.Join (dirPathValue s)
                  (logName (Format_date_dash now) levelError) in
    OpenFile env path = true ->
    (forall args, exists s' pre,
        step (env, OpFatalln args) s = Exit 1 s'
        /\ events s'
           = (events s ++ pre
              ++ deliver (fanout s path)
                   (printlnLine (timePrefix now) "ERROR" args))%list
        /\ noWrite pre = true)
    /\ (forall format args, exists s' pre,
        step (env, OpFatalf format args) s = Exit 1 s'
        /\ events s'
           = (events s ++ pre
              ++ Logger_Printf (FmtRest env) (fanout s path)
                   (timePrefix now ++ " ERROR " ++ format) args)%list
        /\ noWrite pre = true).
Proof.
  intros s env R now path O. pose proof (reachable_Inv s R) as I.
  assert (E : exists el, ErrorL s = Some el).
  { destruct (inv_sinks s I levelError) as (l & A & _). cbn [sink] in A.
    destruct (ErrorL s); [eauto|discriminate A]. }
  destruct E as (el & E).
  assert (G : forall print, exists s' pre,
    write levelError env print s = Ret s'
    /\ events s' = (events s ++ pre ++ print (fanout s path) (timePrefix now) "ERROR")%list
    /\ noWrite pre = true).
  { intros print.
    destruct (write_returns levelError env print s I O) as (s' & W).
    pose proof (write_spec levelError env print s I) as H. cbv zeta in H.
    rewrite W in H. destruct H as (_ & _ & _ & pre & Ev & N).
    exists s', pre. auto. }
  split.
  - intros args.
    destruct (G (fun ws ts level =>
      Logger_Println ws (VString ts :: VString level :: args)))
      as (s' & pre & W & Ev & N).
    exists s', pre. split; [|split; [|exact N]].
    + unfold step; cbn [fst snd]. unfold Fatalln, Error_Println, Println.
      rewrite E, W. reflexivity.
    + rewrite Ev, Logger_Println_bytes, Sprintln_line. reflexivity.
  - intros format args.
    destruct (G (fun ws ts level =>
      Logger_Printf (FmtRest env) ws (ts ++ " " ++ level ++ " " ++ format) args))
      as (s' & pre & W & Ev & N).
    exists s', pre. split; [|split; [|exact N]].
    + unfold step; cbn [fst snd]. unfold Fatalf, Error_Printf, Printf.
      rewrite E, W. reflexivity.
    + exact Ev.
Qed.

Lemma Fatal_writes_then_exits_witness :
  (reachable (init env0) /\ OpenFile env0 "2024-01-02.error.log" = true)
  /\ exists s' pre,
       step (env0, OpFatalln [VString "boom"]) (init env0) = Exit 1 s'
       /\ events s'
          = (events (init env0) ++ pre
             ++ [EvWrite (FileWriter "2024-01-02.error.log")
                   ("2024/01/02 03:04:05.000006 ERROR boom" ++ Str.nl)])%list
       /\ noWrite pre = true.
Proof.
  split; [split; [apply reachable_init|reflexivity]|].
  exact (proj1 (Fatal_writes_then_exits (init env0) env0 (reachable_init env0)
                  eq_refl) [VString "boom"]).
Defined.

(* ================================================================= *)
(** ** The first write of a new day *)

Lemma append_inv_head (a b c : string) : a ++ b = a ++ c -> b = c.
Proof. induction a as [|x a IH]; simpl; [auto|]. intros [= H]. auto. Qed.

Lemma append_inv_tail (c : string) : forall a b, a ++ c = b ++ c -> a = b.
Proof.
  induction a as [|x a IH]; intros b H.
  - destruct b as [|y b]; [reflexivity|].
    apply (f_equal String.length) in H. simpl in H.
    rewrite length_append in H. lia.
  - destruct b as [|y b].
    + apply (f_equal String.length) in H. simpl in H.
      rewrite length_append in H. lia.
    + simpl in H. injection H as -> H. f_equal. apply IH, H.
Qed.

Lemma logName_inj d d' v : logName d v = logName d' v -> d = d'.
Proof. unfold logName. apply append_inv_tail. Qed.

Lemma joinedPath_inj dir d d' v :
  joinedPath dir d v = joinedPath dir d' v -> d = d'.
Proof.
  unfold joinedPath.
  destruct (dir =? ""); [apply logName_inj|].
  destruct (dir =? "."); [apply logName_inj|].
  destruct (dir =? "/"); intros H; apply append_inv_head in H;
    [|apply append_inv_head in H]; eapply logName_inj, H.
Qed.

(** Different days give different files, whatever the directory. *)
Lemma Join_day_inj s d d' v :
  Inv s -> Str.free Str.slash d = true -> Str.free Str.slash d' = true ->
  Filepath.Join (dirPathValue s) (logName d v)
  = Filepath.Join (dirPathValue s) (logName d' v) ->
  d = d'.
Proof.
  intros I F F' H.
  destruct (inv_dir s I) as [E|(p & E)].
  - rewrite (Join_joinedPath "" d v F _ (or_introl E)),
      (Join_joinedPath "" d' v F' _ (or_introl E)) in H.
    eapply joinedPath_inj, H.
  - rewrite (Join_joinedPath p d v F _ (or_intror E)),
      (Join_joinedPath p d' v F' _ (or_intror E)) in H.
    eapply joinedPath_inj, H.
Qed.

Lemma setFileName_differs st ws n l :
  l_fileName l <> n -> handleOK st ws l ->
  setFileName n l
  = (mkLogger None None n (l_level l), map EvClose (ofl (l_file l))).
Proof.
  intros N H. unfold setFileName. apply String.eqb_neq in N. rewrite N.
  destruct (l_file l) eqn:F; [reflexivity|].
  destruct H as [[H _]|(_ & _ & H)]; [rewrite H; reflexivity|congruence].
Qed.

(** A rotation to another day renames every sink, drops every logger and
    closes every handle that is open, Debug first. *)
Lemma rotateLocked_newday date s :
  Inv s -> Str.free Str.slash date = true -> date <> dateStr s ->
  events (rotateLocked date s) = (events s ++ map EvClose (held s))%list
  /\ forall v,
       sink v (rotateLocked date s)
       = Some (newLogger v (Filepath.Join (dirPathValue s) (logName date v))).
Proof.
  intros I F N.
  assert (FS : Str.free Str.slash (dateStr s) = true).
  { destruct (inv_day s I) as (env & D). rewrite D. apply Format_date_dash_free. }
  assert (K : forall v, exists l,
    sink v s = Some l /\ l_level l = v
    /\ setFileName (Filepath.Join (dirPathValue s) (logName date v)) l
       = (newLogger v (Filepath.Join (dirPathValue s) (logName date v)),
          map EvClose (ofl (fileOf v s)))).
  { intros v. destruct (inv_sinks s I v) as (l & A & B & C & H).
    exists l. split; [exact A|]. split; [exact B|].
    pose proof (setFileName_differs (started s) (writersValue s)
                  (Filepath.Join (dirPathValue s) (logName date v)) l) as X.
    rewrite B in X. unfold fileOf. rewrite A. cbn [fileOfSink]. unfold newLogger.
    apply X; [|exact H].
    rewrite C. intros E. apply N. symmetry.
    exact (Join_day_inj s (dateStr s) date v I FS F E). }
  destruct (K levelDebug) as (ld & Ad & _ & Sd).
  destruct (K levelInfo) as (li & Ai & _ & Si).
  destruct (K levelWarning) as (lw & Aw & _ & Sw).
  destruct (K levelError) as (le & Ae & _ & Se).
  cbn [sink] in Ad, Ai, Aw, Ae.
  destruct (ErrorL s) as [el|] eqn:EE; [|discriminate Ae].
  cbn [option_map] in Ae. injection Ae as Ae.
  unfold logName in Sd, Si, Sw, Se. cbn [levelFileName append] in Sd, Si, Sw, Se.
  split.
  - cbn [rotateLocked events]. rewrite Ad, Ai, Aw, EE, Ae.
    cbv zeta. rewrite Sd, Si, Sw, Se. cbn [snd].
    unfold held, levels. cbn [flat_map]. rewrite !map_app. cbn [map].
    rewrite app_nil_r. reflexivity.
  - intros v. destruct v;
      cbn [rotateLocked sink DebugL InfoL WarningL ErrorL option_map];
      rewrite ?Ad, ?Ai, ?Aw, ?EE, ?Ae; cbv zeta;
      rewrite ?Sd, ?Si, ?Sw, ?Se; reflexivity.
Qed.

(** X11: the first write after the day has changed closes every handle of the
    previous day, renames every sink after the new day, opens the new
    file of its own level and writes the line there; afterwards that
    file is the only open handle. *)
Theorem new_day_rotation :
  forall s env v args,
    reachable s ->
    let now := Now env (locationValue s) in
    let day := Format_date_dash now in
    let path := Filepath.Join (dirPathValue s) (logName day v) in
    day <> dateStr s -> OpenFile env path = true ->
    exists s',
      step (env, OpPrintln v args) s = Ret s'
      /\ dateStr s' = day
      /\ events s'
         = (events s ++ map EvClose (held s) ++ [EvOpen path]
            ++ deliver (fanout s path)
                 (printlnLine (timePrefix now) (levelString v) args))%list
      /\ held s' = [path]
      /\ forall v',
           v' <> v ->
           sink v' s'
           = Some (newLogger v' (Filepath.Join (dirPathValue s) (logName day v'))).
Proof.
  intros s env v args R now day path ND O.
  pose proof (reachable_Inv s R) as I.
  destruct (freezeConfig_Inv s I) as (I1 & _ & Q1 & E1 & K1).
  assert (CF : config (freezeConfig s) = config s) by apply Q1.
  unfold config in CF. injection CF as CD CL CW.
  assert (D1 : dateStr (freezeConfig s) = dateStr s).
  { unfold freezeConfig. destruct (started s); reflexivity. }
  assert (H1 : held (freezeConfig s) = held s).
  { unfold held, fileOf. cbn [flat_map levels]. rewrite !K1. reflexivity. }
  destruct (rotateLocked_newday day (freezeConfig s) I1)
    as (ER & SR); [apply Format_date_dash_free|congruence|].
  rewrite E1, H1 in ER. rewrite CD in SR.
  assert (RN : rotateIfNeeded now (freezeConfig s) = rotateLocked day (freezeConfig s)).
  { apply rotateIfNeeded_newday; [apply (inv_fast _ I1)|]. fold day. congruence. }
  assert (C2 : forall v', fileOf v' (rotateLocked day (freezeConfig s)) = None).
  { intros v'. unfold fileOf. rewrite SR. reflexivity. }
  set (print := fun ws ts level =>
                  Logger_Println ws (VString ts :: VString level :: args)).
  destruct (write_exact v env print s I) as (l & A & _ & _ & _ & W).
  fold now in A, W. fold day in W. fold path in W. rewrite RN in A, W.
  rewrite SR in A. injection A as <-. cbn [newLogger l_logger] in W.
  rewrite O in W.
  eexists. split; [rewrite step_Println by assumption; exact W|].
  split; [rewrite events_setSink || idtac; destruct v; reflexivity|].
  split; [|split].
  - cbn [events emit]. rewrite events_setSink, ER. unfold print.
    rewrite Logger_Println_bytes, Sprintln_line, <- !app_assoc. reflexivity.
  - unfold held, levels, fileOf. cbn [flat_map].
    destruct v; rewrite !sink_emit;
      repeat first [rewrite sink_setSink_same
                   | rewrite sink_setSink_other by discriminate];
      rewrite !SR; reflexivity.
  - intros v' N. rewrite sink_emit, sink_setSink_other by congruence. apply SR.
Qed.

Lemma new_day_rotation_witness :
  (reachable (stateOf (step (env0, OpPrintln levelInfo [VString "a"]) (init env0)))
   /\ "2024-01-03"
      <> dateStr (stateOf (step (env0, OpPrintln levelInfo [VString "a"]) (init env0))))
  /\ exists s',
       step (mkEnv (fun _ => mkTime 2024 1 3 0 0 1 0) (fun _ => true) (fun _ => true)
               (fun _ => None) noRest, OpPrintln levelError [VString "b"])
         (stateOf (step (env0, OpPrintln levelInfo [VString "a"]) (init env0)))
       = Ret s'
       /\ events s'
          = [EvOpen "2024-01-02.info.log";
             EvWrite (FileWriter "2024-01-02.info.log")
               ("2024/01/02 03:04:05.000006 INFO a" ++ Str.nl);
             EvClose "2024-01-02.info.log";
             EvOpen "2024-01-03.error.log";
             EvWrite (FileWriter "2024-01-03.error.log")
               ("2024/01/03 00:00:01.000000 ERROR b" ++ Str.nl)]
       /\ held s' = ["2024-01-03.error.log"].
Proof.
  assert (R : reachable (stateOf (step (env0, OpPrintln levelInfo [VString "a"])
                                    (init env0)))).
  { exists env0, [(env0, OpPrintln levelInfo [VString "a"])]. reflexivity. }
  assert (N : "2024-01-03"
              <> dateStr (stateOf (step (env0, OpPrintln levelInfo [VString "a"])
                                     (init env0)))) by discriminate.
  split; [split; [exact R|exact N]|].
  destruct (new_day_rotation _
              (mkEnv (fun _ => mkTime 2024 1 3 0 0 1 0) (fun _ => true)
                 (fun _ => true) (fun _ => None) noRest)
              levelError [VString "b"] R N eq_refl) as (s' & St & _ & E & H & _).
  exists s'. split; [exact St|]. split; [exact E|exact H].
Defined.

Lemma noWrite_closes fs : noWrite (map EvClose fs) = true.
Proof. induction fs as [|f fs IH]; [reflexivity|exact IH]. Qed.

(** X9: a write that has to open the file of its level, because the sink
    holds no handle or the day has changed, and cannot open it ends the
    process with status 1.  What it adds to the trace is exactly the
    closes of the rotation, every handle held when the day has changed
    and none otherwise, followed by the call of [log.Fatalln] with the
    message and the error of [os.OpenFile]: nothing is opened and no
    destination, extra writers included, receives anything. *)
Theorem open_failure_is_fatal :
  forall s env v,
    reachable s ->
    let now := Now env (locationValue s) in
    let day := Format_date_dash now in
    let path := Filepath.Join (dirPathValue s) (logName day v) in
    let closes := if dateStr s =? day then [] else map EvClose (held s) in
    let added :=
      (closes ++ [EvStdLog [Text msgOpenFailed; Err (ErrOpenFile path)]])%list in
    fileOf v s = None \/ day <> dateStr s ->
    OpenFile env path = false ->
    (forall args, exists s',
        step (env, OpPrintln v args) s = Exit 1 s'
        /\ events s' = (events s ++ added)%list)
    /\ (forall format args, exists s',
        step (env, OpPrintf v format args) s = Exit 1 s'
        /\ events s' = (events s ++ added)%list)
    /\ noWrite added = true.
Proof.
  intros s env v R now day path closes added H O.
  pose proof (reachable_Inv s R) as I.
  destruct (freezeConfig_Inv s I) as (I1 & _ & Q1 & E1 & K1).
  assert (D1 : dateStr (freezeConfig s) = dateStr s).
  { unfold freezeConfig. destruct (started s); reflexivity. }
  assert (H1 : held (freezeConfig s) = held s).
  { unfold held, fileOf. cbn [flat_map levels]. rewrite !K1. reflexivity. }
  assert (G : forall print, exists s',
    write v env print s = Exit 1 s' /\ events s' = (events s ++ added)%list).
  { intros print.
    destruct (write_exact v env print s I) as (l & A & _ & _ & _ & W).
    fold now in A, W. fold day in W. fold path in W.
    assert (X : l_logger l = None
                /\ events (rotateIfNeeded now (freezeConfig s))
                   = (events s ++ closes)%list).
    { subst closes. destruct (String.eqb_spec (dateStr s) day) as [E|E].
      - rewrite rotateIfNeeded_today in A |- * by (fold day; congruence).
        destruct H as [H|H]; [|congruence].
        split; [|rewrite E1, app_nil_r; reflexivity].
        rewrite K1 in A. apply (Inv_closed s v l I A).
        unfold fileOf in H. rewrite A in H. exact H.
      - assert (RN : rotateIfNeeded now (freezeConfig s)
                     = rotateLocked day (freezeConfig s)).
        { apply rotateIfNeeded_newday; [apply (inv_fast _ I1)|].
          fold day. congruence. }
        rewrite RN in A |- *.
        destruct (rotateLocked_newday day (freezeConfig s) I1)
          as (ER & SR); [apply Format_date_dash_free|congruence|].
        rewrite SR in A. injection A as <-.
        split; [reflexivity|]. rewrite ER, E1, H1. reflexivity. }
    destruct X as (L & Ev). rewrite L, O in W.
    eexists. split; [exact W|].
    cbn [events emit]. rewrite Ev. subst added. rewrite <- app_assoc. reflexivity. }
  split; [|split].
  - intros args. rewrite step_Println by assumption. apply G.
  - intros format args. rewrite step_Printf by assumption. apply G.
  - subst added closes. unfold noWrite. rewrite forallb_app.
    destruct (dateStr s =? day); [reflexivity|].
    fold (noWrite (map EvClose (held s))). rewrite noWrite_closes. reflexivity.
Qed.

(** With two extra writers configured and the Info file of 2024-01-02
    open, an Error line on 2024-01-03 whose file cannot be opened: the
    Info handle is closed, the failure is logged, and neither writer nor
    any file receives the line. *)
Lemma open_failure_is_fatal_witness :
  (reachable (stateOf (run [(env0, OpAppendWriter [7; 8]);
                            (env0, OpPrintln levelInfo [VString "a"])] (init env0)))
   /\ fileOf levelError
        (stateOf (run [(env0, OpAppendWriter [7; 8]);
                       (env0, OpPrintln levelInfo [VString "a"])] (init env0)))
      = None)
  /\ exists s',
       step (mkEnv (fun _ => mkTime 2024 1 3 0 0 1 0) (fun _ => true)
               (fun _ => false) (fun _ => None) noRest,
             OpPrintln levelError [VString "lost"])
         (stateOf (run [(env0, OpAppendWriter [7; 8]);
                        (env0, OpPrintln levelInfo [VString "a"])] (init env0)))
       = Exit 1 s'
       /\ events s'
          = [EvOpen "2024-01-02.info.log";
             EvWrite (ExtraWriter 7) ("2024/01/02 03:04:05.000006 INFO a" ++ Str.nl);
             EvWrite (ExtraWriter 8) ("2024/01/02 03:04:05.000006 INFO a" ++ Str.nl);
             EvWrite (FileWriter "2024-01-02.info.log")
               ("2024/01/02 03:04:05.000006 INFO a" ++ Str.nl);
             EvClose "2024-01-02.info.log";
             EvStdLog [Text msgOpenFailed;
                       Err (ErrOpenFile "2024-01-03.error.log")]].
Proof.
  assert (R : reachable
                (stateOf (run [(env0, OpAppendWriter [7; 8]);
                               (env0, OpPrintln levelInfo [VString "a"])] (init env0)))).
  { exists env0, [(env0, OpAppendWriter [7; 8]);
                  (env0, OpPrintln levelInfo [VString "a"])].
    vm_compute. reflexivity. }
  split; [split; [exact R|vm_compute; reflexivity]|].
  destruct (proj1 (open_failure_is_fatal _
                     (mkEnv (fun _ => mkTime 2024 1 3 0 0 1 0) (fun _ => true)
                        (fun _ => false) (fun _ => None) noRest)
                     levelError R (or_introl eq_refl) eq_refl)
                  [VString "lost"]) as (s' & St & Ev).
  exists s'. split; [exact St|]. rewrite Ev. vm_compute. reflexivity.
Defined.

(* ================================================================= *)
(** ** Before the first write *)

Lemma setFileName_closed n l :
  l_logger l = None -> l_file l = None ->
  setFileName n l = (newLogger (l_level l) n, []).
Proof.
  intros L F. unfold setFileName, newLogger.
  destruct (String.eqb_spec (l_fileName l) n) as [E|E].
  - destruct l; simpl in *; subst; reflexivity.
  - rewrite F, L. reflexivity.
Qed.

(** Before the freeze every sink is without handle. *)
Lemma unstarted_closed s v :
  Inv s -> started s = false ->
  exists l, sink v s = Some l /\ l_level l = v
            /\ l_logger l = None /\ l_file l = None.
Proof.
  intros I S. destruct (inv_sinks s I v) as (l & A & B & _ & H).
  exists l. split; [exact A|]. split; [exact B|].
  rewrite S in H. apply (handleOK_unstarted _ _ H).
Qed.

(** A rotation over sinks without handles renames them and does nothing
    else. *)
Lemma rotateLocked_closed date s :
  (forall v, exists l, sink v s = Some l /\ l_level l = v
                       /\ l_logger l = None /\ l_file l = None) ->
  events (rotateLocked date s) = events s
  /\ forall v,
       sink v (rotateLocked date s)
       = Some (newLogger v (Filepath.Join (dirPathValue s) (logName date v))).
Proof.
  intros K.
  destruct (K levelDebug) as (ld & Ad & Bd & Ld & Fd).
  destruct (K levelInfo) as (li & Ai & Bi & Li & Fi).
  destruct (K levelWarning) as (lw & Aw & Bw & Lw & Fw).
  destruct (K levelError) as (le & Ae & Be & Le & Fe).
  cbn [sink] in Ad, Ai, Aw, Ae.
  destruct (ErrorL s) as [el|] eqn:EE; [|discriminate Ae].
  cbn [option_map] in Ae. injection Ae as Ae.
  split.
  - cbn [rotateLocked events]. rewrite Ad, Ai, Aw, EE, Ae. cbv zeta.
    rewrite !setFileName_closed by assumption. cbn [snd].
    rewrite !app_nil_r. reflexivity.
  - intros v. destruct v;
      cbn [rotateLocked sink DebugL InfoL WarningL ErrorL option_map];
      rewrite ?Ad, ?Ai, ?Aw, ?EE, ?Ae; cbv zeta;
      rewrite setFileName_closed by assumption; cbn [fst el_logger];
      rewrite ?Bd, ?Bi, ?Bw, ?Be; reflexivity.
Qed.

Lemma reachable_induction (P : State -> Prop) :
  (forall env, P (init env)) ->
  (forall c s s', reachable s -> P s -> step c s = Ret s' -> P s') ->
  forall s, reachable s -> P s.
Proof.
  intros Hi Hs s (env & cs & R).
  assert (G : forall cs s0 s1,
             reachable s0 -> P s0 -> run cs s0 = Ret s1 -> P s1).
  { clear - Hs. induction cs as [|c cs IH]; intros s0 s1 R0 P0; cbn [run].
    - intros [= <-]. exact P0.
    - destruct (step c s0) as [s'| |] eqn:E; try discriminate.
      apply IH; [eapply reachable_step; eassumption|eapply Hs; eassumption]. }
  eapply G; [apply reachable_init|apply Hi|exact R].
Qed.

Lemma noIO_app a b :
  forallb (fun e => negb (isIO e)) (a ++ b)
  = forallb (fun e => negb (isIO e)) a && forallb (fun e => negb (isIO e)) b.
Proof. apply forallb_app. Qed.

(** X12: until the first write nothing is opened, closed or written: the
    trace holds only directory creations and diagnostics, and no sink
    has a handle.  Handles appear with the first write, never with
    [init] or a configuration call. *)
Theorem quiet_before_first_write :
  forall s,
    reachable s -> started s = false ->
    forallb (fun e => negb (isIO e)) (events s) = true /\ held s = [].
Proof.
  intros s R S. split.
  - revert S. pattern s. revert s R. apply reachable_induction.
    + reflexivity.
    + intros [env op] s s' R IH St S'.
      pose proof (reachable_Inv s R) as I.
      destruct (isWrite op) eqn:W.
      { destruct (step_write_setup env op s W) as (_ & _ & T).
        rewrite (T s' St) in S'. discriminate S'. }
      assert (S : started s = false).
      { destruct (started s) eqn:S; [|reflexivity].
        destruct (step_monotone (env, op) s) as (M & _). rewrite St in M.
        cbn [stateOf] in M. rewrite (M S) in S'. discriminate S'. }
      specialize (IH S).
      pose proof (unstarted_closed s) as UC.
      destruct op; try discriminate W; unfold step in St; cbn [fst snd] in St.
      * unfold SetDir in St. rewrite S in St.
        destruct (path =? ""); [injection St as <-; exact IH|].
        destruct (setDirOnce s); [injection St as <-; exact IH|].
        destruct (MkdirAll env (Filepath.Clean path)); cbn [negb] in St;
          injection St as <-.
        -- unfold createLogger, rotate. cbn [events done_setDirOnce].
           destruct (rotateLocked_closed
                       (Format_date_dash
                          (nowInLocation env
                             (store_dirPathValue (Filepath.Clean path)
                                (emit [EvMkdirAll (Filepath.Clean path)] s))))
                       (store_dirPathValue (Filepath.Clean path)
                          (emit [EvMkdirAll (Filepath.Clean path)] s)))
             as (E & _).
           { intros v. destruct (UC v I S) as (l & A & B).
             exists l. split; [|exact B]. rewrite <- A. destruct v; reflexivity. }
           rewrite E. cbn [events store_dirPathValue emit].
           rewrite noIO_app, IH. reflexivity.
        -- cbn [events done_setDirOnce emit]. rewrite noIO_app, IH. reflexivity.
      * unfold SetTimezone in St. rewrite S in St.
        destruct (name =? ""); [injection St as <-; exact IH|].
        destruct (setTimezoneOnce s); [injection St as <-; exact IH|].
        destruct (resolveZone env name) as [loc|]; [|discriminate St].
        injection St as <-. unfold rotate. cbn [events done_setTimezoneOnce].
        destruct (rotateLocked_closed
                    (Format_date_dash (nowInLocation env (store_locationValue loc s)))
                    (store_locationValue loc s)) as (E & _).
        { intros v. destruct (UC v I S) as (l & A & B).
          exists l. split; [|exact B]. rewrite <- A. destruct v; reflexivity. }
        rewrite E. exact IH.
      * unfold AppendWriter in St. rewrite S in St.
        destruct (List.length writer =? 0)%nat; [injection St as <-; exact IH|].
        destruct (appendWriterOnce s); injection St as <-; exact IH.
      * unfold Close in St. destruct (UC v I S) as (l & A & _ & _ & F).
        rewrite A, F in St. injection St as <-. exact IH.
  - pose proof (reachable_Inv s R) as I.
    assert (K : forall v, fileOf v s = None).
    { intros v. destruct (unstarted_closed s v I S) as (l & A & _ & _ & F).
      unfold fileOf. rewrite A. exact F. }
    unfold held, levels. cbn [flat_map]. rewrite !K. reflexivity.
Qed.

Lemma quiet_before_first_write_witness :
  (reachable (stateOf (run [(env0, OpSetDir "logs"); (env0, OpAppendWriter [1])]
                         (init env0)))
   /\ started (stateOf (run [(env0, OpSetDir "logs"); (env0, OpAppendWriter [1])]
                          (init env0))) = false)
  /\ forallb (fun e => negb (isIO e))
       (events (stateOf (run [(env0, OpSetDir "logs"); (env0, OpAppendWriter [1])]
                           (init env0)))) = true
  /\ held (stateOf (run [(env0, OpSetDir "logs"); (env0, OpAppendWriter [1])]
                      (init env0))) = [].
Proof.
  assert (R : reachable (stateOf (run [(env0, OpSetDir "logs");
                                       (env0, OpAppendWriter [1])] (init env0)))).
  { exists env0, [(env0, OpSetDir "logs"); (env0, OpAppendWriter [1])].
    vm_compute. reflexivity. }
  assert (S : started (stateOf (run [(env0, OpSetDir "logs");
                                     (env0, OpAppendWriter [1])] (init env0)))
              = false) by (vm_compute; reflexivity).
  split; [split; [exact R|exact S]|].
  exact (quiet_before_first_write _ R S).
Defined.

(* ================================================================= *)
(** ** Configuration calls that take effect *)

Lemma sinks_closed_frame s s1 :
  Inv s -> started s = false ->
  (forall v, sink v s1 = sink v s) ->
  forall v, exists l, sink v s1 = Some l /\ l_level l = v
                      /\ l_logger l = None /\ l_file l = None.
Proof.
  intros I S K v. rewrite K. apply unstarted_closed; assumption.
Qed.

(** X13: a [SetDir] that takes effect creates the cleaned directory, stores
    it, and renames every sink below it under the day key of the moment;
    it opens nothing and leaves the configuration open for the other
    setters. *)
Theorem SetDir_success :
  forall s env path,
    reachable s ->
    path <> "" -> started s = false -> setDirOnce s = false ->
    MkdirAll env (Filepath.Clean path) = true ->
    let day := Format_date_dash (Now env (locationValue s)) in
    exists s',
      SetDir path env s = Ret s'
      /\ dirPathValue s' = Filepath.Clean path
      /\ events s' = (events s ++ [EvMkdirAll (Filepath.Clean path)])%list
      /\ dateStr s' = day
      /\ (forall v,
            sink v s'
            = Some (newLogger v (Filepath.Join (Filepath.Clean path) (logName day v))))
      /\ started s' = false
      /\ locationValue s' = locationValue s /\ writersValue s' = writersValue s.
Proof.
  intros s env path R NE S O MK day. pose proof (reachable_Inv s R) as I.
  set (s1 := store_dirPathValue (Filepath.Clean path)
               (emit [EvMkdirAll (Filepath.Clean path)] s)).
  destruct (rotateLocked_closed day s1) as (E & K).
  { apply (sinks_closed_frame s); [exact I|exact S|].
    intros v; destruct v; reflexivity. }
  exists (done_setDirOnce (rotateLocked day s1)).
  split.
  { unfold SetDir. apply String.eqb_neq in NE. rewrite NE, S, O, MK. reflexivity. }
  split; [reflexivity|]. split; [exact E|]. split; [reflexivity|].
  split; [|split; [exact S|split; reflexivity]].
  intros v. rewrite <- K. destruct v; reflexivity.
Qed.

Lemma SetDir_success_witness :
  (reachable (init env0) /\ "/var/log/app/" <> ""
   /\ started (init env0) = false /\ setDirOnce (init env0) = false
   /\ MkdirAll env0 (Filepath.Clean "/var/log/app/") = true)
  /\ exists s',
       SetDir "/var/log/app/" env0 (init env0) = Ret s'
       /\ dirPathValue s' = "/var/log/app"
       /\ events s' = [EvMkdirAll "/var/log/app"]
       /\ sink levelDebug s'
          = Some (newLogger levelDebug "/var/log/app/2024-01-02.debug.log").
Proof.
  assert (N : "/var/log/app/" <> "") by discriminate.
  split; [repeat split; try reflexivity; try exact N; apply reachable_init|].
  destruct (SetDir_success (init env0) env0 "/var/log/app/" (reachable_init env0)
              N eq_refl eq_refl eq_refl) as (s' & A & B & C & _ & D & _).
  exists s'. split; [exact A|]. split; [exact B|]. split; [exact C|].
  exact (D levelDebug).
Defined.

Section CleanIdempotent.
Import Filepath.

Lemma Clean_nonempty p : Clean p <> "".
Proof.
  unfold Clean. destruct (p =? ""); [discriminate|].
  unfold render. destruct (rooted p); [discriminate|].
  destruct (String.eqb_spec (Str.join "/" (cleanElems false [] (split p))) "");
    [discriminate|assumption].
Qed.

Lemma Clean_idempotent p : Clean (Clean p) = Clean p.
Proof.
  destruct (String.eqb_spec p "") as [->|N]; [reflexivity|].
  rewrite (Clean_render p N).
  pose proof (kept_ok p) as OK.
  pose proof (cleanElems_fixed _ _ OK) as FX. rewrite rev_involutive in FX.
  destruct (okStack_elems _ _ OK) as [SF NE].
  apply Forall_rev in SF, NE. rewrite rev_involutive in SF, NE.
  set (X := kept p) in *. set (r := rooted p) in *. clearbody X r. clear N p.
  destruct r; unfold render.
  - destruct X as [|x X']; [reflexivity|].
    set (Y := x :: X') in *.
    unfold Clean.
    change ("/" ++ Str.join "/" Y) with (String Str.slash (Str.join "/" Y)).
    cbn [String.eqb rooted split]. rewrite Ascii.eqb_refl.
    rewrite split_join by (assumption || discriminate).
    change (cleanElems true [] ("" :: Y)) with (cleanElems true [] Y).
    rewrite FX. reflexivity.
  - destruct (String.eqb_spec (Str.join "/" X) "") as [E|E]; [reflexivity|].
    assert (NX : X <> []) by (intros ->; apply E; reflexivity).
    assert (R : rooted (Str.join "/" X) = false).
    { destruct X as [|x X']; [congruence|].
      inversion SF; inversion NE; subst.
      destruct X' as [|y X']; [apply rooted_free; assumption|].
      change (Str.join "/" (x :: y :: X')) with (x ++ "/" ++ Str.join "/" (y :: X')).
      rewrite rooted_append by assumption. apply rooted_free; assumption. }
    unfold Clean. apply String.eqb_neq in E. rewrite E, R.
    rewrite split_join, FX by assumption.
    unfold render. rewrite E. reflexivity.
Qed.

End CleanIdempotent.

(** X14: [SetDir] sees a path only through [filepath.Clean]: a call with a
    path and a call with its cleaned form do the same, so trailing
    separators, doubled separators and [.] elements make no difference;
    and the directory a reachable state stores is unset or clean. *)
Theorem SetDir_normalizes :
  (forall s env path,
      path <> "" -> SetDir path env s = SetDir (Filepath.Clean path) env s)
  /\ (forall s,
      reachable s ->
      dirPathValue s = "" \/ Filepath.Clean (dirPathValue s) = dirPathValue s).
Proof.
  split.
  - intros s env path NE. unfold SetDir.
    apply String.eqb_neq in NE. rewrite NE.
    pose proof (Clean_nonempty path) as NC. apply String.eqb_neq in NC.
    rewrite NC, Clean_idempotent. reflexivity.
  - intros s R. destruct (inv_dir s (reachable_Inv s R)) as [E|(p & E)];
      [left; exact E|right]. rewrite E. apply Clean_idempotent.
Qed.

Lemma SetDir_normalizes_witness :
  "logs//2024/../" <> ""
  /\ SetDir "logs//2024/../" env0 (init env0) = SetDir "logs" env0 (init env0).
Proof.
  assert (N : "logs//2024/../" <> "") by discriminate.
  split; [exact N|].
  exact (proj1 SetDir_normalizes (init env0) env0 "logs//2024/../" N).
Defined.

(** X15: a [SetTimezone] that takes effect stores the zone and recomputes the
    day key in it, renaming every sink; it opens nothing.  From then on
    the zone stays, whatever calls follow. *)
Theorem SetTimezone_success :
  forall s env name loc,
    reachable s ->
    name <> "" -> started s = false -> setTimezoneOnce s = false ->
    resolveZone env name = Some loc ->
    let day := Format_date_dash (Now env loc) in
    exists s',
      SetTimezone name env s = Ret s'
      /\ locationValue s' = loc
      /\ dateStr s' = day
      /\ events s' = events s
      /\ (forall v,
            sink v s'
            = Some (newLogger v (Filepath.Join (dirPathValue s) (logName day v))))
      /\ started s' = false
      /\ forall cs, locationValue (stateOf (run cs s')) = loc.
Proof.
  intros s env name loc R NE S O RZ day. pose proof (reachable_Inv s R) as I.
  destruct (rotateLocked_closed day (store_locationValue loc s)) as (E & K).
  { apply (sinks_closed_frame s); [exact I|exact S|].
    intros v; destruct v; reflexivity. }
  exists (done_setTimezoneOnce (rotateLocked day (store_locationValue loc s))).
  split.
  { unfold SetTimezone. apply String.eqb_neq in NE. rewrite NE, S, O, RZ.
    reflexivity. }
  split; [reflexivity|]. split; [reflexivity|]. split; [exact E|].
  split; [|split; [exact S|]].
  - intros v. rewrite <- K. destruct v; reflexivity.
  - intros cs.
    destruct (run_monotone cs
                (done_setTimezoneOnce (rotateLocked day (store_locationValue loc s))))
      as (_ & _ & C).
    specialize (C FnSetTimezone (or_intror eq_refl)). cbn [cell] in C.
    injection C as C. rewrite C. reflexivity.
Qed.

Lemma SetTimezone_success_witness :
  (reachable (init env0) /\ "Asia/Shanghai" <> ""
   /\ started (init env0) = false /\ setTimezoneOnce (init env0) = false
   /\ resolveZone env0 "Asia/Shanghai" = Some (FixedZone "Asia/Shanghai" (8 * 3600)))
  /\ exists s',
       SetTimezone "Asia/Shanghai" env0 (init env0) = Ret s'
       /\ locationValue s' = FixedZone "Asia/Shanghai" (8 * 3600)
       /\ dateStr s' = "2024-01-02".
Proof.
  assert (N : "Asia/Shanghai" <> "") by discriminate.
  split; [repeat split; try reflexivity; try exact N; apply reachable_init|].
  destruct (SetTimezone_success (init env0) env0 "Asia/Shanghai" _
              (reachable_init env0) N eq_refl eq_refl eq_refl)
    as (s' & A & B & C & _).
  exists s'. split; [exact A|]. split; [exact B|exact C].
Defined.

(** X16: an [AppendWriter] that takes effect stores the writers and touches
    nothing else; every later [Println] that returns hands its line to
    those writers in the order given and then to the file. *)
Theorem AppendWriter_fans_out :
  forall s writer,
    reachable s ->
    writer <> [] -> started s = false -> appendWriterOnce s = false ->
    exists s',
      AppendWriter writer s = Ret s'
      /\ writersValue s' = writer
      /\ events s' = events s
      /\ (forall v, sink v s' = sink v s)
      /\ forall cs s2 env v args s3,
           run cs s' = Ret s2 ->
           step (env, OpPrintln v args) s2 = Ret s3 ->
           let now := Now env (locationValue s2) in
           let path := Filepath.Join (dirPathValue s2)
                         (logName (Format_date_dash now) v) in
           exists pre,
             events s3
             = (events s2 ++ pre
                ++ deliver (map ExtraWriter writer ++ [FileWriter path])
                     (printlnLine (timePrefix now) (levelString v) args))%list
             /\ noWrite pre = true.
Proof.
  intros s writer R NE S O. pose proof (reachable_Inv s R) as I.
  set (s' := done_appendWriterOnce (store_writersValue writer s)).
  assert (A : AppendWriter writer s = Ret s').
  { unfold AppendWriter. rewrite S, O.
    destruct writer; [congruence|reflexivity]. }
  exists s'. split; [exact A|]. split; [reflexivity|]. split; [reflexivity|].
  split; [intros v; destruct v; reflexivity|].
  intros cs s2 env v args s3 Rn St now path.
  assert (I' : Inv s') by (eapply AppendWriter_Inv; eassumption).
  assert (I2 : Inv s2) by (eapply run_Inv; eassumption).
  assert (W2 : writersValue s2 = writer).
  { destruct (run_monotone cs s') as (_ & _ & C).
    specialize (C FnAppendWriter (or_intror eq_refl)). rewrite Rn in C.
    cbn [stateOf cell] in C. injection C as C. exact C. }
  rewrite step_Println in St by assumption.
  pose proof (write_spec v env
    (fun ws ts level => Logger_Println ws (VString ts :: VString level :: args))
    s2 I2) as H.
  cbv zeta in H. unfold Println in St. rewrite St in H.
  destruct H as (_ & _ & _ & pre & E & N).
  exists pre. split; [|exact N].
  rewrite E, Logger_Println_bytes, Sprintln_line, W2. reflexivity.
Qed.

Lemma AppendWriter_fans_out_witness :
  (reachable (init env0) /\ [4; 2] <> []
   /\ started (init env0) = false /\ appendWriterOnce (init env0) = false)
  /\ exists s',
       AppendWriter [4; 2] (init env0) = Ret s'
       /\ writersValue s' = [4; 2]
       /\ forall s3,
            step (env0, OpPrintln levelInfo [VString "a"]) s' = Ret s3 ->
            exists pre,
              events s3
              = (events s' ++ pre
                 ++ [EvWrite (ExtraWriter 4)
                       ("2024/01/02 03:04:05.000006 INFO a" ++ Str.nl);
                     EvWrite (ExtraWriter 2)
                       ("2024/01/02 03:04:05.000006 INFO a" ++ Str.nl);
                     EvWrite (FileWriter "2024-01-02.info.log")
                       ("2024/01/02 03:04:05.000006 INFO a" ++ Str.nl)])%list
              /\ noWrite pre = true.
Proof.
  assert (N : [4; 2] <> (@nil WriterId)) by discriminate.
  split; [repeat split; try reflexivity; try exact N; apply reachable_init|].
  destruct (AppendWriter_fans_out (init env0) [4; 2] (reachable_init env0) N
              eq_refl eq_refl) as (s' & A & B & _ & _ & W).
  exists s'. split; [exact A|]. split; [exact B|].
  intros s3 St.
  injection A as <-.
  exact (W [] _ env0 levelInfo [VString "a"] s3 eq_refl St).
Defined.

(* ================================================================= *)
(** ** Every handle is accounted for *)

Lemma isOpen_In p o : isOpen p o = true <-> In p o.
Proof.
  unfold isOpen. rewrite existsb_exists. split.
  - intros (x & H & E). apply String.eqb_eq in E. subst. exact H.
  - intros H. exists p. split; [exact H|apply String.eqb_refl].
Qed.

Lemma removeOne_perm p o : In p o -> Permutation o (p :: removeOne p o).
Proof.
  induction o as [|q o IH]; [intros []|].
  intros H. cbn [removeOne].
  destruct (String.eqb_spec q p) as [->|N]; [reflexivity|].
  destruct H as [H|H]; [congruence|].
  rewrite (IH H) at 1. apply perm_swap.
Qed.

Lemma replay_app a : forall o b,
  replay o (a ++ b)
  = match replay o a with
    | Some o' => replay o' b
    | None => None
    end.
Proof.
  induction a as [|e a IH]; intros o b; [reflexivity|].
  destruct e as [p|p|p|w bytes|ops]; cbn [app replay]; try apply IH.
  - destruct (isOpen p o); [apply IH|reflexivity].
  - destruct w as [i|p]; [apply IH|].
    destruct (isOpen p o); [apply IH|reflexivity].
Qed.

Lemma replay_deliver o ws bytes :
  (forall p, In (FileWriter p) ws -> In p o) ->
  replay o (deliver ws bytes) = Some o.
Proof.
  induction ws as [|w ws IH]; intros H; [reflexivity|].
  cbn [deliver map replay]. destruct w as [i|p].
  - apply IH. intros p Hp. apply H. right. exact Hp.
  - assert (O : isOpen p o = true) by (apply isOpen_In, H; left; reflexivity).
    rewrite O. apply IH. intros q Hq. apply H. right. exact Hq.
Qed.

(** One sink's step on its handle, replayed with the other handles
    around it. *)
Lemma handleStep_replay A B o o' evs opened :
  handleStep o o' evs ->
  Permutation opened (A ++ ofl o ++ B) ->
  exists opened',
    replay opened evs = Some opened'
    /\ Permutation opened' (A ++ ofl o' ++ B).
Proof.
  intros H P. destruct H as [o|f|p]; cbn [ofl app] in *.
  - exists opened. split; [reflexivity|exact P].
  - assert (I : In f opened).
    { apply (Permutation_in f (Permutation_sym P)), in_elt. }
    exists (removeOne f opened). cbn [replay].
    rewrite (proj2 (isOpen_In f opened) I). split; [reflexivity|].
    apply (Permutation_cons_inv (a := f)).
    rewrite <- (removeOne_perm f opened I), P.
    symmetry. apply Permutation_middle.
  - exists (p :: opened). split; [reflexivity|].
    rewrite P. apply Permutation_middle.
Qed.

Lemma held_held4 s :
  held s = held4 (fileOf levelDebug s) (fileOf levelInfo s)
             (fileOf levelWarning s) (fileOf levelError s).
Proof. unfold held, held4, levels. cbn [flat_map]. rewrite app_nil_r. reflexivity. Qed.

(** The four sinks step one after the other, Debug first. *)
Lemma four_steps d i w e d' i' w' e' cd ci cw ce opened :
  handleStep d d' cd -> handleStep i i' ci ->
  handleStep w w' cw -> handleStep e e' ce ->
  Permutation opened (held4 d i w e) ->
  exists opened',
    replay opened (cd ++ ci ++ cw ++ ce) = Some opened'
    /\ Permutation opened' (held4 d' i' w' e').
Proof.
  unfold held4. intros Hd Hi Hw He P.
  destruct (handleStep_replay [] (ofl i ++ ofl w ++ ofl e) d d' cd opened Hd P)
    as (o1 & R1 & P1).
  cbn [app] in P1.
  destruct (handleStep_replay (ofl d') (ofl w ++ ofl e) i i' ci o1 Hi P1)
    as (o2 & R2 & P2).
  rewrite (app_assoc (ofl d') (ofl i') _) in P2.
  destruct (handleStep_replay (ofl d' ++ ofl i') (ofl e) w w' cw o2 Hw P2)
    as (o3 & R3 & P3).
  rewrite (app_assoc (ofl d' ++ ofl i') (ofl w') _) in P3.
  rewrite <- (app_nil_r (ofl e)) in P3.
  destruct (handleStep_replay ((ofl d' ++ ofl i') ++ ofl w') [] e e' ce o3 He P3)
    as (o4 & R4 & P4).
  exists o4. split.
  - rewrite replay_app, R1, replay_app, R2, replay_app, R3. exact R4.
  - rewrite P4, app_nil_r, <- !app_assoc. reflexivity.
Qed.

Lemma accounted_extend evs h evs' h' :
  accounted evs h ->
  (forall opened, Permutation opened h ->
     exists opened', replay opened evs' = Some opened' /\ Permutation opened' h') ->
  accounted (evs ++ evs') h'.
Proof.
  intros (o & R & P) H. destruct (H o P) as (o' & R' & P').
  exists o'. split; [|exact P']. rewrite replay_app, R. exact R'.
Qed.

Lemma accounted_rotateLocked date s :
  accounted (events s) (held s) ->
  accounted (events (rotateLocked date s)) (held (rotateLocked date s)).
Proof.
  intros T.
  destruct (rotateLocked_handles date s) as (cd & ci & cw & ce & E & Hd & Hi & Hw & He).
  rewrite E. apply (accounted_extend _ _ _ _ T).
  intros o P. rewrite held_held4 in P. rewrite held_held4.
  eapply four_steps; eassumption.
Qed.

(** One sink replaced: its handle steps, the others stay. *)
Lemma accounted_setSink v l s evs :
  accounted (events s) (held s) ->
  handleStep (fileOf v s) (l_file l) evs ->
  accounted (events s ++ evs) (held (setSink v l s)).
Proof.
  intros T H. apply (accounted_extend _ _ _ _ T).
  intros o P. rewrite held_held4 in P. rewrite held_held4.
  unfold fileOf in *.
  destruct v; cbn [sink setSink DebugL InfoL WarningL ErrorL option_map
                   fileOfSink el_logger] in *.
  - replace evs with (evs ++ [] ++ [] ++ [])%list by (rewrite !app_nil_r; reflexivity).
    eapply four_steps; try eassumption; constructor.
  - replace evs with ([] ++ evs ++ [] ++ [])%list
      by (cbn [app]; rewrite !app_nil_r; reflexivity).
    eapply four_steps; try eassumption; constructor.
  - replace evs with ([] ++ [] ++ evs ++ [])%list
      by (cbn [app]; rewrite !app_nil_r; reflexivity).
    eapply four_steps; try eassumption; constructor.
  - replace evs with ([] ++ [] ++ [] ++ evs)%list by reflexivity.
    eapply four_steps; try eassumption; constructor.
Qed.

Lemma held_frame s s' :
  (forall v, sink v s' = sink v s) -> held s' = held s.
Proof.
  intros K. unfold held, levels, fileOf. cbn [flat_map]. rewrite !K. reflexivity.
Qed.

Lemma accounted_quiet evs h e :
  isIO e = false -> accounted evs h -> accounted (evs ++ [e]) h.
Proof.
  intros Q T. apply (accounted_extend _ _ _ _ T).
  intros o P. exists o. split; [|exact P].
  destruct e; try discriminate Q; reflexivity.
Qed.

Lemma In_held v s f : fileOf v s = Some f -> In f (held s).
Proof.
  intros F. rewrite held_held4. unfold held4.
  destruct v; rewrite F; cbn [ofl]; rewrite ?in_app_iff; cbn [In]; tauto.
Qed.

Lemma accounted_deliver evs h ws bytes :
  accounted evs h ->
  (forall p, In (FileWriter p) ws -> In p h) ->
  accounted (evs ++ deliver ws bytes) h.
Proof.
  intros T H. apply (accounted_extend _ _ _ _ T).
  intros o P. exists o. split; [|exact P].
  apply replay_deliver. intros p Hp.
  apply (Permutation_in p (Permutation_sym P)), H, Hp.
Qed.

Lemma In_fanout p s f : In (FileWriter p) (fanout s f) -> p = f.
Proof.
  unfold fanout. rewrite in_app_iff. intros [H|[H|[]]].
  - apply in_map_iff in H. destruct H as (x & E & _). discriminate E.
  - congruence.
Qed.

Lemma accounted_write v env print s s' :
  Inv s -> accounted (events s) (held s) ->
  (forall ws ts level, exists bytes, print ws ts level = deliver ws bytes) ->
  write v env print s = Ret s' ->
  accounted (events s') (held s').
Proof.
  intros I T PR W.
  set (now := Now env (locationValue s)).
  set (s2 := rotateIfNeeded now (freezeConfig s)).
  assert (T2 : accounted (events s2) (held s2)).
  { assert (T1 : accounted (events (freezeConfig s)) (held (freezeConfig s))).
    { destruct (freezeConfig_Inv s I) as (_ & _ & _ & E & K).
      rewrite E, (held_frame s (freezeConfig s) K). exact T. }
    subst s2. unfold rotateIfNeeded, rotateIfDateChanged.
    destruct (dateFast (freezeConfig s) =? Format_date_dash now); [exact T1|].
    destruct (negb (dateStr (freezeConfig s) =? Format_date_dash now)); [|exact T1].
    apply accounted_rotateLocked, T1. }
  destruct (write_exact v env print s I) as (l & A & B & C & H & WE).
  fold now in A, C, WE. fold s2 in A, WE. rewrite W in WE.
  set (path := Filepath.Join (dirPathValue s)
                 (logName (Format_date_dash now) v)) in *.
  destruct H as [[H1 H2]|(_ & H1 & H2)]; rewrite H1 in WE.
  - destruct (OpenFile env path); [|discriminate WE]. injection WE as ->.
    cbn [events emit]. rewrite events_setSink.
    destruct (PR (fanout s path) (timePrefix now) (levelString v)) as (bytes & ->).
    change (EvOpen path :: deliver (fanout s path) bytes)
      with ([EvOpen path] ++ deliver (fanout s path) bytes)%list.
    rewrite app_assoc.
    match goal with
    | |- accounted _ (held (emit ?e ?x)) =>
        rewrite (held_frame x (emit e x)) by (intros v'; apply sink_emit)
    end.
    apply accounted_deliver.
    + apply accounted_setSink; [exact T2|].
      unfold fileOf. rewrite A. cbn [fileOfSink l_file]. rewrite H2. constructor.
    + intros p Hp. apply In_fanout in Hp. subst p.
      apply (In_held v). unfold fileOf. rewrite sink_setSink_same. reflexivity.
  - injection WE as ->. cbn [events emit]. rewrite events_setSink.
    destruct (PR (map ExtraWriter (writersValue s) ++ [FileWriter (l_fileName l)])%list
                (timePrefix now) (levelString v)) as (bytes & ->).
    match goal with
    | |- accounted _ (held (emit ?e ?x)) =>
        rewrite (held_frame x (emit e x)) by (intros v'; apply sink_emit)
    end.
    rewrite (held_frame s2 _ (sink_setSink_id v l s2 A)).
    apply accounted_deliver; [exact T2|].
    intros p Hp. apply (In_fanout p s) in Hp. subst p.
    apply (In_held v). unfold fileOf. rewrite A. exact H2.
Qed.

Lemma accounted_step c s s' :
  reachable s -> accounted (events s) (held s) ->
  step c s = Ret s' -> accounted (events s') (held s').
Proof.
  intros R T. pose proof (reachable_Inv s R) as I.
  destruct c as [env op].
  assert (PL : forall args ws ts level, exists bytes,
    Logger_Println ws (VString ts :: VString level :: args) = deliver ws bytes).
  { intros. eexists. apply Logger_Println_bytes. }
  assert (PF : forall format args ws ts level, exists bytes,
    Logger_Printf (FmtRest env) ws (ts ++ " " ++ level ++ " " ++ format) args = deliver ws bytes).
  { intros. eexists. unfold Logger_Printf. apply Output_bytes. }
  destruct op.
  - unfold step; cbn [fst snd]. unfold SetDir.
    destruct (path =? ""); [intros [= <-]; exact T|].
    destruct (started s); [intros [= <-]; exact T|].
    destruct (setDirOnce s); [intros [= <-]; exact T|].
    destruct (MkdirAll env (Filepath.Clean path)); cbn [negb]; intros [= <-].
    + unfold createLogger, rotate.
      match goal with
      | |- accounted (events (done_setDirOnce ?x)) (held (done_setDirOnce ?x)) =>
          change (accounted (events x) (held x))
      end.
      apply accounted_rotateLocked.
      match goal with
      | |- accounted (events ?x) (held ?x) =>
          change (accounted (events s ++ [EvMkdirAll (Filepath.Clean path)]) (held x));
          rewrite (held_frame s x) by (intros v; destruct v; reflexivity)
      end.
      apply accounted_quiet; [reflexivity|exact T].
    + match goal with
      | |- accounted (events ?x) (held ?x) =>
          change (accounted
                    (events s
                     ++ [EvStdLog [Text msgMkdirFailed;
                                   Text (Filepath.Clean path);
                                   Err (ErrMkdirAll (Filepath.Clean path))]])
                    (held x));
          rewrite (held_frame s x) by (intros v; destruct v; reflexivity)
      end.
      apply accounted_quiet; [reflexivity|exact T].
  - unfold step; cbn [fst snd]. unfold SetTimezone.
    destruct (name =? ""); [intros [= <-]; exact T|].
    destruct (started s); [intros [= <-]; exact T|].
    destruct (setTimezoneOnce s); [intros [= <-]; exact T|].
    destruct (resolveZone env name) as [loc|]; [|discriminate].
    intros [= <-]. unfold rotate.
    match goal with
    | |- accounted (events (done_setTimezoneOnce ?x)) (held (done_setTimezoneOnce ?x)) =>
        change (accounted (events x) (held x))
    end.
    apply accounted_rotateLocked.
    rewrite (held_frame s (store_locationValue loc s))
      by (intros v; destruct v; reflexivity).
    exact T.
  - unfold step; cbn [fst snd]. unfold AppendWriter.
    destruct (List.length writer =? 0)%nat; [intros [= <-]; exact T|].
    destruct (started s); [intros [= <-]; exact T|].
    destruct (appendWriterOnce s); intros [= <-]; [exact T|].
    rewrite (held_frame s (done_appendWriterOnce (store_writersValue writer s)))
      by (intros v; destruct v; reflexivity).
    exact T.
  - rewrite step_Println by assumption. unfold Println.
    apply accounted_write; auto.
  - rewrite step_Printf by assumption. unfold Printf.
    apply accounted_write; auto.
  - unfold step; cbn [fst snd]. unfold Fatalln.
    destruct (Error_Println args env s); discriminate.
  - unfold step; cbn [fst snd]. unfold Fatalf.
    destruct (Error_Printf format args env s); discriminate.
  - unfold step; cbn [fst snd]. unfold Close.
    destruct (inv_sinks s I v) as (l & A & _). rewrite A.
    destruct (l_file l) as [f|] eqn:F; intros [= <-]; [|exact T].
    cbn [events emit]. rewrite events_setSink.
    match goal with
    | |- accounted _ (held (emit ?e ?x)) =>
        rewrite (held_frame x (emit e x)) by (intros v'; apply sink_emit)
    end.
    apply accounted_setSink; [exact T|].
    unfold fileOf. rewrite A. cbn [fileOfSink l_file]. rewrite F. constructor.
Qed.

Lemma quiet_init env : events (init env) = [] /\ held (init env) = [].
Proof.
  split; [reflexivity|].
  pose proof (init_Inv env) as I.
  assert (K : forall v, fileOf v (init env) = None).
  { intros v. destruct (unstarted_closed (init env) v I eq_refl) as (l & A & _ & _ & F).
    unfold fileOf. rewrite A. exact F. }
  unfold held, levels. cbn [flat_map]. rewrite !K. reflexivity.
Qed.

(** X17: in every reachable state the trace is sound and complete about
    handles: no file handle was written or closed without being open,
    and the handles opened and not yet closed are exactly the ones the
    four sinks hold, so none has leaked. *)
Theorem handles_accounted :
  forall s,
    reachable s ->
    exists opened,
      replay [] (events s) = Some opened /\ Permutation opened (held s).
Proof.
  apply (reachable_induction (fun s => accounted (events s) (held s))).
  - intros env. exists []. split; [reflexivity|].
    rewrite (proj2 (quiet_init env)). constructor.
  - intros c s s' R T St. eapply accounted_step; eassumption.
Qed.

Lemma handles_accounted_witness :
  reachable (stateOf (run [(env0, OpPrintln levelInfo [VString "a"]);
                           (env0, OpPrintln levelError [VString "b"]);
                           (env0, OpClose levelInfo)] (init env0)))
  /\ exists opened,
       replay [] (events (stateOf (run [(env0, OpPrintln levelInfo [VString "a"]);
                                        (env0, OpPrintln levelError [VString "b"]);
                                        (env0, OpClose levelInfo)] (init env0))))
       = Some opened
       /\ Permutation opened
            (held (stateOf (run [(env0, OpPrintln levelInfo [VString "a"]);
                                 (env0, OpPrintln levelError [VString "b"]);
                                 (env0, OpClose levelInfo)] (init env0)))).
Proof.
  assert (R : reachable (stateOf (run [(env0, OpPrintln levelInfo [VString "a"]);
                                       (env0, OpPrintln levelError [VString "b"]);
                                       (env0, OpClose levelInfo)] (init env0)))).
  { exists env0, [(env0, OpPrintln levelInfo [VString "a"]);
                  (env0, OpPrintln levelError [VString "b"]);
                  (env0, OpClose levelInfo)]. vm_compute. reflexivity. }
  split; [exact R|]. exact (handles_accounted _ R).
Defined.

(* ================================================================= *)
(** ** One file per level *)

Lemma levelFileName_inj v v' :
  levelFileName v ++ ".log" = levelFileName v' ++ ".log" -> v = v'.
Proof. destruct v, v'; intros H; try reflexivity; discriminate H. Qed.

Lemma joinedPath_level_inj dir d v v' :
  joinedPath dir d v = joinedPath dir d v' -> v = v'.
Proof.
  unfold joinedPath, logName.
  destruct (dir =? ""); [|destruct (dir =? "."); [|destruct (dir =? "/")]];
    intros H; repeat apply append_inv_head in H;
    apply levelFileName_inj; exact H.
Qed.

(** X18: the sinks of two different levels are never named after the same
    file, so two levels never share a file or a handle. *)
Theorem levels_have_distinct_files :
  forall s v v' l l',
    reachable s -> v <> v' ->
    sink v s = Some l -> sink v' s = Some l' ->
    l_fileName l <> l_fileName l'
    /\ forall f f', l_file l = Some f -> l_file l' = Some f' -> f <> f'.
Proof.
  intros s v v' l l' R N A A'. pose proof (reachable_Inv s R) as I.
  assert (D : l_fileName l <> l_fileName l').
  { destruct (inv_sinks s I v) as (l0 & B & _ & C & _).
    destruct (inv_sinks s I v') as (l1 & B' & _ & C' & _).
    rewrite A in B. injection B as <-. rewrite A' in B'. injection B' as <-.
    destruct (inv_day s I) as (env & Dy).
    assert (F : Str.free Str.slash (dateStr s) = true)
      by (rewrite Dy; apply Format_date_dash_free).
    rewrite C, C'. intros E. apply N.
    destruct (inv_dir s I) as [Ed|(p & Ed)].
    - rewrite (Join_joinedPath "" _ v F _ (or_introl Ed)),
        (Join_joinedPath "" _ v' F _ (or_introl Ed)) in E.
      eapply joinedPath_level_inj, E.
    - rewrite (Join_joinedPath p _ v F _ (or_intror Ed)),
        (Join_joinedPath p _ v' F _ (or_intror Ed)) in E.
      eapply joinedPath_level_inj, E. }
  split; [exact D|].
  intros f f' F F' E.
  destruct (Inv_open s v l f I A F) as (_ & E1 & _).
  destruct (Inv_open s v' l' f' I A' F') as (_ & E2 & _).
  congruence.
Qed.

Lemma levels_have_distinct_files_witness :
  (reachable (init env0) /\ levelInfo <> levelError)
  /\ exists l l',
       sink levelInfo (init env0) = Some l /\ sink levelError (init env0) = Some l'
       /\ l_fileName l <> l_fileName l'.
Proof.
  assert (N : levelInfo <> levelError) by discriminate.
  split; [split; [apply reachable_init|exact N]|].
  eexists. eexists. split; [reflexivity|]. split; [reflexivity|].
  exact (proj1 (levels_have_distinct_files (init env0) levelInfo levelError _ _
                  (reachable_init env0) N eq_refl eq_refl)).
Defined.

(** X19: a write on the day of the current day key changes no sink but its
    own: the other levels keep their file names, loggers and handles. *)
Theorem same_day_write_is_local :
  forall s env v op s',
    reachable s ->
    (exists args, op = OpPrintln v args)
    \/ (exists format args, op = OpPrintf v format args) ->
    Format_date_dash (Now env (locationValue s)) = dateStr s ->
    step (env, op) s = Ret s' ->
    forall v', v' <> v -> sink v' s' = sink v' s.
Proof.
  intros s env v op s' R OP D St v' N.
  pose proof (reachable_Inv s R) as I.
  assert (G : forall print, write v env print s = Ret s' -> sink v' s' = sink v' s).
  { intros print W.
    destruct (write_exact v env print s I) as (l & A & _ & _ & _ & WE).
    rewrite W in WE.
    assert (S2 : forall u, sink u (rotateIfNeeded (Now env (locationValue s))
                                     (freezeConfig s)) = sink u s).
    { intros u. rewrite rotateIfNeeded_today.
      - destruct (freezeConfig_Inv s I) as (_ & _ & _ & _ & K). apply K.
      - rewrite D. unfold freezeConfig. destruct (started s); reflexivity. }
    destruct (l_logger l).
    - injection WE as ->. rewrite sink_emit, sink_setSink_other by congruence.
      apply S2.
    - destruct (OpenFile env _); [|discriminate WE].
      injection WE as ->. rewrite sink_emit, sink_setSink_other by congruence.
      apply S2. }
  destruct OP as [(args & ->)|(format & args & ->)].
  - rewrite step_Println in St by assumption. eapply G, St.
  - rewrite step_Printf in St by assumption. eapply G, St.
Qed.

Lemma same_day_write_is_local_witness :
  (reachable (init env0)
   /\ Format_date_dash (Now env0 (locationValue (init env0))) = dateStr (init env0))
  /\ sink levelDebug
       (stateOf (step (env0, OpPrintln levelInfo [VString "a"]) (init env0)))
     = sink levelDebug (init env0).
Proof.
  assert (N : levelDebug <> levelInfo) by discriminate.
  split; [split; [apply reachable_init|reflexivity]|].
  exact (same_day_write_is_local (init env0) env0 levelInfo
           (OpPrintln levelInfo [VString "a"]) _ (reachable_init env0)
           (or_introl (ex_intro _ [VString "a"] eq_refl)) eq_refl eq_refl
           levelDebug N).
Defined.
